(** * Room session orchestration

    A shallow embedding of the two managers that coordinate a chat room:
    [ConnectionManager] (src/app/connection_manager.py) and
    [SessionManager] (src/app/session.py), together with the parts of the
    websocket endpoint (src/app/routers/websockets.py) that call them.

    Conventions of the embedding.
    - Room ids, session ids and user ids stored in rows are Python ints: [Z].
      The keys of the connection and response dictionaries are the [str]
      user ids taken from the token: [string].
    - Python objects that are compared or shared by identity (asyncio tasks,
      asyncio queues, websockets) are numbers into a heap kept in the state.
    - A dictionary that is read in insertion order is an association list
      ([dict_get], [dict_set], [dict_del]); the others are [gmap]s.
    - Coroutines run from one suspension point to the next as one step.  A
      suspended consumer task is a value of [TaskState]. *)

From stdpp Require Import gmap strings list fin_maps.
From Stdlib Require Import ZArith Lia.

(** ** Insertion-ordered dictionaries with [str] keys *)

Section odict.
Context {V : Type}.

Fixpoint dict_get (k : string) (d : list (string * V)) : option V :=
  match d with
  | [] => None
  | (k', v) :: d' => if decide (k = k') then Some v else dict_get k d'
  end.

(** [d[k] = v]: an existing key keeps its position, a new key goes last. *)
Fixpoint dict_set (k : string) (v : V) (d : list (string * V)) : list (string * V) :=
  match d with
  | [] => [(k, v)]
  | (k', v') :: d' =>
      if decide (k = k') then (k, v) :: d' else (k', v') :: dict_set k v d'
  end.

(** [del d[k]] for a key that is present (absent keys leave [d] as it is;
    the callers test membership first). *)
Fixpoint dict_del (k : string) (d : list (string * V)) : list (string * V) :=
  match d with
  | [] => []
  | (k', v') :: d' =>
      if decide (k = k') then d' else (k', v') :: dict_del k d'
  end.

Definition dict_keys (d : list (string * V)) : list string := d.*1.
End odict.


(** ** Outbound payloads

    The dictionaries handed to the broadcaster.  The Korean sentences of the
    source are kept apart by constructor; the interpolated values (the topic
    word, the configured minutes) are arguments. *)

Inductive TopicDisplay := DisplaySituation | DisplayEmotion.

Inductive Content :=
| IntroNotice (minutes : Z)         (* counsellor greeting of start_new_initial_session *)
| SituationStart                    (* "the conversation about the situation starts" *)
| ExtensionPrompt (d : TopicDisplay)   (* "time for <topic> is over, continue?" *)
| WaitForOther                      (* "the other user is choosing, please wait" *)
| ExtendedAllYes (d : TopicDisplay) (minutes : Z)
| ExtendedOneYes (d : TopicDisplay) (minutes : Z)
| EmotionStart                      (* announcement of the emotion topic *)
| ChatClosed                        (* closing words of the conversation *)
| UserText (text : string).         (* a relayed chat line *)

Record Msg := mkMsg {
  msg_type : string;                (* "system", "session" or "message" *)
  content : Content;
  msg_session_id : option Z;
  msg_topic : option string;
  timestamp : Z;
}.

(** ** The connection manager (src/app/connection_manager.py) *)

Module ConnectionManager.

(** One entry of a room queue: [{"message_data": ..., "target_user_id": ...}]. *)
Record QItem := mkQItem {
  message_data : Msg;
  target_user_id : option string;
}.

(** [asyncio.Queue(maxsize=100)] *)
Definition maxsize : nat := 100.

(** Where a [process_messages] task is suspended.
    - [AtLoopTop]: created or between two iterations, about to test
      [room_id not in self.pending_messages];
    - [WaitingGet q]: inside [await queue.get()] on the queue object [q],
      which was empty when the task asked;
    - [Sending item rem]: inside [await asyncio.gather(...)]; [rem] are the
      (user id, websocket) pairs whose [send_json] has not completed yet;
    - [TaskDone]: finished or cancelled. *)
Inductive TaskState :=
| AtLoopTop
| WaitingGet (q : nat)
| Sending (item : QItem) (rem : list (string * nat))
| TaskDone.

Record Task := mkTask { task_room : Z; task_state : TaskState }.

(** A queue object.  [queue_room] is the room it was created for (the value
    never changes; no code reads it). *)
Record QueueObj := mkQueue { queue_room : Z; queue_items : list QItem }.

Record t := mk {
  active_connections : gmap Z (list (string * nat));
  pending_messages : gmap Z nat;
  message_processor_tasks : gmap Z nat;
  room_connection_locks : gset Z;
  queues : gmap nat QueueObj;                  (* heap of queue objects *)
  tasks : gmap nat Task;                       (* heap of task objects *)
  enqueued : list (Z * QItem);                 (* history: every completed put *)
  delivered : list (Z * string * nat * Msg);   (* history: every successful send_json *)
}.

Definition init : t := mk ∅ ∅ ∅ ∅ ∅ ∅ [] [].

Definition set_active_connections (v : gmap Z (list (string * nat))) (st : t) : t :=
  mk v (pending_messages st) (message_processor_tasks st) (room_connection_locks st)
     (queues st) (tasks st) (enqueued st) (delivered st).
Definition set_pending_messages (v : gmap Z nat) (st : t) : t :=
  mk (active_connections st) v (message_processor_tasks st) (room_connection_locks st)
     (queues st) (tasks st) (enqueued st) (delivered st).
Definition set_message_processor_tasks (v : gmap Z nat) (st : t) : t :=
  mk (active_connections st) (pending_messages st) v (room_connection_locks st)
     (queues st) (tasks st) (enqueued st) (delivered st).
Definition set_room_connection_locks (v : gset Z) (st : t) : t :=
  mk (active_connections st) (pending_messages st) (message_processor_tasks st) v
     (queues st) (tasks st) (enqueued st) (delivered st).
Definition set_queues (v : gmap nat QueueObj) (st : t) : t :=
  mk (active_connections st) (pending_messages st) (message_processor_tasks st)
     (room_connection_locks st) v (tasks st) (enqueued st) (delivered st).
Definition set_tasks (v : gmap nat Task) (st : t) : t :=
  mk (active_connections st) (pending_messages st) (message_processor_tasks st)
     (room_connection_locks st) (queues st) v (enqueued st) (delivered st).
Definition set_enqueued (v : list (Z * QItem)) (st : t) : t :=
  mk (active_connections st) (pending_messages st) (message_processor_tasks st)
     (room_connection_locks st) (queues st) (tasks st) v (delivered st).
Definition set_delivered (v : list (Z * string * nat * Msg)) (st : t) : t :=
  mk (active_connections st) (pending_messages st) (message_processor_tasks st)
     (room_connection_locks st) (queues st) (tasks st) (enqueued st) v.

(** [task.done()] *)
Definition task_done (st : t) (tid : nat) : bool :=
  match tasks st !! tid with
  | Some (mkTask _ TaskDone) => true
  | Some _ => false
  | None => true
  end.

(** [task.cancel()]: the task is suspended when another coroutine runs, and
    [CancelledError] is raised in it before it executes anything else. *)
Definition cancel (tid : nat) (st : t) : t :=
  match tasks st !! tid with
  | Some tk => set_tasks (<[tid := mkTask (task_room tk) TaskDone]> (tasks st)) st
  | None => st
  end.

(** [asyncio.Queue(maxsize=100)] stored under [self.pending_messages[room_id]]. *)
Definition new_queue (room_id : Z) (st : t) : t :=
  let q := fresh (dom (queues st)) in
  set_pending_messages (<[room_id := q]> (pending_messages st))
    (set_queues (<[q := mkQueue room_id []]> (queues st)) st).

(** [new_task = asyncio.create_task(self.process_messages(room_id));
     self._message_processor_tasks[room_id] = new_task] *)
Definition start_processor (room_id : Z) (st : t) : t :=
  let tid := fresh (dom (tasks st)) in
  set_message_processor_tasks (<[room_id := tid]> (message_processor_tasks st))
    (set_tasks (<[tid := mkTask room_id AtLoopTop]> (tasks st)) st).

(** [_get_room_lock] *)
Definition get_room_lock (room_id : Z) (st : t) : t :=
  set_room_connection_locks ({[room_id]} ∪ room_connection_locks st) st.

(** [connect], from [websocket.accept()] on; no suspension point follows. *)
Definition connect (websocket : nat) (room_id : Z) (user_id : string) (st : t) : t :=
  let st := get_room_lock room_id st in
  let st :=
    match active_connections st !! room_id with
    | Some _ => st
    | None => new_queue room_id (set_active_connections (<[room_id := []]> (active_connections st)) st)
    end in
  let conns := default [] (active_connections st !! room_id) in
  let st := set_active_connections
              (<[room_id := dict_set user_id websocket conns]> (active_connections st)) st in
  match message_processor_tasks st !! room_id with
  | None => start_processor room_id st
  | Some current_task =>
      if task_done st current_task then start_processor room_id st else st
  end.

(** [disconnect] *)
Definition disconnect (room_id : Z) (user_id : string) (st : t) : t :=
  let st := get_room_lock room_id st in
  match active_connections st !! room_id with
  | None => st
  | Some conns =>
      match dict_get user_id conns with
      | None => st
      | Some _ =>
          let conns' := dict_del user_id conns in
          match conns' with
          | _ :: _ => set_active_connections (<[room_id := conns']> (active_connections st)) st
          | [] =>
              let st := set_active_connections (delete room_id (active_connections st)) st in
              let st :=
                match message_processor_tasks st !! room_id with
                | Some task =>
                    let st := set_message_processor_tasks
                                (delete room_id (message_processor_tasks st)) st in
                    if task_done st task then st else cancel task st
                | None => st
                end in
              let st := set_pending_messages (delete room_id (pending_messages st)) st in
              set_room_connection_locks (room_connection_locks st ∖ {[room_id]}) st
          end
      end
  end.

(** [get_active_connections_for_room] *)
Definition get_active_connections_for_room (st : t) (room_id : Z) : list (string * nat) :=
  default [] (active_connections st !! room_id).

(** [await queue.put(item)]: [None] when the queue is full, in which case the
    caller stays suspended inside [put] and the queue is as it was. *)
Definition put (item : QItem) (q : QueueObj) : option QueueObj :=
  if decide (length (queue_items q) < maxsize)
  then Some (mkQueue (queue_room q) (queue_items q ++ [item]))
  else None.

(** [broadcast_to_room].  The boolean tells whether the call returned
    ([true]) or is suspended in [put] ([false]). *)
Definition broadcast_to_room (room_id : Z) (message : Msg) (target : option string)
    (st : t) : t * bool :=
  let st :=
    match pending_messages st !! room_id with
    | Some _ => st
    | None =>
        let st := new_queue room_id st in
        match message_processor_tasks st !! room_id with
        | None => start_processor room_id st
        | Some tk => if task_done st tk then start_processor room_id st else st
        end
    end in
  let item := mkQItem message target in
  match pending_messages st !! room_id with
  | Some q =>
      match queues st !! q with
      | Some qo =>
          match put item qo with
          | Some qo' =>
              (set_enqueued (enqueued st ++ [(room_id, item)])
                 (set_queues (<[q := qo']> (queues st)) st), true)
          | None => (st, false)
          end
      | None => (st, false)
      end
  | None => (st, false)
  end.

(** The list [sockets_to_send] of [process_messages].  A target that is
    [None] or the empty string is falsy: the item goes to everybody. *)
Definition sockets_to_send (target : option string) (room_connections : list (string * nat))
    : list (string * nat) :=
  match target with
  | Some (String a u) =>
      match dict_get (String a u) room_connections with
      | Some ws => [(String a u, ws)]
      | None => []
      end
  | _ => room_connections
  end.

(** What [process_messages] does with an item it has taken from the queue,
    up to the [gather]. *)
Definition dispatch (room_id : Z) (item : QItem) (st : t) : TaskState :=
  match active_connections st !! room_id with
  | None | Some [] => AtLoopTop
  | Some room_connections =>
      match sockets_to_send (target_user_id item) room_connections with
      | [] => AtLoopTop
      | socks => Sending item socks
      end
  end.

(** [queue.get_nowait()] on the queue object [q] followed by [dispatch]. *)
Definition take (tid : nat) (room_id : Z) (q : nat) (st : t) : option t :=
  match queues st !! q with
  | Some (mkQueue r (item :: rest)) =>
      let st := set_queues (<[q := mkQueue r rest]> (queues st)) st in
      Some (set_tasks (<[tid := mkTask room_id (dispatch room_id item st)]> (tasks st)) st)
  | _ => None
  end.

(** The event loop resumes the [process_messages] task [tid]; the task runs
    to its next suspension point. *)
Definition resume (tid : nat) (st : t) : t :=
  match tasks st !! tid with
  | Some (mkTask room_id AtLoopTop) =>
      match pending_messages st !! room_id with
      | None => set_tasks (<[tid := mkTask room_id TaskDone]> (tasks st)) st
      | Some q =>
          match take tid room_id q st with
          | Some st' => st'
          | None => set_tasks (<[tid := mkTask room_id (WaitingGet q)]> (tasks st)) st
          end
      end
  | Some (mkTask room_id (WaitingGet q)) =>
      match take tid room_id q st with
      | Some st' => st'
      | None => st
      end
  | _ => st
  end.

(** One [_send_to_websocket] of the running [gather] completes; [ok] is its
    result.  When the last one completes the task goes round the loop. *)
Definition send_done (tid : nat) (user_id : string) (ok : bool) (st : t) : t :=
  match tasks st !! tid with
  | Some (mkTask room_id (Sending item rem)) =>
      match dict_get user_id rem with
      | Some ws =>
          let rem' := dict_del user_id rem in
          let st :=
            if ok
            then set_delivered (delivered st ++ [(room_id, user_id, ws, message_data item)]) st
            else st in
          let next := match rem' with [] => AtLoopTop | _ => Sending item rem' end in
          set_tasks (<[tid := mkTask room_id next]> (tasks st)) st
      | None => st
      end
  | _ => st
  end.

(** [_handle_processor_task_completion], the done-callback of a task. *)
Definition handle_processor_task_completion (tid : nat) (st : t) : t :=
  match tasks st !! tid with
  | Some (mkTask room_id TaskDone) =>
      if decide (message_processor_tasks st !! room_id = Some tid)
      then set_message_processor_tasks (delete room_id (message_processor_tasks st)) st
      else st
  | _ => st
  end.

(** What can happen to a connection manager, one atomic step each. *)
Inductive Event :=
| Connect (websocket : nat) (room_id : Z) (user_id : string)
| Disconnect (room_id : Z) (user_id : string)
| Broadcast (room_id : Z) (message : Msg) (target : option string)
| Resume (tid : nat)
| SendDone (tid : nat) (user_id : string) (ok : bool)
| DoneCallback (tid : nat).

Definition step (st : t) (e : Event) : t :=
  match e with
  | Connect ws r u => connect ws r u st
  | Disconnect r u => disconnect r u st
  | Broadcast r m tg => (broadcast_to_room r m tg st).1
  | Resume tid => resume tid st
  | SendDone tid u ok => send_done tid u ok st
  | DoneCallback tid => handle_processor_task_completion tid st
  end.

Definition run (st : t) (evs : list Event) : t := foldl step st evs.

(** Histories read per room and per connection. *)
Definition enqueued_in (st : t) (room_id : Z) : list QItem :=
  omap (λ p, if decide (p.1 = room_id) then Some p.2 else None) (enqueued st).

Definition received (st : t) (room_id : Z) (user_id : string) (websocket : nat) : list Msg :=
  omap (λ d, match d with
             | (r, u, ws, m) =>
                 if decide (r = room_id ∧ u = user_id ∧ ws = websocket) then Some m else None
             end) (delivered st).

(** The contents of the queue currently registered for a room. *)
Definition queue_of (st : t) (room_id : Z) : list QItem :=
  match pending_messages st !! room_id with
  | Some q => match queues st !! q with Some qo => queue_items qo | None => [] end
  | None => []
  end.

(** *** Predicates used to state and prove the properties of a run *)

(** A task that has not finished. *)
Definition live (tk : Task) : bool :=
  match task_state tk with TaskDone => false | _ => true end.

(** The unfinished [process_messages] tasks of a room. *)
Definition consumers (st : t) (room_id : Z) : gmap nat Task :=
  filter (λ p, task_room p.2 = room_id ∧ live p.2 = true) (tasks st).

(** No queue object holds more than [maxsize] items. *)
Definition bounded (st : t) : Prop :=
  ∀ q qo, queues st !! q = Some qo → length (queue_items qo) ≤ maxsize.

(** Shape of the heap: registered objects exist and belong to their room,
    every unfinished task is the registered one, dictionary keys are
    distinct, and a task waits on a replaced queue only in a room that has
    connections. *)
Record wf (st : t) : Prop := mk_wf {
  wf_pending : ∀ r q, pending_messages st !! r = Some q →
      ∃ qo, queues st !! q = Some qo ∧ queue_room qo = r;
  wf_waiting : ∀ tid r q, tasks st !! tid = Some (mkTask r (WaitingGet q)) →
      ∃ qo, queues st !! q = Some qo ∧ queue_room qo = r;
  wf_registry : ∀ r tid, message_processor_tasks st !! r = Some tid →
      ∃ tk, tasks st !! tid = Some tk ∧ task_room tk = r;
  wf_live : ∀ tid tk, tasks st !! tid = Some tk → task_state tk ≠ TaskDone →
      message_processor_tasks st !! task_room tk = Some tid;
  wf_conns : ∀ r c, active_connections st !! r = Some c → NoDup (dict_keys c);
  wf_sending : ∀ tid r x rem, tasks st !! tid = Some (mkTask r (Sending x rem)) →
      NoDup (dict_keys rem);
  wf_orphan : ∀ tid r q, tasks st !! tid = Some (mkTask r (WaitingGet q)) →
      pending_messages st !! r ≠ Some q → is_Some (active_connections st !! r);
}.

(** The history of a room splits into what the consumer has taken ([P]),
    what is left in a replaced queue the consumer still waits on ([W]) and
    the registered queue; every connection has received a subsequence of
    [P], and a connection that an item in flight is still to reach has
    received a subsequence of what precedes that item. *)
Definition fifo_room (st : t) (r : Z) : Prop :=
  ∃ P W,
    enqueued_in st r = P ++ W ++ queue_of st r
  ∧ (∀ tid q qo, tasks st !! tid = Some (mkTask r (WaitingGet q)) →
       pending_messages st !! r ≠ Some q → queues st !! q = Some qo →
       queue_items qo = W)
  ∧ (∀ u ws, received st r u ws `sublist_of` (message_data <$> P))
  ∧ (∀ tid x rem, tasks st !! tid = Some (mkTask r (Sending x rem)) →
       ∃ P0 P1, P = P0 ++ [x] ++ P1 ∧
         ∀ u ws, (u, ws) ∈ rem → received st r u ws `sublist_of` (message_data <$> P0)).

Definition fifo (st : t) : Prop := ∀ r, fifo_room st r.

(** *** Predicates used to state further properties *)

(** An item is meant for a user: the test [if target_user_id:] of
    [process_messages] followed by the lookup of the target. *)
Definition addressed (item : QItem) (user_id : string) : Prop :=
  match target_user_id item with
  | Some (String a u) => user_id = String a u
  | _ => True
  end.

(** The room an event acts on: the room argument of a call, the room a task
    was created for. *)
Definition event_room (st : t) (e : Event) : option Z :=
  match e with
  | Connect _ r _ | Disconnect r _ | Broadcast r _ _ => Some r
  | Resume tid | SendDone tid _ _ | DoneCallback tid => task_room <$> tasks st !! tid
  end.

(** Everything the manager holds for room [r] is the same in [st] and [st']. *)
Record same_room (r : Z) (st st' : t) : Prop := mk_same_room {
  same_conns : active_connections st' !! r = active_connections st !! r;
  same_pending : pending_messages st' !! r = pending_messages st !! r;
  same_registry : message_processor_tasks st' !! r = message_processor_tasks st !! r;
  same_lock : r ∈ room_connection_locks st' ↔ r ∈ room_connection_locks st;
  same_queue : queue_of st' r = queue_of st r;
  same_enqueued : enqueued_in st' r = enqueued_in st r;
  same_received : ∀ u ws, received st' r u ws = received st r u ws;
  same_consumers : consumers st' r = consumers st r;
}.

(** Whatever is in a queue, in flight or delivered was put for that room,
    and an item goes only to users it is meant for. *)
Record traced (st : t) : Prop := mk_traced {
  traced_queue : ∀ q qo x, queues st !! q = Some qo → x ∈ queue_items qo →
      (queue_room qo, x) ∈ enqueued st;
  traced_sending : ∀ tid r x rem, tasks st !! tid = Some (mkTask r (Sending x rem)) →
      (r, x) ∈ enqueued st ∧ ∀ u ws, (u, ws) ∈ rem → addressed x u;
  traced_delivered : ∀ r u ws m, (r, u, ws, m) ∈ delivered st →
      ∃ x, (r, x) ∈ enqueued st ∧ message_data x = m ∧ addressed x u;
}.

(** A room that has connections has a queue. *)
Definition conns_have_queue (st : t) : Prop :=
  ∀ r, is_Some (active_connections st !! r) → is_Some (pending_messages st !! r).

(** *** Example run *)

(** A run in which two users connect, two events are enqueued and the
    consumer delivers them. *)
Definition example_msg (n : Z) : Msg := mkMsg "message" (UserText "hi") None None n.

Definition example_run : list Event :=
  [ Connect 10 1 "7"; Connect 11 1 "8";
    Broadcast 1 (example_msg 1) None; Broadcast 1 (example_msg 2) (Some "8");
    Resume 0; SendDone 0 "8" true; SendDone 0 "7" true;
    Resume 0; SendDone 0 "8" true; Resume 0 ].

End ConnectionManager.

(** ** The session manager (src/app/session.py) and its callers in the
    websocket endpoint (src/app/routers/websockets.py) *)

Module SessionManager.

(** A row of table [sessions] (class [Session] of src/app/models/chat.py). *)
Record Session := mkSession {
  session_id : Z;
  room_id : Z;
  user_a_id : Z;
  user_b_id : Z;
  topic : string;
  start_time : Z;
  end_time : option Z;
  extension_used : bool;
}.

Definition topic_1_situation : string := "topic_1_situation".
Definition topic_2_emotion : string := "topic_2_emotion".

Definition set_end_time (v : option Z) (s : Session) : Session :=
  mkSession (session_id s) (room_id s) (user_a_id s) (user_b_id s) (topic s)
            (start_time s) v (extension_used s).
Definition set_session_id (v : Z) (s : Session) : Session :=
  mkSession v (room_id s) (user_a_id s) (user_b_id s) (topic s)
            (start_time s) (end_time s) (extension_used s).
(** [s.extension_used = True; s.start_time = now] *)
Definition extend (now : Z) (s : Session) : Session :=
  mkSession (session_id s) (room_id s) (user_a_id s) (user_b_id s) (topic s)
            now (end_time s) true.

(** An asyncio task running [_check_session_timeout(room_id, db, target_session_id)].
    [timer_live] is false once the task has returned or has been cancelled. *)
Record TimerTask := mkTimer {
  timer_room : Z;
  target_session_id : Z;
  timer_live : bool;
}.

Record World := mkWorld {
  cm : ConnectionManager.t;
  room_sessions : gmap Z Session;
  session_tasks : gmap Z nat;
  session_responses : gmap Z (gmap string bool);
  timers : gmap nat TimerTask;                 (* heap of timer task objects *)
  db_sessions : gmap Z Session;                (* committed rows of table sessions *)
  db_next_id : Z;                              (* next autoincrement value *)
  db_faults : list bool;                       (* outcome of the awaited database calls to come *)
  outbox : list (Z * Msg * option string);     (* calls of the broadcaster, in order *)
}.

Definition set_cm v w := mkWorld v (room_sessions w) (session_tasks w) (session_responses w)
  (timers w) (db_sessions w) (db_next_id w) (db_faults w) (outbox w).
Definition set_room_sessions v w := mkWorld (cm w) v (session_tasks w) (session_responses w)
  (timers w) (db_sessions w) (db_next_id w) (db_faults w) (outbox w).
Definition set_session_tasks v w := mkWorld (cm w) (room_sessions w) v (session_responses w)
  (timers w) (db_sessions w) (db_next_id w) (db_faults w) (outbox w).
Definition set_session_responses v w := mkWorld (cm w) (room_sessions w) (session_tasks w) v
  (timers w) (db_sessions w) (db_next_id w) (db_faults w) (outbox w).
Definition set_timers v w := mkWorld (cm w) (room_sessions w) (session_tasks w)
  (session_responses w) v (db_sessions w) (db_next_id w) (db_faults w) (outbox w).
Definition set_db_sessions v w := mkWorld (cm w) (room_sessions w) (session_tasks w)
  (session_responses w) (timers w) v (db_next_id w) (db_faults w) (outbox w).
Definition set_db_next_id v w := mkWorld (cm w) (room_sessions w) (session_tasks w)
  (session_responses w) (timers w) (db_sessions w) v (db_faults w) (outbox w).
Definition set_db_faults v w := mkWorld (cm w) (room_sessions w) (session_tasks w)
  (session_responses w) (timers w) (db_sessions w) (db_next_id w) v (outbox w).
Definition set_outbox v w := mkWorld (cm w) (room_sessions w) (session_tasks w)
  (session_responses w) (timers w) (db_sessions w) (db_next_id w) (db_faults w) v.

(** *** Coroutines as state transformers that may raise *)

Inductive Exn := DbError | ValueError.

Inductive Res (A : Type) := Ret (a : A) | Raise (e : Exn).
Arguments Ret {A} a.
Arguments Raise {A} e.

Definition M (A : Type) : Type := World → Res A * World.

#[global] Instance M_ret : MRet M := λ A a w, (Ret a, w).
#[global] Instance M_bind : MBind M := λ A B f m w,
  match m w with
  | (Ret a, w') => f a w'
  | (Raise e, w') => (Raise e, w')
  end.

Definition raise {A} (e : Exn) : M A := λ w, (Raise e, w).
Definition get : M World := λ w, (Ret w, w).
Definition modify (f : World → World) : M unit := λ w, (Ret tt, f w).

(** [try: body  except Exception: handler] *)
Definition try_except {A} (body : M A) (handler : Exn → M A) : M A := λ w,
  match body w with
  | (Ret a, w') => (Ret a, w')
  | (Raise e, w') => handler e w'
  end.


(** *** The database collaborator

    Every awaited call on the [AsyncSession] reads the next entry of
    [db_faults]: [true] makes the call raise.  A commit that raises leaves
    the table as it was.  [db.get] and [db.refresh] are taken to return the
    committed column values of the row (one snapshot per call).  The
    objects of the ORM are not represented: where [db.get] hands back the
    object that [room_sessions] holds, an assignment to it shows there
    before the commit and a rollback expires it. *)

Definition db_await : M unit := λ w,
  match db_faults w with
  | true :: fs => (Raise DbError, set_db_faults fs w)
  | false :: fs => (Ret tt, set_db_faults fs w)
  | [] => (Ret tt, w)
  end.

(** [await db.get(Session, sid)] *)
Definition db_get (sid : Z) : M (option Session) :=
  db_await;; w ← get; mret (db_sessions w !! sid).

(** [db.add(s); await db.commit()] for a new object: the row receives the
    next autoincrement id. *)
Definition db_commit_insert (s : Session) : M Session :=
  db_await;;
  w ← get;
  let s' := set_session_id (db_next_id w) s in
  modify (λ w, set_db_next_id (db_next_id w + 1)
                 (set_db_sessions (<[db_next_id w := s']> (db_sessions w)) w));;
  mret s'.

(** [await db.commit()] after attributes of the persistent object [s] were
    assigned. *)
Definition db_commit_update (s : Session) : M unit :=
  db_await;;
  modify (λ w, set_db_sessions (<[session_id s := s]> (db_sessions w)) w).

(** [await db.refresh(s)] *)
Definition db_refresh (s : Session) : M Session :=
  db_await;;
  w ← get;
  match db_sessions w !! session_id s with
  | Some s' => mret s'
  | None => raise DbError
  end.

(** [await db.rollback()]: nothing uncommitted reaches [db_sessions]. *)
Definition db_rollback : M unit := mret tt.

(** *** The two callables given to the constructor

    [main.py] passes [connection_manager.broadcast_to_room] and
    [connection_manager.get_active_connections_for_room].  A call of the
    broadcaster is recorded in [outbox]; what the connection manager does with
    an enqueue request is the subject of [ConnectionManager]. *)

Definition broadcaster (room : Z) (message : Msg) (target : option string) : M unit :=
  modify (λ w, set_outbox (outbox w ++ [(room, message, target)]) w).

Definition active_connections_provider (room : Z) : M (list (string * nat)) :=
  w ← get; mret (ConnectionManager.get_active_connections_for_room (cm w) room).

(** *** Timer tasks *)

(** [task.cancel()] *)
Definition cancel (tid : nat) (w : World) : World :=
  match timers w !! tid with
  | Some tk =>
      set_timers (<[tid := mkTimer (timer_room tk) (target_session_id tk) false]> (timers w)) w
  | None => w
  end.

(** The two statements that arm a timer, as they stand together in
    [start_new_initial_session], [_transition_to_emotion_topic] and
    [add_session_response]:
    [if room_id in self.session_tasks: self.session_tasks[room_id].cancel()]
    [self.session_tasks[room_id] = asyncio.create_task(
         self._check_session_timeout(room_id, db, target))] *)
Definition replace_timer (room target : Z) (w : World) : World :=
  let w := match session_tasks w !! room with
           | Some old => cancel old w
           | None => w
           end in
  let tid := fresh (dom (timers w)) in
  set_session_tasks (<[room := tid]> (session_tasks w))
    (set_timers (<[tid := mkTimer room target true]> (timers w)) w).

(** [clear_room_session_data] *)
Definition clear_room_session_data (room : Z) (w : World) : World :=
  let w := set_room_sessions (delete room (room_sessions w)) w in
  let w := match session_tasks w !! room with
           | Some task => set_session_tasks (delete room (session_tasks w)) (cancel task w)
           | None => w
           end in
  set_session_responses (delete room (session_responses w)) w.

(** [all(responses_map.values())], [any(responses_map.values())] *)
Definition all_yes (responses_map : gmap string bool) : bool :=
  forallb id (map_to_list responses_map).*2.
Definition any_yes (responses_map : gmap string bool) : bool :=
  existsb id (map_to_list responses_map).*2.

Definition topic_display (s : Session) : TopicDisplay :=
  if decide (topic s = topic_1_situation) then DisplaySituation else DisplayEmotion.

(** What one pass through the [while True] loop of
    [_check_session_timeout] decides. *)
Inductive LoopCtl := Continue | Break.

Section handlers.
(** [int(...)] applied to a [str] user id; [None] is [ValueError]. *)
Variable py_int : string → option Z.
(** [settings.SESSION_DURATION_MINUTES] *)
Variable SESSION_DURATION_MINUTES : Z.

Definition int (s : string) : M Z :=
  match py_int s with
  | Some z => mret z
  | None => raise ValueError
  end.

(** [timedelta(minutes=settings.SESSION_DURATION_MINUTES)], with the clock
    counted in seconds. *)
Definition session_timeout_duration : Z := (60 * SESSION_DURATION_MINUTES)%Z.

Definition get_current_session (room : Z) : M (option Session) :=
  w ← get; mret (room_sessions w !! room).

Definition start_new_initial_session (room user_a user_b now : Z) : M (option Session) :=
  w ← get;
  match room_sessions w !! room with
  | Some existing => mret (Some existing)
  | None =>
      try_except
        (new_session ← db_commit_insert
           (mkSession 0 room user_a user_b topic_1_situation now None false);
         new_session ← db_refresh new_session;
         modify (λ w, set_room_sessions (<[room := new_session]> (room_sessions w)) w);;
         modify (replace_timer room (session_id new_session));;
         (* await asyncio.sleep(1) *)
         broadcaster room
           (mkMsg "system" (IntroNotice SESSION_DURATION_MINUTES) None None now) None;;
         broadcaster room
           (mkMsg "session" SituationStart (Some (session_id new_session))
                  (Some (topic new_session)) now) None;;
         mret (Some new_session))
        (λ _, db_rollback;; mret None)
  end.

(** [start_new_initial_session] suspends for the first time in
    [await db.commit()] (line 46), where the event loop may run another
    coroutine.  The two definitions below are the coroutine up to that
    point (the membership test of line 33, the new object and [db.add]) and
    from that point on; [start_new_initial_session] is the first followed
    at once by the second.  [inl] is the early return of line 35, [inr] the
    object whose commit is awaited. *)
Definition start_new_initial_session_enter (room user_a user_b now : Z)
    : M (Session + Session) :=
  w ← get;
  match room_sessions w !! room with
  | Some existing => mret (inl existing)
  | None => mret (inr (mkSession 0 room user_a user_b topic_1_situation now None false))
  end.

Definition start_new_initial_session_resume (room : Z) (new_session : Session) (now : Z)
    : M (option Session) :=
  try_except
    (new_session ← db_commit_insert new_session;
     new_session ← db_refresh new_session;
     modify (λ w, set_room_sessions (<[room := new_session]> (room_sessions w)) w);;
     modify (replace_timer room (session_id new_session));;
     broadcaster room
       (mkMsg "system" (IntroNotice SESSION_DURATION_MINUTES) None None now) None;;
     broadcaster room
       (mkMsg "session" SituationStart (Some (session_id new_session))
              (Some (topic new_session)) now) None;;
     mret (Some new_session))
    (λ _, db_rollback;; mret None).

Definition _transition_to_emotion_topic (room : Z) (ended_situation_session : Session)
    (now : Z) : M unit :=
  let ended := set_end_time (Some now) ended_situation_session in
  db_commit_update ended;;
  _ ← db_refresh ended;
  active_users ← active_connections_provider room;
  match dict_keys active_users with
  | user_a_id_str :: user_b_id_str :: _ =>
      user_a ← int user_a_id_str;
      user_b ← int user_b_id_str;
      new_emotion_session ← db_commit_insert
        (mkSession 0 room user_a user_b topic_2_emotion now None false);
      new_emotion_session ← db_refresh new_emotion_session;
      modify (λ w, set_room_sessions (<[room := new_emotion_session]> (room_sessions w)) w);;
      modify (replace_timer room (session_id new_emotion_session));;
      broadcaster room
        (mkMsg "session" EmotionStart (Some (session_id new_emotion_session))
               (Some (topic new_emotion_session)) now) None
  | _ => mret tt
  end.

Definition _end_chat_after_emotion_extension (room : Z) (ended_emotion_session : Session)
    (now : Z) : M unit :=
  let ended := set_end_time (Some now) ended_emotion_session in
  db_commit_update ended;;
  _ ← db_refresh ended;
  broadcaster room (mkMsg "system" ChatClosed None None now) None;;
  modify (clear_room_session_data room).

(** One pass through the loop of [_check_session_timeout], from the return
    of [asyncio.sleep(10)] to the next [sleep] or to the [break]. *)
Definition _check_session_timeout (room target_session_id now : Z) : M LoopCtl :=
  w ← get;
  match room_sessions w !! room with
  | None => mret Break
  | Some session =>
      if decide (session_id session ≠ target_session_id) then mret Break
      else if decide (session_timeout_duration ≤ now - start_time session)%Z then
        session_from_db ← db_get (session_id session);
        match session_from_db with
        | None => mret Break
        | Some session_from_db =>
            if extension_used session_from_db then
              (if decide (topic session_from_db = topic_1_situation)
               then _transition_to_emotion_topic room session_from_db now
               else if decide (topic session_from_db = topic_2_emotion)
               then _end_chat_after_emotion_extension room session_from_db now
               else mret tt);;
              mret Break
            else
              broadcaster room
                (mkMsg "system" (ExtensionPrompt (topic_display session_from_db))
                       (Some (session_id session_from_db)) None now)
                None;;
              modify (λ w, set_session_responses (<[room := ∅]> (session_responses w)) w);;
              mret Break
        end
      else mret Continue
  end.

(** The event loop resumes the timer task [tid] after its [sleep].  The
    task ends on [break] and on any exception (both [except] clauses of
    [_check_session_timeout] only print). *)
Definition timer_step (tid : nat) (now : Z) : M unit :=
  w ← get;
  match timers w !! tid with
  | Some (mkTimer room target true) =>
      ctl ← try_except (_check_session_timeout room target now) (λ _, mret Break);
      match ctl with
      | Continue => mret tt
      | Break => modify (cancel tid)
      end
  | _ => mret tt
  end.

Definition add_session_response (room : Z) (user_id : string) (response : bool)
    (now : Z) : M unit :=
  modify (λ w, set_session_responses
    (<[room := <[user_id := response]> (default ∅ (session_responses w !! room))]>
       (session_responses w)) w);;
  w ← get;
  match room_sessions w !! room with
  | None =>
      modify (λ w, set_session_responses (delete room (session_responses w)) w)
  | Some current_session_in_mgr =>
      active_users ← active_connections_provider room;
      if decide (length active_users < 2) then mret tt
      else
        let responses_map := default ∅ (session_responses w !! room) in
        if decide (size responses_map = 1) then
          broadcaster room (mkMsg "system" WaitForOther None None now) (Some user_id)
        else if decide (size responses_map = 2) then
          session_to_modify ← db_get (session_id current_session_in_mgr);
          match session_to_modify with
          | None =>
              modify (λ w, set_session_responses (delete room (session_responses w)) w)
          | Some session_to_modify =>
              try_except
                ((if all_yes responses_map || any_yes responses_map then
                    let content :=
                      if all_yes responses_map
                      then ExtendedAllYes (topic_display session_to_modify)
                                          SESSION_DURATION_MINUTES
                      else ExtendedOneYes (topic_display session_to_modify)
                                          SESSION_DURATION_MINUTES in
                    let extended := extend now session_to_modify in
                    db_commit_update extended;;
                    session_to_modify ← db_refresh extended;
                    modify (λ w, set_room_sessions
                                   (<[room := session_to_modify]> (room_sessions w)) w);;
                    broadcaster room
                      (mkMsg "session" content (Some (session_id session_to_modify))
                             (Some (topic session_to_modify)) now) None;;
                    modify (replace_timer room (session_id session_to_modify))
                  else if decide (topic session_to_modify = topic_1_situation)
                  then _transition_to_emotion_topic room session_to_modify now
                  else if decide (topic session_to_modify = topic_2_emotion)
                  then _end_chat_after_emotion_extension room session_to_modify now
                  else mret tt);;
                 modify (λ w, set_session_responses (delete room (session_responses w)) w))
                (λ _, db_rollback)
          end
        else mret tt
  end.

Definition end_session_for_room (room now : Z) : M unit :=
  w ← get;
  match room_sessions w !! room with
  | Some current_session =>
      match end_time current_session with
      | None =>
          try_except
            (db_session ← db_get (session_id current_session);
             match db_session with
             | Some db_session =>
                 match end_time db_session with
                 | None =>
                     let ended := set_end_time (Some now) db_session in
                     db_commit_update ended;;
                     db_session ← db_refresh ended;
                     modify (λ w, set_room_sessions (<[room := db_session]> (room_sessions w)) w)
                 | Some _ => mret tt
                 end
             | None => mret tt
             end)
            (λ _, db_rollback)
      | Some _ => mret tt
      end
  | None => mret tt
  end;;
  modify (clear_room_session_data room).

(** *** The websocket endpoint *)

Definition connect (websocket : nat) (room : Z) (user_id : string) : M unit :=
  modify (λ w, set_cm (ConnectionManager.connect websocket room user_id (cm w)) w).

Definition disconnect (room : Z) (user_id : string) : M unit :=
  modify (λ w, set_cm (ConnectionManager.disconnect room user_id (cm w)) w).

(** The [finally] block of [websocket_endpoint]. *)
Definition endpoint_cleanup (room : Z) (user_id : string) (now : Z) : M unit :=
  try_except
    (disconnect room user_id;;
     remaining ← active_connections_provider room;
     if decide (length remaining = 0) then
       sess ← get_current_session room;
       match sess with
       | Some _ => end_session_for_room room now
       | None => mret tt
       end
     else mret tt)
    (λ _, mret tt).

(** [websocket_endpoint] from [connect] to the start of the receive loop.
    [room_found] is the outcome of [db.get(Room, room_id)].  The chat
    history goes straight to the new websocket and is left out; its
    queries are database calls that may raise.  Leaving the coroutine
    before the receive loop runs the [finally] block. *)
Definition endpoint_open (websocket : nat) (room : Z) (user_id : string)
    (room_found : bool) (now : Z) : M unit :=
  try_except
    (connect websocket room user_id;;
     db_await;;
     if room_found then
       db_await;;
       w ← get;
       (if decide (map_Exists (λ _ s, room_id s = room) (db_sessions w))
        then db_await else mret tt);;
       active_connections_in_room ← active_connections_provider room;
       current_active_session ← get_current_session room;
       match current_active_session, dict_keys active_connections_in_room with
       | None, [a; b] =>
           try_except
             (user_a ← int a;
              user_b ← int b;
              _ ← start_new_initial_session room user_a user_b now;
              mret tt)
             (λ _, mret tt)
       | _, _ => mret tt
       end
     else
       disconnect room user_id;;
       endpoint_cleanup room user_id now)
    (λ _, endpoint_cleanup room user_id now).

(** The branch [data.get("type") == "response"] of the receive loop;
    [is_yes] is the comparison of the content with the word for yes.
    Without a current session the endpoint answers on the websocket and
    calls nothing. *)
Definition endpoint_response (room : Z) (user_id : string) (is_yes : bool) (now : Z)
    : M unit :=
  session_for_new_message ← get_current_session room;
  match session_for_new_message with
  | None => mret tt
  | Some _ => try_except (add_session_response room user_id is_yes now) (λ _, mret tt)
  end.

(** *** Runs *)

Inductive Event :=
| Join (websocket : nat) (room : Z) (user_id : string) (room_found : bool) (now : Z)
| Vote (room : Z) (user_id : string) (is_yes : bool) (now : Z)
| Leave (room : Z) (user_id : string) (now : Z)
| Tick (tid : nat) (now : Z)
| CallStart (room user_a user_b now : Z)
| CallResponse (room : Z) (user_id : string) (response : bool) (now : Z)
| CallEnd (room now : Z)
| CallConnect (websocket : nat) (room : Z) (user_id : string)
| CallDisconnect (room : Z) (user_id : string).

Definition handler (e : Event) : M unit :=
  match e with
  | Join ws room u found now => endpoint_open ws room u found now
  | Vote room u yes now => endpoint_response room u yes now
  | Leave room u now => endpoint_cleanup room u now
  | Tick tid now => timer_step tid now
  | CallStart room a b now => _ ← start_new_initial_session room a b now; mret tt
  | CallResponse room u r now => add_session_response room u r now
  | CallEnd room now => end_session_for_room room now
  | CallConnect ws room u => connect ws room u
  | CallDisconnect room u => disconnect room u
  end.

Definition step (w : World) (e : Event) : World := (handler e w).2.

Definition run (w : World) (evs : list Event) : World := foldl step w evs.

End handlers.

(** A process that has just started: nothing in memory, an empty table. *)
Definition init (faults : list bool) : World :=
  mkWorld ConnectionManager.init ∅ ∅ ∅ ∅ ∅ 1 faults [].

(** *** Predicates used to state and prove the properties of a run *)

(** The timer tasks of a room that are neither finished nor cancelled. *)
Definition live_timers (w : World) (room : Z) : gmap nat TimerTask :=
  filter (λ p, timer_room p.2 = room ∧ timer_live p.2 = true) (timers w).


(** Every live timer task is the one registered for its room, and the task
    registered for a room exists and was created for that room. *)
Record timers_ok (w : World) : Prop := mk_timers_ok {
  live_registered : ∀ tid tk, timers w !! tid = Some tk → timer_live tk = true →
      session_tasks w !! timer_room tk = Some tid;
  registered_exists : ∀ r tid, session_tasks w !! r = Some tid →
      ∃ tk, timers w !! tid = Some tk ∧ timer_room tk = r;
}.

(** No database call fails, rows are stored under their id below the next
    id, the session a room holds in memory is a row of that room, and a row
    that is not closed is the row of the session its room holds in memory. *)
Record db_ok (w : World) : Prop := mk_db_ok {
  ok_faults : db_faults w = [];
  ok_keys : ∀ sid row, db_sessions w !! sid = Some row →
      session_id row = sid ∧ (sid < db_next_id w)%Z;
  ok_current : ∀ r cur, room_sessions w !! r = Some cur →
      ∃ row, db_sessions w !! session_id cur = Some row ∧ room_id row = r ∧
             (end_time row = None → end_time cur = None);
  ok_open : ∀ sid row, db_sessions w !! sid = Some row → end_time row = None →
      ∃ cur, room_sessions w !! room_id row = Some cur ∧ session_id cur = sid;
}.

(** Every row of the room is closed. *)
Definition no_open_rows (w : World) (room : Z) : Prop :=
  ∀ sid row, db_sessions w !! sid = Some row → room_id row = room → end_time row ≠ None.

(** The row created by [_transition_to_emotion_topic] in state [w]. *)
Definition emotion_session (w : World) (room a b now : Z) : Session :=
  mkSession (db_next_id w) room a b topic_2_emotion now None false.

(** Between [w] and [w'] a new timer task for [target] was created and
    registered for the room, and the task registered before is not live. *)
Definition timer_replaced (w w' : World) (room target : Z) : Prop :=
  ∃ tid, timers w !! tid = None ∧ session_tasks w' !! room = Some tid ∧
         timers w' !! tid = Some (mkTimer room target true) ∧
         ∀ old tk, session_tasks w !! room = Some old → timers w !! old = Some tk →
                   timer_live <$> timers w' !! old = Some false.

(** Invariance of a predicate under a computation, whatever it returns. *)
Definition preserves {A} (I : World → Prop) (m : M A) : Prop :=
  ∀ w, I w → I (m w).2.

(** [end_session_for_room] up to the call of [clear_room_session_data]. *)
Definition close_current (room now : Z) : M unit :=
  w ← get;
  match room_sessions w !! room with
  | Some current_session =>
      match end_time current_session with
      | None =>
          try_except
            (db_session ← db_get (session_id current_session);
             match db_session with
             | Some db_session =>
                 match end_time db_session with
                 | None =>
                     let ended := set_end_time (Some now) db_session in
                     db_commit_update ended;;
                     db_session ← db_refresh ended;
                     modify (λ w, set_room_sessions (<[room := db_session]> (room_sessions w)) w)
                 | Some _ => mret tt
                 end
             | None => mret tt
             end)
            (λ _, db_rollback)
      | Some _ => mret tt
      end
  | None => mret tt
  end.

(** [w] has the connections, timer tasks, responses and broadcaster calls
    of [w0]. *)
Definition memory_kept (w0 w : World) : Prop :=
  cm w = cm w0 ∧ session_tasks w = session_tasks w0 ∧ timers w = timers w0 ∧
  session_responses w = session_responses w0 ∧ outbox w = outbox w0.

(** *** Predicates used to state further properties *)

(** The shapes of the payloads built in src/app/session.py: a ["session"]
    message announces a segment and carries its session id and topic, a
    ["system"] message carries no topic, and only the wait notice names a
    target user. *)
Definition shaped (p : Z * Msg * option string) : Prop :=
  let m := p.1.2 in
  match content m with
  | IntroNotice _ | ChatClosed =>
      msg_type m = "system" ∧ msg_session_id m = None ∧ msg_topic m = None ∧ p.2 = None
  | ExtensionPrompt _ =>
      msg_type m = "system" ∧ is_Some (msg_session_id m) ∧ msg_topic m = None ∧ p.2 = None
  | WaitForOther =>
      msg_type m = "system" ∧ msg_session_id m = None ∧ msg_topic m = None ∧ is_Some p.2
  | SituationStart | EmotionStart | ExtendedAllYes _ _ | ExtendedOneYes _ _ =>
      msg_type m = "session" ∧ is_Some (msg_session_id m) ∧ is_Some (msg_topic m) ∧ p.2 = None
  | UserText _ => False
  end.

Definition outbox_shaped (w : World) : Prop := Forall shaped (outbox w).

(** What the manager may turn a row into: the columns written at creation
    stay, an end time stays set, a used extension stays used. *)
Record row_kept (row row' : Session) : Prop := mk_row_kept {
  kept_id : session_id row' = session_id row;
  kept_room : room_id row' = room_id row;
  kept_user_a : user_a_id row' = user_a_id row;
  kept_user_b : user_b_id row' = user_b_id row;
  kept_topic : topic row' = topic row;
  kept_closed : is_Some (end_time row) → is_Some (end_time row');
  kept_extension : extension_used row = true → extension_used row' = true;
}.

(** Rows are stored under their own id, below the next autoincrement value. *)
Definition keys_ok (w : World) : Prop :=
  ∀ sid row, db_sessions w !! sid = Some row → session_id row = sid ∧ (sid < db_next_id w)%Z.

(** Every row of [w0] is still there in [w], kept in the sense above. *)
Definition table_grows (w0 w : World) : Prop :=
  (db_next_id w0 ≤ db_next_id w)%Z ∧
  ∀ sid row, db_sessions w0 !! sid = Some row →
    ∃ row', db_sessions w !! sid = Some row' ∧ row_kept row row'.

(** [I] holds after the computation when [P] held before, whatever it
    returns. *)
Definition preserves_from {A} (P I : World → Prop) (m : M A) : Prop :=
  ∀ w, P w → I (m w).2.

(** *** Example states *)

(** An [int] that knows two user ids. *)
Definition example_int (s : string) : option Z :=
  if decide (s = "7") then Some 7%Z else if decide (s = "8") then Some 8%Z else None.

(** Users 7 and 8 join room 1 at time 0, the segment lasts one minute, and
    the timer task wakes up at time 60 and asks whether to continue. *)
Definition prompted_events : list Event :=
  [Join 10 1 "7" true 0; Join 11 1 "8" true 0; Tick 0 60].
Definition prompted : World := run example_int 1 (init []) prompted_events.

(** User 7 answers yes at time 70, user 8 answers no at time 75. *)
Definition one_vote : World := step example_int 1 prompted (Vote 1 "7" true 70).
Definition extended : World := step example_int 1 one_vote (Vote 1 "8" false 75).

(** User 7 alone in room 1, and users 7 and 8 together just after the
    session has started. *)
Definition alone : World := step example_int 1 (init []) (Join 10 1 "7" true 0).
Definition joined_events : list Event := [Join 10 1 "7" true 0; Join 11 1 "8" true 0].
Definition joined : World := run example_int 1 (init []) joined_events.




(** As [extended], with the room's session forgotten. *)
Definition stale : World := set_room_sessions ∅ extended.

(** As [extended], after user 7 has left. *)
Definition last_user : World := step example_int 1 extended (Leave 1 "7" 90).

End SessionManager.

(** * Properties

    ** Insertion-ordered dictionaries *)

Section odict_facts.
Context {V : Type}.
Implicit Types (d : list (string * V)) (k : string) (v : V).

Lemma dict_get_None k d : dict_get k d = None ↔ k ∉ dict_keys d.
Proof.
  unfold dict_keys. induction d as [|[k' v] d IH]; simpl.
  - split; [intros _; apply not_elem_of_nil | done].
  - case_decide as Hk.
    + subst. split; [done | intros Hn; exfalso; apply Hn; left].
    + rewrite IH, not_elem_of_cons. split; [by intros ? | by intros [_ ?]].
Qed.

Lemma dict_keys_set k v d :
  dict_get k d = None → dict_keys (dict_set k v d) = dict_keys d ++ [k].
Proof.
  unfold dict_keys. induction d as [|[k' v'] d IH]; simpl; [done|].
  case_decide; [done|]. intros Hg. simpl. f_equal. by apply IH.
Qed.

Lemma dict_keys_set_present k v d :
  is_Some (dict_get k d) → dict_keys (dict_set k v d) = dict_keys d.
Proof.
  unfold dict_keys. induction d as [|[k' v'] d IH]; simpl.
  - by intros [? ?].
  - case_decide; [by subst|]. intros Hg. simpl. f_equal. by apply IH.
Qed.

Lemma dict_set_NoDup k v d :
  NoDup (dict_keys d) → NoDup (dict_keys (dict_set k v d)).
Proof.
  intros Hnd. destruct (dict_get k d) eqn:E.
  - by rewrite dict_keys_set_present.
  - rewrite dict_keys_set by done.
    apply NoDup_app. split; [done|]. split; [|apply NoDup_singleton].
    intros x Hx Hx'. apply list_elem_of_singleton in Hx'. subst.
    by apply dict_get_None in E.
Qed.

Lemma dict_del_keys_sublist k d : dict_keys (dict_del k d) `sublist_of` dict_keys d.
Proof.
  unfold dict_keys. induction d as [|[k' v'] d IH]; simpl; [done|].
  case_decide; simpl.
  - by apply sublist_cons.
  - by apply sublist_skip.
Qed.

Lemma dict_del_NoDup k d : NoDup (dict_keys d) → NoDup (dict_keys (dict_del k d)).
Proof. intros Hnd. eapply sublist_NoDup; [done | apply dict_del_keys_sublist]. Qed.

Lemma dict_get_elem k v d : dict_get k d = Some v → (k, v) ∈ d.
Proof.
  induction d as [|[k' v'] d IH]; simpl; [done|].
  case_decide; [intros [= ->]; subst; left|intros; right; auto].
Qed.

Lemma dict_del_elem k k' v d :
  NoDup (dict_keys d) → (k', v) ∈ dict_del k d → (k', v) ∈ d ∧ k' ≠ k.
Proof.
  unfold dict_keys. induction d as [|[k1 v1] d IH]; simpl; [by intros _ ?%elem_of_nil|].
  intros [Hn Hd]%NoDup_cons. case_decide; subst.
  - intros He. split; [by right|]. intros ->. apply Hn.
    apply list_elem_of_fmap. by exists (k1, v).
  - intros [E|He]%elem_of_cons.
    + injection E as -> ->. split; [left|done].
    + destruct (IH Hd He). split; [by right|done].
Qed.
End odict_facts.

(** ** The connection manager *)

Module ConnectionManagerProofs.
Import ConnectionManager.

(** *** Queue bound *)

Lemma bounded_insert st q qo v :
  bounded st → length (queue_items qo) ≤ maxsize →
  queues v = <[q := qo]> (queues st) → bounded v.
Proof.
  intros Hb Hl Hq q' qo'. rewrite Hq, lookup_insert.
  case_decide; [intros [= <-]; done | apply Hb].
Qed.

Lemma bounded_same st v : bounded st → queues v = queues st → bounded v.
Proof. intros Hb Hq q qo. rewrite Hq. apply Hb. Qed.

Lemma new_queue_bounded r st : bounded st → bounded (new_queue r st).
Proof.
  intros Hb. eapply bounded_insert; [exact Hb| |reflexivity]. simpl. unfold maxsize. lia.
Qed.

Lemma start_processor_queues r st : queues (start_processor r st) = queues st.
Proof. reflexivity. Qed.

Lemma cancel_queues tid st : queues (cancel tid st) = queues st.
Proof. unfold cancel. by destruct (tasks st !! tid). Qed.

Lemma connect_bounded ws r u st : bounded st → bounded (connect ws r u st).
Proof.
  intros Hb. unfold connect.
  set (st1 := match active_connections (get_room_lock r st) !! r with
              | Some _ => _ | None => _ end).
  assert (bounded st1) as Hb1.
  { subst st1. destruct (active_connections (get_room_lock r st) !! r).
    - by eapply bounded_same.
    - apply new_queue_bounded. by eapply bounded_same. }
  repeat case_match; by eapply bounded_same.
Qed.

Lemma disconnect_bounded r u st : bounded st → bounded (disconnect r u st).
Proof.
  intros Hb. unfold disconnect.
  repeat case_match; eapply bounded_same; try exact Hb; simpl;
    rewrite ?cancel_queues; done.
Qed.

Lemma take_bounded tid r q st st' : bounded st → take tid r q st = Some st' → bounded st'.
Proof.
  unfold take. intros Hb Ht.
  destruct (queues st !! q) as [[r' [|item rest]]|] eqn:Hq; try done.
  injection Ht as <-. eapply bounded_insert; [exact Hb| |reflexivity].
  apply Hb in Hq. simpl in *. lia.
Qed.

Lemma put_length item q q' :
  put item q = Some q' →
  queue_items q' = queue_items q ++ [item] ∧ length (queue_items q') ≤ maxsize.
Proof.
  unfold put. case_decide; [|done]. intros [= <-]. simpl.
  split; [done|]. rewrite length_app. simpl. lia.
Qed.

Lemma broadcast_bounded r m tg st : bounded st → bounded (broadcast_to_room r m tg st).1.
Proof.
  intros Hb. unfold broadcast_to_room.
  set (st1 := match pending_messages st !! r with Some _ => _ | None => _ end).
  assert (bounded st1) as Hb1.
  { subst st1. destruct (pending_messages st !! r); [done|].
    repeat case_match; try (eapply bounded_same; [|apply start_processor_queues]);
      by apply new_queue_bounded. }
  destruct (pending_messages st1 !! r) as [q|]; [|done].
  destruct (queues st1 !! q) as [qo|] eqn:Hq; [|done].
  destruct (put _ qo) as [qo'|] eqn:Hp; [|done].
  simpl. eapply bounded_insert; [exact Hb1| |reflexivity].
  by apply put_length in Hp as [_ ?].
Qed.

Lemma resume_bounded tid st : bounded st → bounded (resume tid st).
Proof.
  intros Hb. unfold resume.
  destruct (tasks st !! tid) as [[r []]|]; try done.
  - destruct (pending_messages st !! r) as [q|]; [|by eapply bounded_same].
    destruct (take tid r q st) eqn:Ht; [by eapply take_bounded|by eapply bounded_same].
  - destruct (take tid r q st) eqn:Ht; [by eapply take_bounded|done].
Qed.

Lemma send_done_bounded tid u ok st : bounded st → bounded (send_done tid u ok st).
Proof.
  intros Hb. unfold send_done.
  repeat case_match; try done; by eapply bounded_same.
Qed.

Lemma callback_bounded tid st : bounded st → bounded (handle_processor_task_completion tid st).
Proof.
  intros Hb. unfold handle_processor_task_completion.
  repeat case_match; try done; by eapply bounded_same.
Qed.

Lemma step_bounded st e : bounded st → bounded (step st e).
Proof.
  destruct e; simpl;
    auto using connect_bounded, disconnect_bounded, broadcast_bounded, resume_bounded,
               send_done_bounded, callback_bounded.
Qed.

Lemma run_bounded evs st : bounded st → bounded (run st evs).
Proof.
  revert st. induction evs as [|e evs IH]; intros st Hb; simpl; [done|].
  apply IH, step_bounded, Hb.
Qed.

Lemma init_bounded : bounded init.
Proof. intros q qo. simpl. by rewrite lookup_empty. Qed.

(** *** Shape of the heap *)

Lemma fresh_queue_None st : queues st !! fresh (dom (queues st)) = None.
Proof. apply not_elem_of_dom, is_fresh. Qed.
Lemma fresh_task_None st : tasks st !! fresh (dom (tasks st)) = None.
Proof. apply not_elem_of_dom, is_fresh. Qed.

Lemma state_done_dec (s : TaskState) : {s = TaskDone} + {s ≠ TaskDone}.
Proof. destruct s; (by left) || (by right). Qed.

Lemma task_done_false st tid :
  task_done st tid = false → ∃ tk, tasks st !! tid = Some tk ∧ task_state tk ≠ TaskDone.
Proof.
  unfold task_done. destruct (tasks st !! tid) as [[r s]|]; [|done].
  destruct s; try done; eauto.
Qed.
Lemma task_done_true st tid tk :
  task_done st tid = true → tasks st !! tid = Some tk → task_state tk = TaskDone.
Proof.
  unfold task_done. intros H1 H2. rewrite H2 in H1. destruct tk as [r []]; done.
Qed.


Lemma new_queue_wf r st :
  wf st →
  pending_messages st !! r = None ∨ is_Some (active_connections st !! r) →
  wf (new_queue r st).
Proof.
  intros [] Hl. pose proof (fresh_queue_None st) as Hf.
  split; simpl; try done.
  - intros r' q. rewrite lookup_insert. case_decide; subst.
    + intros [= <-]. rewrite lookup_insert_eq. eauto.
    + intros Hp. destruct (wf_pending0 _ _ Hp) as (qo & Hq & Hr).
      exists qo. rewrite lookup_insert_ne; [done|]. congruence.
  - intros tid r' q Ht. destruct (wf_waiting0 _ _ _ Ht) as (qo & Hq & Hr).
    exists qo. rewrite lookup_insert_ne; [done|]. congruence.
  - intros tid r' q Ht Hp. destruct (decide (r' = r)) as [->|].
    + destruct Hl as [Hl|Hl]; [|done]. eapply wf_orphan0; [done|]. by rewrite Hl.
    + rewrite lookup_insert_ne in Hp by done. eauto.
Qed.

Lemma set_conns_wf r c st :
  wf st → NoDup (dict_keys c) →
  wf (set_active_connections (<[r := c]> (active_connections st)) st).
Proof.
  intros [] Hc. split; simpl; try done.
  - intros r' c'. rewrite lookup_insert. case_decide; [by intros [= <-]|eauto].
  - intros tid r' q Ht Hp. rewrite lookup_insert. case_decide; [done|eauto].
Qed.

Lemma lock_wf (v : gset Z) st : wf st → wf (set_room_connection_locks v st).
Proof. intros []. by split. Qed.

Lemma start_processor_wf r st :
  wf st →
  (∀ tid, message_processor_tasks st !! r = Some tid → task_done st tid = true) →
  wf (start_processor r st).
Proof.
  intros [] Hd. pose proof (fresh_task_None st) as Hf.
  split; simpl; try done.
  - intros tid r' q. rewrite lookup_insert. case_decide; [done|eauto].
  - intros r' tid. rewrite lookup_insert. case_decide; subst.
    + intros [= <-]. rewrite lookup_insert_eq. eauto.
    + intros Hr. destruct (wf_registry0 _ _ Hr) as (tk & Htk & ?).
      exists tk. rewrite lookup_insert_ne; [done|]. congruence.
  - intros tid tk. rewrite lookup_insert. case_decide; subst.
    + intros [= <-] _. simpl. by rewrite lookup_insert_eq.
    + intros Htk Hs. destruct (decide (task_room tk = r)) as [Hr|Hr].
      * exfalso. pose proof (wf_live0 _ _ Htk Hs) as Hreg. rewrite Hr in Hreg.
        apply Hd in Hreg. by eapply task_done_true in Hreg.
      * rewrite lookup_insert_ne by done. eauto.
  - intros tid r' x rem. rewrite lookup_insert. case_decide; [done|eauto].
  - intros tid r' q. rewrite lookup_insert. case_decide; [done|eauto].
Qed.

Lemma connect_wf ws r u st : wf st → wf (connect ws r u st).
Proof.
  intros Hwf. unfold connect.
  set (st0 := get_room_lock r st).
  assert (wf st0) as H0 by by apply lock_wf.
  set (st1 := match active_connections st0 !! r with Some _ => _ | None => _ end).
  assert (wf st1) as H1.
  { subst st1. destruct (active_connections st0 !! r) eqn:E; [done|].
    apply new_queue_wf; [apply set_conns_wf; [done|constructor]|].
    right. simpl. by rewrite lookup_insert_eq. }
  set (st2 := set_active_connections _ st1).
  assert (wf st2) as H2.
  { apply set_conns_wf; [done|]. apply dict_set_NoDup.
    destruct (active_connections st1 !! r) eqn:E; simpl; [|constructor].
    by eapply wf_conns. }
  destruct (message_processor_tasks st2 !! r) as [tid|] eqn:E.
  - destruct (task_done st2 tid) eqn:Ed; [|done].
    apply start_processor_wf; [done|]. intros tid'. rewrite E. by intros [= <-].
  - apply start_processor_wf; [done|]. intros tid'. by rewrite E.
Qed.

Lemma disconnect_wf r u st : wf st → wf (disconnect r u st).
Proof.
  intros Hwf. unfold disconnect.
  set (st0 := get_room_lock r st).
  assert (wf st0) as H0 by by apply lock_wf.
  destruct (active_connections st0 !! r) as [conns|] eqn:Ec; [|done].
  destruct (dict_get u conns) eqn:Eu; [|done].
  assert (NoDup (dict_keys (dict_del u conns))) as Hnd.
  { apply dict_del_NoDup. by eapply wf_conns. }
  destruct (dict_del u conns) as [|p l] eqn:Ed.
  2:{ rewrite <- Ed in *. by apply set_conns_wf. }
  apply lock_wf.
  clearbody st0. clear Hwf st. rename st0 into st. destruct H0.
  (* the state after the task has been popped and cancelled *)
  assert (∀ st', pending_messages st' = pending_messages st →
                 queues st' = queues st →
                 active_connections st' = delete r (active_connections st) →
                 message_processor_tasks st' = delete r (message_processor_tasks st) →
                 (∀ tid tk, tasks st' !! tid = Some tk →
                    ∃ tk0, tasks st !! tid = Some tk0 ∧ task_room tk0 = task_room tk ∧
                      (task_state tk = TaskDone ∨
                       (tk0 = tk ∧ message_processor_tasks st !! r ≠ Some tid))) →
                 (∀ tid tk0, tasks st !! tid = Some tk0 → ∃ tk, tasks st' !! tid = Some tk ∧ task_room tk = task_room tk0) →
                 wf (set_pending_messages (delete r (pending_messages st')) st')) as Hgen.
  { intros st' Hp Hq Ha Hm Ht Ht'. split; simpl.
    - intros r' q. rewrite Hp, Hq, lookup_delete. case_decide; [done|eauto].
    - intros tid r' q Htk. rewrite Hq. destruct (Ht _ _ Htk) as (tk0 & Htk0 & Hr & [?|[-> _]]); [done|].
      eauto.
    - intros r' tid. rewrite Hm, lookup_delete. case_decide; [done|].
      intros Hr. destruct (wf_registry0 _ _ Hr) as (tk & Htk & ?).
      destruct (Ht' _ _ Htk) as (tk' & ? & ?). exists tk'. split; [done|congruence].
    - intros tid tk Htk Hs. destruct (Ht _ _ Htk) as (tk0 & Htk0 & Hr & [?|[-> Hn]]); [done|].
      rewrite Hm, lookup_delete. pose proof (wf_live0 _ _ Htk0 Hs) as Hreg.
      case_decide; [congruence|done].
    - intros r' c. rewrite Ha, lookup_delete. case_decide; [done|eauto].
    - intros tid r' x rem Htk. destruct (Ht _ _ Htk) as (tk0 & Htk0 & Hr & [?|[-> _]]); [done|].
      eauto.
    - intros tid r' q Htk. destruct (Ht _ _ Htk) as (tk0 & Htk0 & Hr & [?|[-> Hn]]); [done|].
      rewrite Hp, Ha, !lookup_delete. pose proof (wf_live0 _ _ Htk0) as Hreg. simpl in Hreg.
      case_decide; subst.
      + intros _. exfalso. apply Hn, Hreg. done.
      + eauto. }
  destruct (message_processor_tasks
              (set_active_connections (delete r (active_connections st)) st) !! r)
    as [task|] eqn:Em; simpl in Em.
  - destruct (task_done _ task) eqn:Etd.
    + apply Hgen; try done.
      * intros tid tk Htk. simpl in Htk. exists tk. split; [done|]. split; [done|].
        destruct (state_done_dec (task_state tk)); [by left|right]. split; [done|].
        intros Hreg. rewrite Em in Hreg. injection Hreg as ->.
        unfold task_done in Etd. simpl in Etd. rewrite Htk in Etd. by destruct tk as [? []].
      * intros tid tk0 Htk. simpl. eauto.
    + unfold task_done in Etd. simpl in Etd.
      destruct (tasks st !! task) as [tk1|] eqn:Etk; [|done].
      unfold cancel. simpl. rewrite Etk.
      apply Hgen; try done.
      * intros tid tk. simpl. rewrite lookup_insert. case_decide; subst.
        -- intros [= <-]. exists tk1. simpl. eauto.
        -- intros Htk. exists tk. split; [done|]. split; [done|]. right. split; [done|].
           rewrite Em. congruence.
      * intros tid tk0 Htk. simpl. rewrite lookup_insert. case_decide; subst.
        -- rewrite Etk in Htk. injection Htk as ->. eauto.
        -- eauto.
  - apply Hgen; try done.
    + simpl. symmetry. by apply delete_id.
    + intros tid tk Htk. simpl in Htk. exists tk. split; [done|]. split; [done|].
      destruct (state_done_dec (task_state tk)); [by left|right]. split; [done|].
      by rewrite Em.
    + intros tid tk0 Htk. simpl. eauto.
Qed.

Lemma set_queue_wf q qo qo' st :
  wf st → queues st !! q = Some qo → queue_room qo' = queue_room qo →
  wf (set_queues (<[q := qo']> (queues st)) st).
Proof.
  intros [] Hq Hr. split; simpl; try done.
  - intros r q' Hp. destruct (wf_pending0 _ _ Hp) as (qo1 & Hq1 & Hr1).
    rewrite lookup_insert. case_decide; subst; [|eauto].
    exists qo'. split; [done|]. congruence.
  - intros tid r q' Ht. destruct (wf_waiting0 _ _ _ Ht) as (qo1 & Hq1 & Hr1).
    rewrite lookup_insert. case_decide; subst; [|eauto].
    exists qo'. split; [done|]. congruence.
Qed.

Lemma set_enqueued_wf v st : wf st → wf (set_enqueued v st).
Proof. intros []. by split. Qed.

Lemma set_delivered_wf v st : wf st → wf (set_delivered v st).
Proof. intros []. by split. Qed.

Lemma set_task_wf tid r s s' st :
  wf st → tasks st !! tid = Some (mkTask r s) →
  s ≠ TaskDone ∨ s' = TaskDone →
  (∀ q, s' = WaitingGet q → pending_messages st !! r = Some q) →
  (∀ x rem, s' = Sending x rem → NoDup (dict_keys rem)) →
  wf (set_tasks (<[tid := mkTask r s']> (tasks st)) st).
Proof.
  intros [] Ht Hs Hw Hn. split; simpl; try done.
  - intros tid' r' q. rewrite lookup_insert. case_decide; subst; [|eauto].
    intros [= -> ->]. eauto.
  - intros r' tid' Hr. destruct (wf_registry0 _ _ Hr) as (tk & Htk & Hrm).
    rewrite lookup_insert. case_decide; subst; [|eauto].
    rewrite Ht in Htk. injection Htk as <-. eauto.
  - intros tid' tk. rewrite lookup_insert. case_decide; subst; [|eauto].
    intros [= <-]. simpl. intros Hs'. destruct Hs as [Hs|Hs]; [|done].
    by apply (wf_live0 _ _ Ht).
  - intros tid' r' x rem. rewrite lookup_insert. case_decide; subst; [|eauto].
    intros [= -> ->]. eauto.
  - intros tid' r' q. rewrite lookup_insert. case_decide; subst; [|eauto].
    intros [= -> ->] Hp. exfalso. apply Hp. eauto.
Qed.

Lemma sockets_to_send_NoDup tg c : NoDup (dict_keys c) → NoDup (dict_keys (sockets_to_send tg c)).
Proof.
  intros Hc. unfold sockets_to_send. destruct tg as [[|a u]|]; try done.
  destruct (dict_get _ c); simpl; [apply NoDup_singleton|constructor].
Qed.

Lemma dispatch_cases r item st :
  dispatch r item st = AtLoopTop ∨
  ∃ c, active_connections st !! r = Some c ∧
       dispatch r item st = Sending item (sockets_to_send (target_user_id item) c).
Proof.
  unfold dispatch. destruct (active_connections st !! r) as [[|p c]|]; eauto.
  destruct (sockets_to_send _ _) eqn:E; eauto. right. eexists. split; [done|]. by rewrite E.
Qed.

Lemma take_wf tid r s q st st' :
  wf st → tasks st !! tid = Some (mkTask r s) → s ≠ TaskDone →
  take tid r q st = Some st' → wf st'.
Proof.
  intros Hwf Ht Hs. unfold take.
  destruct (queues st !! q) as [[r' [|item rest]]|] eqn:Hq; try done.
  intros [= <-].
  eapply (set_task_wf tid r s _ (set_queues _ st)).
  - by eapply set_queue_wf.
  - done.
  - by left.
  - intros q' Hd. destruct (dispatch_cases r item (set_queues (<[q:={| queue_room := r'; queue_items := rest |}]> (queues st)) st)) as [E|(c & _ & E)]; rewrite E in Hd; done.
  - intros x rem Hd. destruct (dispatch_cases r item (set_queues (<[q:={| queue_room := r'; queue_items := rest |}]> (queues st)) st)) as [E|(c & Hc & E)]; rewrite E in Hd; [done|].
    injection Hd as <- <-. apply sockets_to_send_NoDup. by eapply (wf_conns st).
Qed.

Lemma resume_wf tid st : wf st → wf (resume tid st).
Proof.
  intros Hwf. unfold resume.
  destruct (tasks st !! tid) as [[r s]|] eqn:Ht; [|done].
  destruct s; try done.
  - destruct (pending_messages st !! r) as [q|] eqn:Hp.
    + destruct (take tid r q st) eqn:Hk; [by eapply take_wf|].
      eapply set_task_wf; [done|exact Ht|by left| |done].
      by intros ? [= <-].
    + eapply set_task_wf; [done|exact Ht|by left|done|done].
  - destruct (take tid r q st) eqn:Hk; [|done]. by eapply take_wf.
Qed.

Lemma send_done_wf tid u ok st : wf st → wf (send_done tid u ok st).
Proof.
  intros Hwf. unfold send_done.
  destruct (tasks st !! tid) as [[r s]|] eqn:Ht; [|done].
  destruct s; try done.
  destruct (dict_get u rem) as [ws|] eqn:Hu; [|done].
  assert (NoDup (dict_keys (dict_del u rem))) as Hnd.
  { apply dict_del_NoDup. by eapply wf_sending. }
  assert (∀ st0, wf st0 → tasks st0 !! tid = Some (mkTask r (Sending item rem)) →
     wf (set_tasks (<[tid := mkTask r match dict_del u rem with [] => AtLoopTop | _ :: _ => Sending item (dict_del u rem) end]> (tasks st0)) st0)) as Hgen.
  { intros st0 H0 Ht0. eapply set_task_wf; [done|exact Ht0|by left| |].
    - by destruct (dict_del u rem).
    - intros x rem'. destruct (dict_del u rem) eqn:E; [done|]. by intros [= <- <-]. }
  destruct ok; apply Hgen; try done. by apply set_delivered_wf.
Qed.

Lemma callback_wf tid st : wf st → wf (handle_processor_task_completion tid st).
Proof.
  intros Hwf. unfold handle_processor_task_completion.
  destruct (tasks st !! tid) as [[r s]|] eqn:Ht; [|done].
  destruct s; try done. case_decide as Hreg; [|done].
  destruct Hwf. split; simpl; try done.
  - intros r' tid'. rewrite lookup_delete. case_decide; [done|eauto].
  - intros tid' tk Htk Hs. rewrite lookup_delete.
    pose proof (wf_live0 _ _ Htk Hs) as Hl. case_decide as Hr; [|done].
    rewrite <- Hr, Hreg in Hl. injection Hl as <-.
    rewrite Htk in Ht. injection Ht as ->. done.
Qed.

Lemma broadcast_wf r m tg st : wf st → wf (broadcast_to_room r m tg st).1.
Proof.
  intros Hwf. unfold broadcast_to_room.
  set (st1 := match pending_messages st !! r with Some _ => _ | None => _ end).
  assert (wf st1) as H1.
  { subst st1. destruct (pending_messages st !! r) eqn:Hp; [done|].
    assert (wf (new_queue r st)) as Hn by (apply new_queue_wf; auto).
    destruct (message_processor_tasks (new_queue r st) !! r) as [tk|] eqn:Hr.
    - destruct (task_done _ tk) eqn:Hd; [|done].
      apply start_processor_wf; [done|]. intros tid. rewrite Hr. by intros [= <-].
    - apply start_processor_wf; [done|]. intros tid. by rewrite Hr. }
  destruct (pending_messages st1 !! r) as [q|]; [|done].
  destruct (queues st1 !! q) as [qo|] eqn:Hq; [|done].
  destruct (put _ qo) as [qo'|] eqn:Hp; [|done].
  simpl. apply set_enqueued_wf. eapply set_queue_wf; [done..|].
  unfold put in Hp. case_decide; [|done]. by injection Hp as <-.
Qed.

Lemma step_wf st e : wf st → wf (step st e).
Proof.
  destruct e; simpl;
    auto using connect_wf, disconnect_wf, broadcast_wf, resume_wf, send_done_wf, callback_wf.
Qed.

Lemma init_wf : wf init.
Proof. split; simpl; intros *; by rewrite lookup_empty. Qed.

(** *** Delivery order *)

Lemma live_unique st tid1 tid2 r s1 s2 :
  wf st → tasks st !! tid1 = Some (mkTask r s1) → tasks st !! tid2 = Some (mkTask r s2) →
  s1 ≠ TaskDone → s2 ≠ TaskDone → tid1 = tid2.
Proof.
  intros Hwf H1 H2 Hs1 Hs2.
  pose proof (wf_live _ Hwf _ _ H1 Hs1) as E1.
  pose proof (wf_live _ Hwf _ _ H2 Hs2) as E2. simpl in *. congruence.
Qed.

Lemma sublist_fmap_app_r {A B} (f : A → B) (l : list B) (P P' : list A) :
  l `sublist_of` (f <$> P) → l `sublist_of` (f <$> (P ++ P')).
Proof. intros H. rewrite fmap_app. by apply sublist_inserts_r. Qed.

Lemma fifo_conns v st : fifo st → fifo (set_active_connections v st).
Proof. done. Qed.
Lemma fifo_locks v st : fifo st → fifo (set_room_connection_locks v st).
Proof. done. Qed.
Lemma fifo_registry v st : fifo st → fifo (set_message_processor_tasks v st).
Proof. done. Qed.

Lemma queue_of_new_queue_ne r0 r st :
  wf st → r ≠ r0 → queue_of (new_queue r0 st) r = queue_of st r.
Proof.
  intros Hwf Hr. unfold queue_of. simpl. rewrite lookup_insert_ne by done.
  destruct (pending_messages st !! r) as [q|] eqn:Hp; [|done].
  destruct (wf_pending _ Hwf _ _ Hp) as (qo & Hq & _).
  rewrite lookup_insert_ne; [done|]. pose proof (fresh_queue_None st). congruence.
Qed.

Lemma queue_of_new_queue r0 st : queue_of (new_queue r0 st) r0 = [].
Proof. unfold queue_of. simpl. by rewrite !lookup_insert_eq. Qed.

Lemma new_queue_fifo r0 st :
  wf st → fifo st →
  pending_messages st !! r0 = None ∨ active_connections st !! r0 = None →
  fifo (new_queue r0 st).
Proof.
  intros Hwf Hf Hc r. destruct (Hf r) as (P & W & He & HW & Hrec & Hsend).
  pose proof (fresh_queue_None st) as Hfr.
  destruct (decide (r = r0)) as [->|Hne].
  - destruct Hc as [Hp|Ha].
    + exists P, W. rewrite queue_of_new_queue.
      unfold queue_of in He. rewrite Hp in He. split; [done|].
      split; [|done]. simpl. intros tid q qo Ht _ Hq.
      destruct (wf_waiting _ Hwf _ _ _ Ht) as (qo' & Hq' & _).
      rewrite lookup_insert_ne in Hq by congruence.
      eapply HW; [done| |done]. by rewrite Hp.
    + exists (P ++ W), (queue_of st r0). rewrite queue_of_new_queue.
      split. { rewrite app_nil_r, <- (assoc_L (++)). exact He. } split; [|split].
      * simpl. intros tid q qo Ht _ Hq.
        destruct (wf_waiting _ Hwf _ _ _ Ht) as (qo' & Hq' & _).
        rewrite lookup_insert_ne in Hq by congruence.
        destruct (decide (pending_messages st !! r0 = Some q)) as [Hp|Hp].
        -- unfold queue_of. rewrite Hp, Hq. done.
        -- destruct (wf_orphan _ Hwf _ _ _ Ht Hp) as [? ?]. congruence.
      * intros u ws. apply sublist_fmap_app_r, Hrec.
      * intros tid x rem Ht. destruct (Hsend _ _ _ Ht) as (P0 & P1 & -> & Hr).
        exists P0, (P1 ++ W). split; [by rewrite <- !(assoc_L (++))|done].
  - exists P, W. rewrite queue_of_new_queue_ne by done. split; [done|].
    split; [|done]. simpl. intros tid q qo Ht Hp Hq.
    destruct (wf_waiting _ Hwf _ _ _ Ht) as (qo' & Hq' & _).
    rewrite lookup_insert_ne in Hq by congruence.
    rewrite lookup_insert_ne in Hp by done. eauto.
Qed.

Lemma start_processor_fifo r0 st : fifo st → fifo (start_processor r0 st).
Proof.
  intros Hf r. destruct (Hf r) as (P & W & He & HW & Hrec & Hsend).
  pose proof (fresh_task_None st) as Hfr.
  exists P, W. split; [done|]. split; [|split; [done|]]; simpl.
  - intros tid q qo. rewrite lookup_insert. case_decide; [done|eauto].
  - intros tid x rem. rewrite lookup_insert. case_decide; [done|eauto].
Qed.

Lemma enqueued_in_snoc st st' r0 item r :
  enqueued st' = enqueued st ++ [(r0, item)] →
  enqueued_in st' r = enqueued_in st r ++ (if decide (r0 = r) then [item] else []).
Proof.
  intros E. unfold enqueued_in. rewrite E, omap_app. simpl.
  by case_decide.
Qed.

Lemma received_snoc st st' r0 u0 ws0 m r u ws :
  delivered st' = delivered st ++ [(r0, u0, ws0, m)] →
  received st' r u ws =
    received st r u ws ++ (if decide (r0 = r ∧ u0 = u ∧ ws0 = ws) then [m] else []).
Proof.
  intros E. unfold received. rewrite E, omap_app. simpl.
  by case_decide.
Qed.

Lemma put_fifo r0 q qo item st :
  wf st → fifo st →
  pending_messages st !! r0 = Some q → queues st !! q = Some qo →
  fifo (set_enqueued (enqueued st ++ [(r0, item)])
          (set_queues (<[q := mkQueue (queue_room qo) (queue_items qo ++ [item])]> (queues st)) st)).
Proof.
  intros Hwf Hf Hp Hq r. destruct (Hf r) as (P & W & He & HW & Hrec & Hsend).
  destruct (wf_pending _ Hwf _ _ Hp) as (qo0 & Hq0 & Hroom).
  rewrite Hq in Hq0. injection Hq0 as <-.
  exists P, W. split; [|split; [|done]].
  - erewrite enqueued_in_snoc by reflexivity. rewrite He.
    unfold queue_of. simpl. destruct (decide (r0 = r)) as [->|Hne].
    + rewrite Hp, Hq, lookup_insert_eq. simpl. by rewrite !(assoc_L (++)).
    + rewrite app_nil_r. destruct (pending_messages st !! r) as [q'|] eqn:Hp'; [|done].
      destruct (wf_pending _ Hwf _ _ Hp') as (qo' & Hq' & Hroom').
      rewrite lookup_insert_ne; [done|]. intros ->. congruence.
  - simpl. intros tid q' qo' Ht Hp' Hq'.
    destruct (wf_waiting _ Hwf _ _ _ Ht) as (qo1 & Hq1 & Hroom1).
    rewrite lookup_insert in Hq'. case_decide as Hd; [|eauto].
    subst q'. rewrite Hq in Hq1. injection Hq1 as <-. exfalso. apply Hp'. congruence.
Qed.

(** taking the head of a queue *)
Lemma take_fifo tid r0 s q st st' :
  wf st → fifo st →
  tasks st !! tid = Some (mkTask r0 s) →
  (s = AtLoopTop ∧ pending_messages st !! r0 = Some q) ∨ s = WaitingGet q →
  take tid r0 q st = Some st' → fifo st'.
Proof.
  intros Hwf Hf Ht Hs. unfold take.
  destruct (queues st !! q) as [[rq [|item rest]]|] eqn:Hq; try done.
  intros [= <-].
  assert (s ≠ TaskDone) as Hlive by (destruct Hs as [[-> _]| ->]; done).
  assert (rq = r0) as ->.
  { destruct Hs as [[_ Hp]| ->].
    - destruct (wf_pending _ Hwf _ _ Hp) as (? & ? & ?). by simplify_eq.
    - destruct (wf_waiting _ Hwf _ _ _ Ht) as (? & ? & ?). by simplify_eq. }
  set (stq := set_queues _ st).
  intros r. destruct (Hf r) as (P & W & He & HW & Hrec & Hsend).
  destruct (decide (r = r0)) as [->|Hne].
  - (* the room of the task *)
    assert (∀ tid' s', (<[tid := mkTask r0 (dispatch r0 item stq)]> (tasks st)) !! tid' = Some (mkTask r0 s') →
                    s' ≠ TaskDone → tid' = tid ∧ s' = dispatch r0 item stq) as Honly.
    { intros tid' s'. rewrite lookup_insert. case_decide; subst.
      - by intros [= <-].
      - intros Ht' Hs'. exfalso. pose proof (live_unique _ _ _ _ _ _ Hwf Ht Ht' Hlive Hs'). done. }
    destruct (decide (pending_messages st !! r0 = Some q)) as [Hp|Hp].
    + exists (P ++ W ++ [item]), []. split; [|split; [|split]].
      * change (enqueued_in _ r0) with (enqueued_in st r0). rewrite He.
        unfold queue_of. simpl. rewrite Hp, Hq, lookup_insert_eq. simpl.
        by rewrite <- !(assoc_L (++)).
      * simpl. intros tid' q' qo' Ht' _ _. apply Honly in Ht' as [_ Hd]; [|done].
        destruct (dispatch_cases r0 item stq) as [E|(c & _ & E)]; rewrite E in Hd; done.
      * intros u ws. apply sublist_fmap_app_r, Hrec.
      * simpl. intros tid' x rem Ht'. apply Honly in Ht' as [_ Hd]; [|done].
        destruct (dispatch_cases r0 item stq) as [E|(c & _ & E)]; rewrite E in Hd; [done|].
        injection Hd as -> ->. exists (P ++ W), []. split; [by rewrite <- !(assoc_L (++))|].
        intros u ws _. apply sublist_fmap_app_r, Hrec.
    + destruct Hs as [[_ Hp']| ->]; [done|].
      pose proof (HW _ _ _ Ht Hp Hq) as HWq. simpl in HWq. subst W.
      exists (P ++ [item]), rest. split; [|split; [|split]].
      * change (enqueued_in _ r0) with (enqueued_in st r0). rewrite He.
        unfold queue_of. simpl. rewrite <- !(assoc_L (++)). simpl.
        destruct (pending_messages st !! r0) as [q'|] eqn:Hp'; [|done].
        rewrite lookup_insert_ne; [done|]. congruence.
      * simpl. intros tid' q' qo' Ht' _ _. apply Honly in Ht' as [_ Hd]; [|done].
        destruct (dispatch_cases r0 item stq) as [E|(c & _ & E)]; rewrite E in Hd; done.
      * intros u ws. apply sublist_fmap_app_r, Hrec.
      * simpl. intros tid' x rem Ht'. apply Honly in Ht' as [_ Hd]; [|done].
        destruct (dispatch_cases r0 item stq) as [E|(c & _ & E)]; rewrite E in Hd; [done|].
        injection Hd as -> ->. exists P, []. split; [done|].
        intros u ws _. apply Hrec.
  - (* another room *)
    exists P, W. split; [|split; [|split; [done|]]].
    + change (enqueued_in _ r) with (enqueued_in st r). rewrite He.
      unfold queue_of. simpl. destruct (pending_messages st !! r) as [q'|] eqn:Hp'; [|done].
      destruct (wf_pending _ Hwf _ _ Hp') as (qo' & Hq' & Hroom').
      rewrite lookup_insert_ne; [done|]. intros ->. rewrite Hq in Hq'. by simplify_eq.
    + simpl. intros tid' q' qo'. rewrite (lookup_insert (tasks st)).
      case_decide; [intros [= ? ?]; done|]. intros Ht' Hp' Hq'.
      destruct (wf_waiting _ Hwf _ _ _ Ht') as (qo1 & Hq1 & Hroom1).
      rewrite lookup_insert_ne in Hq'; [eauto|]. intros ->. rewrite Hq in Hq1. by simplify_eq.
    + simpl. intros tid' x rem. rewrite (lookup_insert (tasks st)).
      case_decide; [intros [= ? ?]; done|]. eauto.
Qed.

(** a task stops, or starts waiting on the registered queue *)
Lemma set_task_fifo tid r0 s s' st :
  fifo st → tasks st !! tid = Some (mkTask r0 s) →
  s' = TaskDone ∨ s' = AtLoopTop ∨ (∃ q, s' = WaitingGet q ∧ pending_messages st !! r0 = Some q) →
  fifo (set_tasks (<[tid := mkTask r0 s']> (tasks st)) st).
Proof.
  intros Hf Ht Hs r. destruct (Hf r) as (P & W & He & HW & Hrec & Hsend).
  exists P, W. split; [done|]. split; [|split; [done|]]; simpl.
  - intros tid' q qo. rewrite lookup_insert. case_decide; [|eauto].
    intros [= -> ->] Hp. destruct Hs as [?|[?|(q' & [= ->] & ?)]]; done.
  - intros tid' x rem. rewrite lookup_insert. case_decide; [|eauto].
    intros [= -> ->]. destruct Hs as [?|[?|(q' & ? & ?)]]; done.
Qed.

Lemma received_send st r0 u ws m (ok : bool) r u' ws' :
  received (if ok then set_delivered (delivered st ++ [(r0, u, ws, m)]) st else st) r u' ws' =
  received st r u' ws' ++
    (if decide (ok = true ∧ r0 = r ∧ u = u' ∧ ws = ws') then [m] else []).
Proof.
  destruct ok.
  - erewrite received_snoc by reflexivity. f_equal.
    repeat case_decide; try done; exfalso; tauto.
  - rewrite decide_False by (by intros [? _]). by rewrite app_nil_r.
Qed.

Lemma send_done_fifo tid u ok st : wf st → fifo st → fifo (send_done tid u ok st).
Proof.
  intros Hwf Hf. unfold send_done.
  destruct (tasks st !! tid) as [[r0 s]|] eqn:Ht; [|done].
  destruct s; try done.
  destruct (dict_get u rem) as [ws|] eqn:Hu; [|done].
  pose proof (wf_sending _ Hwf _ _ _ _ Ht) as Hnd.
  set (st1 := if ok then _ else st).
  assert (tasks st1 = tasks st) as Et by (subst st1; by destruct ok).
  assert (pending_messages st1 = pending_messages st) as Ep by (subst st1; by destruct ok).
  assert (queues st1 = queues st) as Eq by (subst st1; by destruct ok).
  assert (∀ r, enqueued_in st1 r = enqueued_in st r) as Ee by (subst st1; by destruct ok).
  assert (∀ r, queue_of st1 r = queue_of st r) as Eqo by (subst st1; by destruct ok).
  set (next := match dict_del u rem with [] => AtLoopTop | _ :: _ => Sending item (dict_del u rem) end).
  intros r. destruct (Hf r) as (P & W & He & HW & Hrec & Hsend).
  exists P, W. split; [|split; [|split]].
  - change (enqueued_in st1 r = P ++ W ++ queue_of st1 r). by rewrite Ee, Eqo.
  - simpl. rewrite Et, Ep, Eq. intros tid' q qo. rewrite lookup_insert.
    case_decide; [subst next; by destruct (dict_del u rem)|eauto].
  - intros u' ws'. change (received st1 r u' ws' `sublist_of` message_data <$> P).
    subst st1. rewrite received_send. case_decide as Hd; [|rewrite app_nil_r; apply Hrec].
    destruct Hd as (_ & -> & -> & ->).
    destruct (Hsend _ _ _ Ht) as (P0 & P1 & -> & Hr).
    rewrite (assoc_L (++)). apply sublist_fmap_app_r.
    rewrite fmap_app. apply sublist_app; [|done].
    apply Hr. by apply dict_get_elem.
  - simpl. rewrite Et. intros tid' x rem'. rewrite lookup_insert. case_decide as Hd.
    + subst tid' next. destruct (dict_del u rem) eqn:E; [done|]. rewrite <- E.
      intros [= -> -> <-].
      destruct (Hsend _ _ _ Ht) as (P0 & P1 & -> & Hr).
      exists P0, P1. split; [done|]. intros u' ws' Hin.
      apply dict_del_elem in Hin as [Hin Hne]; [|done].
      change (received st1 r u' ws' `sublist_of` message_data <$> P0).
      subst st1. rewrite received_send, decide_False by (by intros (_ & _ & -> & _)).
      rewrite app_nil_r. by apply Hr.
    + intros Ht'. destruct (Hsend _ _ _ Ht') as (P0 & P1 & -> & Hr).
      exists P0, P1. split; [done|]. intros u' ws' Hin.
      change (received st1 r u' ws' `sublist_of` message_data <$> P0).
      subst st1. rewrite received_send, decide_False.
      * rewrite app_nil_r. by apply Hr.
      * intros (_ & -> & _). apply Hd. symmetry. by eapply (live_unique st).
Qed.

Lemma connect_fifo ws r u st : wf st → fifo st → fifo (connect ws r u st).
Proof.
  intros Hwf Hf. unfold connect.
  set (st0 := get_room_lock r st).
  assert (wf st0) as Hwf0 by by apply lock_wf.
  assert (fifo st0) as Hf0 by done.
  set (st1 := match active_connections st0 !! r with Some _ => _ | None => _ end).
  assert (fifo st1) as Hf1.
  { subst st1. destruct (active_connections st0 !! r) eqn:E; [done|].
    change (fifo (set_active_connections (<[r:=[]]> (active_connections st0)) (new_queue r st0))).
    apply fifo_conns, new_queue_fifo; auto. }
  set (st2 := set_active_connections _ st1).
  assert (fifo st2) as Hf2 by done.
  destruct (message_processor_tasks st2 !! r) as [tid|];
    [destruct (task_done st2 tid)|]; try done; by apply start_processor_fifo.
Qed.

Lemma broadcast_fifo r m tg st : wf st → fifo st → fifo (broadcast_to_room r m tg st).1.
Proof.
  intros Hwf Hf. unfold broadcast_to_room.
  set (st1 := match pending_messages st !! r with Some _ => _ | None => _ end).
  assert (wf st1 ∧ fifo st1) as [Hwf1 Hf1].
  { subst st1. destruct (pending_messages st !! r) eqn:Hp; [done|].
    assert (wf (new_queue r st)) as Hn by (apply new_queue_wf; auto).
    assert (fifo (new_queue r st)) as Hfn by (apply new_queue_fifo; auto).
    destruct (message_processor_tasks (new_queue r st) !! r) as [tk|] eqn:Hr.
    - destruct (task_done _ tk) eqn:Hd; [|done].
      split; [|by apply start_processor_fifo].
      apply start_processor_wf; [done|]. intros tid. rewrite Hr. by intros [= <-].
    - split; [|by apply start_processor_fifo].
      apply start_processor_wf; [done|]. intros tid. by rewrite Hr. }
  destruct (pending_messages st1 !! r) as [q|] eqn:Hp; [|done].
  destruct (queues st1 !! q) as [qo|] eqn:Hq; [|done].
  destruct (put _ qo) as [qo'|] eqn:Hput; [|done].
  unfold put in Hput. case_decide; [|done]. injection Hput as <-.
  simpl. by apply put_fifo.
Qed.

Lemma resume_fifo tid st : wf st → fifo st → fifo (resume tid st).
Proof.
  intros Hwf Hf. unfold resume.
  destruct (tasks st !! tid) as [[r s]|] eqn:Ht; [|done].
  destruct s; try done.
  - destruct (pending_messages st !! r) as [q|] eqn:Hp.
    + destruct (take tid r q st) eqn:Hk.
      * eapply take_fifo; [done|done|exact Ht| |exact Hk]. by left.
      * eapply set_task_fifo; [done|exact Ht|]. right; right. eauto.
    + eapply set_task_fifo; [done|exact Ht|]. by left.
  - destruct (take tid r q st) eqn:Hk; [|done].
    eapply take_fifo; [done|done|exact Ht| |exact Hk]. by right.
Qed.

Lemma callback_fifo tid st : fifo st → fifo (handle_processor_task_completion tid st).
Proof.
  intros Hf. unfold handle_processor_task_completion.
  repeat case_match; done.
Qed.

Lemma disconnect_fifo r0 u st : wf st → fifo st → fifo (disconnect r0 u st).
Proof.
  intros Hwf Hf. unfold disconnect.
  set (st0 := get_room_lock r0 st).
  assert (wf st0) as Hwf0 by by apply lock_wf.
  assert (fifo st0) as Hf0 by done.
  destruct (active_connections st0 !! r0) as [conns|] eqn:Ec; [|done].
  destruct (dict_get u conns) eqn:Eu; [|done].
  destruct (dict_del u conns) as [|p l] eqn:Ed; [|done].
  apply fifo_locks.
  clearbody st0. clear Hwf Hf st. rename st0 into st.
  (* every task of the room is done once the registered one is cancelled *)
  assert (∀ st', enqueued st' = enqueued st → delivered st' = delivered st →
                 queues st' = queues st → pending_messages st' = pending_messages st →
                 (∀ tid s, tasks st' !! tid = Some (mkTask r0 s) → s = TaskDone) →
                 (∀ tid r s, r ≠ r0 → tasks st' !! tid = Some (mkTask r s) →
                    tasks st !! tid = Some (mkTask r s)) →
                 fifo (set_pending_messages (delete r0 (pending_messages st')) st')) as Hgen.
  { intros st' E1 E2 E3 E4 Hd Ho r. destruct (Hf0 r) as (P & W & He & HW & Hrec & Hsend).
    destruct (decide (r = r0)) as [->|Hne].
    - exists (P ++ W ++ queue_of st r0), []. split; [|split; [|split]].
      + unfold enqueued_in, queue_of. simpl. rewrite E1, lookup_delete_eq.
        fold (enqueued_in st r0). by rewrite He, !app_nil_r.
      + simpl. intros tid q qo Ht. by apply Hd in Ht.
      + intros u' ws'. unfold received. simpl. rewrite E2. apply sublist_fmap_app_r, Hrec.
      + simpl. intros tid x rem Ht. by apply Hd in Ht.
    - exists P, W. split; [|split; [|split]].
      + unfold enqueued_in, queue_of. simpl. rewrite E1, E3, E4, lookup_delete_ne by done.
        exact He.
      + simpl. rewrite E3, E4. intros tid q qo Ht. rewrite lookup_delete_ne by done.
        apply Ho in Ht; eauto.
      + intros u' ws'. unfold received. simpl. rewrite E2. apply Hrec.
      + simpl. intros tid x rem Ht. apply Ho in Ht; [|done].
        destruct (Hsend _ _ _ Ht) as (P0 & P1 & -> & Hr). exists P0, P1. split; [done|].
        intros u' ws' Hin. unfold received. simpl. rewrite E2. by apply Hr. }
  destruct (message_processor_tasks
              (set_active_connections (delete r0 (active_connections st)) st) !! r0)
    as [task|] eqn:Em; simpl in Em.
  - destruct (task_done _ task) eqn:Etd.
    + apply Hgen; try done. simpl. intros tid s Ht.
      destruct (state_done_dec s) as [|Hs]; [done|exfalso].
      pose proof (wf_live _ Hwf0 _ _ Ht Hs) as Hreg. simpl in Hreg.
      rewrite Em in Hreg. injection Hreg as ->.
      unfold task_done in Etd. simpl in Etd. rewrite Ht in Etd. by destruct s.
    + unfold task_done in Etd. simpl in Etd.
      destruct (tasks st !! task) as [tk1|] eqn:Etk; [|done].
      unfold cancel. simpl. rewrite Etk.
      apply Hgen; try done; simpl.
      * intros tid s. rewrite lookup_insert. case_decide; [by intros [= _ <-]|].
        intros Ht. destruct (state_done_dec s) as [|Hs]; [done|exfalso].
        pose proof (wf_live _ Hwf0 _ _ Ht Hs) as Hreg. simpl in Hreg. congruence.
      * intros tid r s Hr. rewrite lookup_insert. case_decide; [|done].
        subst. intros [= <- <-]. exfalso.
        destruct (wf_registry _ Hwf0 _ _ Em) as (tk & Htk & ?). congruence.
  - apply Hgen; try done. simpl. intros tid s Ht.
    destruct (state_done_dec s) as [|Hs]; [done|exfalso].
    pose proof (wf_live _ Hwf0 _ _ Ht Hs) as Hreg. simpl in Hreg. congruence.
Qed.

Lemma step_fifo st e : wf st → fifo st → fifo (step st e).
Proof.
  destruct e; simpl;
    auto using connect_fifo, disconnect_fifo, broadcast_fifo, resume_fifo, send_done_fifo,
               callback_fifo.
Qed.

Lemma init_fifo : fifo init.
Proof.
  intros r. exists [], []. repeat split; simpl; try done.
Qed.

Lemma run_invariants evs st :
  wf st → fifo st → wf (run st evs) ∧ fifo (run st evs).
Proof.
  revert st. induction evs as [|e evs IH]; intros st Hw Hf; simpl; [done|].
  apply IH; [by apply step_wf|by apply step_fifo].
Qed.




(** *** Consequences for every run *)

Lemma run_wf evs : wf (run init evs).
Proof. apply run_invariants; [apply init_wf|apply init_fifo]. Qed.

Lemma consumers_registered st r :
  wf st →
  dom (consumers st r) ⊆
    match message_processor_tasks st !! r with Some tid => {[tid]} | None => ∅ end.
Proof.
  intros Hwf tid [tk Htk]%elem_of_dom.
  apply map_lookup_filter_Some in Htk as [Htk [Hr Hl]]. simpl in *.
  assert (task_state tk ≠ TaskDone) as Hs.
  { unfold live in Hl. by destruct (task_state tk). }
  pose proof (wf_live _ Hwf _ _ Htk Hs) as Hreg. rewrite Hr in Hreg.
  rewrite Hreg. by apply elem_of_singleton.
Qed.

Lemma single_consumer evs r : size (consumers (run init evs) r) ≤ 1.
Proof.
  rewrite <- size_dom.
  etrans; [apply subseteq_size, consumers_registered, run_wf|].
  destruct (message_processor_tasks _ !! r).
  - rewrite size_singleton. lia.
  - rewrite size_empty. lia.
Qed.

Lemma queue_of_bounded st r : bounded st → length (queue_of st r) ≤ maxsize.
Proof.
  intros Hb. unfold queue_of.
  destruct (pending_messages st !! r) as [q|]; [|simpl; lia].
  destruct (queues st !! q) as [qo|] eqn:Hq; [|simpl; lia].
  by eapply Hb.
Qed.

(** What [broadcast_to_room] does to the queue of its room. *)
Lemma broadcast_queue st r m tg :
  wf st → bounded st →
  let res := broadcast_to_room r m tg st in
  if res.2
  then queue_of res.1 r = queue_of st r ++ [mkQItem m tg] ∧
       enqueued_in res.1 r = enqueued_in st r ++ [mkQItem m tg]
  else res.1 = st ∧ length (queue_of st r) = maxsize.
Proof.
  intros Hwf Hb. unfold broadcast_to_room.
  destruct (pending_messages st !! r) as [q|] eqn:Hp.
  - rewrite Hp. destruct (wf_pending _ Hwf _ _ Hp) as (qo & Hq & _). rewrite Hq.
    unfold put. case_decide as Hl; simpl.
    + split.
      * unfold queue_of. simpl. by rewrite Hp, Hq, lookup_insert_eq.
      * erewrite enqueued_in_snoc by reflexivity. by rewrite decide_True.
    + split; [done|]. unfold queue_of. rewrite Hp, Hq.
      apply Hb in Hq. lia.
  - set (st1 := match message_processor_tasks (new_queue r st) !! r with
                | Some _ => _ | None => _ end).
    assert (pending_messages st1 = <[r := fresh (dom (queues st))]> (pending_messages st) ∧
            queues st1 = <[fresh (dom (queues st)) := mkQueue r []]> (queues st) ∧
            enqueued st1 = enqueued st) as (Ep & Eq & Ee).
    { subst st1. repeat case_match; done. }
    assert (pending_messages st1 !! r = Some (fresh (dom (queues st)))) as Hp1
      by (by rewrite Ep, lookup_insert_eq).
    assert (queues st1 !! fresh (dom (queues st)) = Some (mkQueue r [])) as Hq1
      by (by rewrite Eq, lookup_insert_eq).
    rewrite Hp1. cbv beta iota. rewrite Hq1. simpl. split.
    + unfold queue_of. simpl. by rewrite Hp, Hp1, lookup_insert_eq.
    + erewrite enqueued_in_snoc by (simpl; by rewrite Ee).
      by rewrite decide_True.
Qed.

Example example_run_received :
  received (run init example_run) 1 "8" 11 = [example_msg 1; example_msg 2] ∧
  received (run init example_run) 1 "7" 10 = [example_msg 1] ∧
  (message_data <$> enqueued_in (run init example_run) 1) = [example_msg 1; example_msg 2].
Proof. vm_compute. done. Qed.

(** C3. Per-room first-in first-out delivery.  In every run of the connection
    manager (connects, disconnects, enqueue requests from any producer,
    resumptions of consumer tasks, completions of sends with either outcome,
    done-callbacks, in any order), what a connection of a room has received
    is a subsequence of what was put on the queues of that room, in the order
    of the puts; and the room never has two unfinished consumer tasks.
    Producers only call [broadcast_to_room]; nothing but a consumer task in
    [send_done] appends to [delivered]. *)
Theorem fifo_per_room (evs : list Event) (room_id : Z) (user_id : string) (websocket : nat) :
  received (run init evs) room_id user_id websocket
    `sublist_of` (message_data <$> enqueued_in (run init evs) room_id)
  ∧ size (consumers (run init evs) room_id) ≤ 1.
Proof.
  split; [|apply single_consumer].
  destruct (run_invariants evs init init_wf init_fifo) as [_ Hf].
  destruct (Hf room_id) as (P & W & -> & _ & Hrec & _).
  apply sublist_fmap_app_r, Hrec.
Qed.

(** C8. Bounded queue with backpressure.  In every run the queue of a room
    (and every queue object) holds at most 100 items.  A call of
    [broadcast_to_room] in a reachable state either returns, and then its
    item is the new last element of the room's queue and of the room's
    history, or it is suspended in [put], and then the queue holds exactly
    100 items and the state is as it was: nothing is dropped and nothing is
    added. *)
Theorem queue_bounded_backpressure (evs : list Event) (room_id : Z) (message : Msg)
    (target : option string) :
  let st := run init evs in
  let res := broadcast_to_room room_id message target st in
  length (queue_of st room_id) ≤ 100
  ∧ map_Forall (λ _ qo, length (queue_items qo) ≤ 100) (queues st)
  ∧ length (queue_of res.1 room_id) ≤ 100
  ∧ (if res.2
     then queue_of res.1 room_id = queue_of st room_id ++ [mkQItem message target] ∧
          enqueued_in res.1 room_id = enqueued_in st room_id ++ [mkQItem message target]
     else res.1 = st ∧ length (queue_of st room_id) = 100).
Proof.
  intros st res.
  assert (bounded st) as Hb by apply run_bounded, init_bounded.
  assert (wf st) as Hwf by apply run_wf.
  split; [by apply queue_of_bounded|]. split; [exact Hb|].
  split; [apply queue_of_bounded, broadcast_bounded, Hb|].
  by apply broadcast_queue.
Qed.

(** ** Dictionary round trips *)

Section odict_round_trips.
Context {V : Type}.
Implicit Types (d : list (string * V)) (k : string) (v : V).

Lemma dict_get_set_eq k v d : dict_get k (dict_set k v d) = Some v.
Proof.
  induction d as [|[k' v'] d IH]; simpl.
  - by rewrite decide_True.
  - case_decide as Hk; simpl; [by rewrite decide_True|]. by rewrite decide_False.
Qed.

Lemma dict_get_set_ne k k' v d : k' ≠ k → dict_get k' (dict_set k v d) = dict_get k' d.
Proof.
  intros Hne. induction d as [|[k1 v1] d IH]; simpl.
  - by rewrite decide_False.
  - case_decide as Hk; simpl.
    + subst k1. by rewrite !decide_False.
    + case_decide; [done|apply IH].
Qed.

Lemma dict_del_absent k d : dict_get k d = None → dict_del k d = d.
Proof.
  induction d as [|[k1 v1] d IH]; simpl; [done|].
  case_decide; [done|]. intros Hg. f_equal. by apply IH.
Qed.

Lemma dict_get_del_ne k k' d : k' ≠ k → dict_get k' (dict_del k d) = dict_get k' d.
Proof.
  intros Hne. induction d as [|[k1 v1] d IH]; simpl; [done|].
  case_decide as Hk; simpl.
  - subst k1. by rewrite decide_False.
  - case_decide; [done|apply IH].
Qed.

Lemma dict_get_del_eq k d : NoDup (dict_keys d) → dict_get k (dict_del k d) = None.
Proof.
  unfold dict_keys. induction d as [|[k1 v1] d IH]; simpl; [done|].
  intros [Hn Hd]%NoDup_cons. case_decide as Hk; simpl.
  - subst k1. by apply dict_get_None.
  - rewrite decide_False by done. by apply IH.
Qed.

Lemma dict_get_NoDup_elem k v d : NoDup (dict_keys d) → (k, v) ∈ d → dict_get k d = Some v.
Proof.
  unfold dict_keys. induction d as [|[k1 v1] d IH]; simpl; [by intros _ ?%elem_of_nil|].
  intros [Hn Hd]%NoDup_cons [Heq|Hin]%elem_of_cons.
  - injection Heq as -> ->. by rewrite decide_True.
  - case_decide as Hk; [|by apply IH].
    subst k1. exfalso. apply Hn. apply list_elem_of_fmap. by exists (k, v).
Qed.

Lemma dict_del_Permutation k v d rest :
  NoDup (dict_keys d) → d ≡ₚ (k, v) :: rest → dict_del k d ≡ₚ rest.
Proof.
  unfold dict_keys. revert rest. induction d as [|[k1 v1] d IH]; intros rest; simpl.
  - by intros _ ?%Permutation_nil_cons.
  - intros [Hn Hd]%NoDup_cons Hp. case_decide as Hk.
    + subst k1. assert (v1 = v) as ->.
      { assert ((k, v) ∈ (k, v1) :: d) as [Heq|Hin]%elem_of_cons
          by (rewrite Hp; left).
        - by injection Heq.
        - exfalso. apply Hn. apply list_elem_of_fmap. by exists (k, v). }
      by apply (inj (cons (k, v))).
    + assert ((k1, v1) ∈ rest) as Hin.
      { assert ((k1, v1) ∈ (k, v) :: rest) as [Heq|Hin]%elem_of_cons
          by (rewrite <- Hp; left); [|done].
        injection Heq as ??. by subst. }
      apply elem_of_Permutation in Hin as [rest' Hr].
      rewrite Hr. constructor. apply IH; [done|].
      apply (inj (cons (k1, v1))). rewrite Hp, Hr. apply perm_swap.
Qed.
End odict_round_trips.

(** ** The registry of connections *)

Lemma connect_conns ws r u st :
  active_connections (connect ws r u st) =
    <[r := dict_set u ws (get_active_connections_for_room st r)]> (active_connections st).
Proof.
  unfold connect, get_active_connections_for_room. simpl.
  destruct (active_connections st !! r) as [c|] eqn:E; simpl.
  - rewrite E. simpl.
    destruct (message_processor_tasks st !! r) as [tid|]; [|done].
    by destruct (task_done _ tid).
  - rewrite lookup_insert_eq. simpl. rewrite insert_insert_eq.
    destruct (message_processor_tasks st !! r) as [tid|]; [|done].
    by destruct (task_done _ tid).
Qed.

Lemma disconnect_conns r u st :
  get_active_connections_for_room (disconnect r u st) r
    = dict_del u (get_active_connections_for_room st r)
  ∧ ∀ r', r' ≠ r →
      active_connections (disconnect r u st) !! r' = active_connections st !! r'.
Proof.
  unfold disconnect, get_active_connections_for_room. simpl.
  destruct (active_connections st !! r) as [c|] eqn:E; simpl; [|by rewrite E].
  destruct (dict_get u c) as [ws|] eqn:Eg.
  - destruct (dict_del u c) as [|p c'] eqn:Ed; simpl.
    + assert (∀ st0 : t, active_connections st0 = delete r (active_connections st) →
                default [] (active_connections st0 !! r) = [] ∧
                ∀ r', r' ≠ r → active_connections st0 !! r' = active_connections st !! r')
        as Hx.
      { intros st0 ->. rewrite lookup_delete_eq. split; [done|].
        intros r' Hr. by rewrite lookup_delete_ne. }
      apply Hx.
      destruct (message_processor_tasks st !! r) as [task|]; simpl; [|done].
      destruct (task_done _ task); simpl; [done|].
      unfold cancel. simpl. by destruct (tasks st !! task).
    + rewrite lookup_insert_eq. split; [done|]. intros r' Hr. by rewrite lookup_insert_ne.
  - simpl. rewrite E. simpl. by rewrite dict_del_absent.
Qed.

(** [connect] stores the websocket under the user id: afterwards the user's
    connection is [websocket], whatever it was before; the other users of
    the room keep theirs; a user who was already connected keeps the place in
    the dictionary, a new one is appended; other rooms are untouched. *)
Theorem connect_registers_user (st : t) (websocket : nat) (room_id : Z) (user_id : string) :
  let before := get_active_connections_for_room st room_id in
  let st' := connect websocket room_id user_id st in
  let after := get_active_connections_for_room st' room_id in
  dict_get user_id after = Some websocket
  ∧ (∀ u, u ≠ user_id → dict_get u after = dict_get u before)
  ∧ dict_keys after = match dict_get user_id before with
                      | Some _ => dict_keys before
                      | None => dict_keys before ++ [user_id]
                      end
  ∧ (∀ r, r ≠ room_id →
       get_active_connections_for_room st' r = get_active_connections_for_room st r).
Proof.
  intros before st' after.
  assert (after = dict_set user_id websocket before) as ->.
  { subst after st'. unfold get_active_connections_for_room at 1.
    by rewrite connect_conns, lookup_insert_eq. }
  split; [apply dict_get_set_eq|]. split; [intros u Hu; by apply dict_get_set_ne|].
  split.
  - destruct (dict_get user_id before) eqn:E.
    + by apply dict_keys_set_present.
    + by apply dict_keys_set.
  - intros r Hr. subst st'. unfold get_active_connections_for_room.
    by rewrite connect_conns, lookup_insert_ne.
Qed.

(** [disconnect] removes the user id, whatever websocket is stored under it:
    in every reachable state the user has no connection in the room
    afterwards, the other users keep theirs, and other rooms are untouched. *)
Theorem disconnect_unregisters_user (evs : list Event) (room_id : Z) (user_id : string) :
  let st := run init evs in
  let before := get_active_connections_for_room st room_id in
  let st' := disconnect room_id user_id st in
  let after := get_active_connections_for_room st' room_id in
  dict_get user_id after = None
  ∧ (∀ u, u ≠ user_id → dict_get u after = dict_get u before)
  ∧ dict_keys after `sublist_of` dict_keys before
  ∧ (∀ r, r ≠ room_id →
       get_active_connections_for_room st' r = get_active_connections_for_room st r).
Proof.
  intros st before st' after.
  destruct (disconnect_conns room_id user_id st) as [Ha Ho].
  assert (after = dict_del user_id before) as -> by done.
  assert (NoDup (dict_keys before)) as Hnd.
  { subst before. unfold get_active_connections_for_room.
    destruct (active_connections st !! room_id) as [c|] eqn:E; simpl; [|constructor].
    eapply wf_conns; [apply run_wf|done]. }
  split; [by apply dict_get_del_eq|]. split; [intros u Hu; by apply dict_get_del_ne|].
  split; [apply dict_del_keys_sublist|].
  intros r Hr. subst st'. unfold get_active_connections_for_room. by rewrite Ho.
Qed.

(** ** Resources of a room *)


Lemma start_processor_fields r st :
  active_connections (start_processor r st) = active_connections st
  ∧ pending_messages (start_processor r st) = pending_messages st
  ∧ queues (start_processor r st) = queues st
  ∧ room_connection_locks (start_processor r st) = room_connection_locks st
  ∧ enqueued (start_processor r st) = enqueued st
  ∧ delivered (start_processor r st) = delivered st.
Proof. done. Qed.

Lemma cancel_task_fields tid st :
  active_connections (cancel tid st) = active_connections st
  ∧ pending_messages (cancel tid st) = pending_messages st
  ∧ message_processor_tasks (cancel tid st) = message_processor_tasks st
  ∧ queues (cancel tid st) = queues st
  ∧ room_connection_locks (cancel tid st) = room_connection_locks st
  ∧ enqueued (cancel tid st) = enqueued st
  ∧ delivered (cancel tid st) = delivered st.
Proof. unfold cancel. by destruct (tasks st !! tid). Qed.

Lemma connect_pending ws r u st :
  conns_have_queue st →
  (∀ r', r' ≠ r → pending_messages (connect ws r u st) !! r' = pending_messages st !! r')
  ∧ is_Some (pending_messages (connect ws r u st) !! r).
Proof.
  intros Hq. unfold connect. simpl.
  destruct (active_connections st !! r) as [c|] eqn:E; simpl.
  - assert (∀ st0 : t, pending_messages st0 = pending_messages st →
      (∀ r', r' ≠ r → pending_messages st0 !! r' = pending_messages st !! r')
      ∧ is_Some (pending_messages st0 !! r)) as Hx.
    { intros st0 ->. split; [done|]. apply Hq. by rewrite E. }
    apply Hx. destruct (message_processor_tasks st !! r) as [tid|]; [|done].
    by destruct (task_done _ tid).
  - assert (∀ st0 : t,
      pending_messages st0 = <[r := fresh (dom (queues st))]> (pending_messages st) →
      (∀ r', r' ≠ r → pending_messages st0 !! r' = pending_messages st !! r')
      ∧ is_Some (pending_messages st0 !! r)) as Hx.
    { intros st0 ->. rewrite lookup_insert_eq. split; [|done].
      intros r' Hr. by rewrite lookup_insert_ne. }
    apply Hx. destruct (message_processor_tasks st !! r) as [tid|]; [|done].
    by destruct (task_done _ tid).
Qed.

Lemma connect_have_queue ws r u st :
  conns_have_queue st → conns_have_queue (connect ws r u st).
Proof.
  intros Hq r'. destruct (connect_pending ws r u st Hq) as [Ho Hr].
  destruct (decide (r' = r)) as [->|Hne]; [done|].
  rewrite connect_conns, lookup_insert_ne, Ho by done. apply Hq.
Qed.

Lemma disconnect_pending r u st :
  (∀ r', r' ≠ r → pending_messages (disconnect r u st) !! r' = pending_messages st !! r')
  ∧ (pending_messages (disconnect r u st) !! r = pending_messages st !! r
     ∨ active_connections (disconnect r u st) !! r = None).
Proof.
  unfold disconnect. simpl.
  destruct (active_connections st !! r) as [c|] eqn:E; simpl; [|by split; [|left]].
  destruct (dict_get u c) as [ws|]; [|by split; [|left]].
  destruct (dict_del u c) as [|p c']; simpl; [|by split; [|left]].
  assert (∀ st0 : t, pending_messages st0 = pending_messages st →
            active_connections st0 = delete r (active_connections st) →
    (∀ r', r' ≠ r → delete r (pending_messages st0) !! r' = pending_messages st !! r')
    ∧ (delete r (pending_messages st0) !! r = pending_messages st !! r
       ∨ active_connections st0 !! r = None)) as Hx.
  { intros st0 -> ->. split; [|right; apply lookup_delete_eq].
    intros r' Hr. by rewrite lookup_delete_ne. }
  apply Hx.
  - destruct (message_processor_tasks st !! r) as [task|]; simpl; [|done].
    destruct (task_done _ task); simpl; [done|]. unfold cancel. simpl. by destruct (tasks st !! task).
  - destruct (message_processor_tasks st !! r) as [task|]; simpl; [|done].
    destruct (task_done _ task); simpl; [done|]. unfold cancel. simpl. by destruct (tasks st !! task).
Qed.

Lemma disconnect_have_queue r u st :
  conns_have_queue st → conns_have_queue (disconnect r u st).
Proof.
  intros Hq r' Hs. destruct (disconnect_pending r u st) as [Ho Hr].
  destruct (decide (r' = r)) as [->|Hne].
  - destruct Hr as [Hr|Hr]; [|rewrite Hr in Hs; by destruct Hs].
    rewrite Hr. apply Hq.
    destruct (active_connections st !! r) eqn:E; [done|].
    unfold disconnect in Hs. simpl in Hs. rewrite E in Hs. simpl in Hs.
    rewrite E in Hs. by destruct Hs.
  - rewrite Ho by done. apply Hq.
    destruct (disconnect_conns r u st) as [_ Hc]. by rewrite <- Hc.
Qed.

Lemma broadcast_have_queue r m tg st :
  conns_have_queue st → conns_have_queue (broadcast_to_room r m tg st).1.
Proof.
  intros Hq. unfold broadcast_to_room.
  set (st1 := match pending_messages st !! r with Some _ => st | None => _ end).
  assert (conns_have_queue st1) as H1.
  { subst st1. destruct (pending_messages st !! r) eqn:E; [done|].
    assert (conns_have_queue (new_queue r st)) as Hn.
    { intros r' Hs. simpl in *. destruct (decide (r' = r)) as [->|Hne].
      - by rewrite lookup_insert_eq.
      - rewrite lookup_insert_ne by done. by apply Hq. }
    destruct (message_processor_tasks (new_queue r st) !! r) as [tk|]; [|done].
    by destruct (task_done _ tk). }
  destruct (pending_messages st1 !! r) as [q|]; [|done].
  destruct (queues st1 !! q) as [qo|]; [|done].
  by destruct (put _ qo).
Qed.

Lemma resume_conns tid st :
  active_connections (resume tid st) = active_connections st
  ∧ pending_messages (resume tid st) = pending_messages st
  ∧ message_processor_tasks (resume tid st) = message_processor_tasks st.
Proof.
  unfold resume, take. destruct (tasks st !! tid) as [[r []]|]; try done.
  - destruct (pending_messages st !! r) as [q|]; [|done].
    by destruct (queues st !! q) as [[? [|??]]|].
  - by destruct (queues st !! q) as [[? [|??]]|].
Qed.

Lemma send_done_conns tid u ok st :
  active_connections (send_done tid u ok st) = active_connections st
  ∧ pending_messages (send_done tid u ok st) = pending_messages st
  ∧ message_processor_tasks (send_done tid u ok st) = message_processor_tasks st.
Proof.
  unfold send_done. destruct (tasks st !! tid) as [[r []]|]; try done.
  destruct (dict_get u rem); [|done]. by destruct ok.
Qed.

Lemma callback_conns tid st :
  active_connections (handle_processor_task_completion tid st) = active_connections st
  ∧ pending_messages (handle_processor_task_completion tid st) = pending_messages st.
Proof.
  unfold handle_processor_task_completion. destruct (tasks st !! tid) as [[r []]|]; try done.
  by case_decide.
Qed.

Lemma step_have_queue st e : conns_have_queue st → conns_have_queue (step st e).
Proof.
  intros Hq. destruct e; simpl.
  - by apply connect_have_queue.
  - by apply disconnect_have_queue.
  - by apply broadcast_have_queue.
  - intros r. destruct (resume_conns tid st) as (-> & -> & _). apply Hq.
  - intros r. destruct (send_done_conns tid user_id ok st) as (-> & -> & _). apply Hq.
  - intros r. destruct (callback_conns tid st) as (-> & ->). apply Hq.
Qed.

Lemma run_have_queue evs : conns_have_queue (run init evs).
Proof.
  unfold run. induction evs as [|e evs IH] using rev_ind.
  - intros r [? H]. simpl in H. by rewrite lookup_empty in H.
  - rewrite foldl_app. simpl. by apply step_have_queue.
Qed.

Lemma connect_registry ws r u st :
  ∃ tid, message_processor_tasks (connect ws r u st) !! r = Some tid
       ∧ task_done (connect ws r u st) tid = false
       ∧ (∀ tid0, message_processor_tasks st !! r = Some tid0 → task_done st tid0 = false →
            tid = tid0).
Proof.
  unfold connect.
  set (st2 := set_active_connections _ _).
  assert (message_processor_tasks st2 = message_processor_tasks st ∧ tasks st2 = tasks st)
    as [Hm Ht].
  { subst st2. simpl. by destruct (active_connections st !! r). }
  assert (∀ tid, task_done st2 tid = task_done st tid) as Hd.
  { intros tid. unfold task_done. by rewrite Ht. }
  assert (task_done (start_processor r st2) (fresh (dom (tasks st2))) = false) as Hf.
  { unfold task_done, start_processor. simpl. by rewrite lookup_insert_eq. }
  destruct (message_processor_tasks st2 !! r) as [tid|] eqn:E.
  - destruct (task_done st2 tid) eqn:Ed.
    + eexists. split; [apply lookup_insert_eq|]. split; [done|].
      intros tid0 H0 Hd0. rewrite <- Hm, E in H0. injection H0 as <-.
      rewrite <- Hd in Hd0. congruence.
    + exists tid. split; [done|]. split; [done|].
      intros tid0 H0 _. rewrite <- Hm, E in H0. by injection H0.
  - eexists. split; [apply lookup_insert_eq|]. split; [done|].
    intros tid0 H0. rewrite <- Hm, E in H0. done.
Qed.

(** After [connect], in every reachable state, the room has a queue and a
    registered [process_messages] task that has not finished, and that task
    is the only unfinished consumer of the room.  A consumer that was
    registered and running is kept; a finished or missing one is replaced. *)
Theorem connect_ensures_consumer (evs : list Event) (websocket : nat) (room_id : Z)
    (user_id : string) :
  let st := run init evs in
  let st' := connect websocket room_id user_id st in
  ∃ q qo tid s,
    pending_messages st' !! room_id = Some q ∧ queues st' !! q = Some qo
    ∧ message_processor_tasks st' !! room_id = Some tid
    ∧ tasks st' !! tid = Some (mkTask room_id s) ∧ s ≠ TaskDone
    ∧ dom (consumers st' room_id) = {[tid]}
    ∧ (∀ tid0, message_processor_tasks st !! room_id = Some tid0 →
         task_done st tid0 = false → tid = tid0).
Proof.
  intros st st'.
  assert (wf st') as Hwf by apply connect_wf, run_wf.
  assert (is_Some (pending_messages st' !! room_id)) as [q Hq].
  { apply connect_have_queue; [apply run_have_queue|].
    unfold st'. by rewrite connect_conns, lookup_insert_eq. }
  destruct (wf_pending _ Hwf _ _ Hq) as (qo & Hqo & _).
  destruct (connect_registry websocket room_id user_id st) as (tid & Hreg & Hdone & Hkeep).
  fold st' in Hreg, Hdone.
  destruct (task_done_false _ _ Hdone) as ([r s] & Htk & Hs).
  destruct (wf_registry _ Hwf _ _ Hreg) as (tk & Htk' & Hroom).
  rewrite Htk in Htk'. injection Htk' as <-. simpl in *. subst r.
  exists q, qo, tid, s. repeat split; try done.
  apply (anti_symm (⊆)).
  - etrans; [by apply consumers_registered|]. by rewrite Hreg.
  - apply singleton_subseteq_l, elem_of_dom. exists (mkTask room_id s).
    apply map_lookup_filter_Some. split; [done|]. simpl. split; [done|].
    unfold live. simpl. by destruct s.
Qed.

Lemma consumers_unregistered st r :
  wf st → message_processor_tasks st !! r = None → consumers st r = ∅.
Proof.
  intros Hwf Hreg. apply map_empty. intros tid.
  apply map_lookup_filter_None. right. intros tk Htk [Hr Hl]. simpl in *.
  assert (task_state tk ≠ TaskDone) as Hs.
  { unfold live in Hl. by destruct (task_state tk). }
  pose proof (wf_live _ Hwf _ _ Htk Hs) as H. rewrite Hr in H. congruence.
Qed.

(** When the only user of a room disconnects, in every reachable state,
    everything the manager holds for the room is released: the connection
    dictionary, the queue (with whatever it still holds), the registered
    consumer task and the lock are removed, and no unfinished consumer task
    of the room is left.  Nothing is delivered or enqueued by the call. *)
Theorem last_disconnect_releases_room (evs : list Event) (room_id : Z) (user_id : string)
    (websocket : nat) :
  let st := run init evs in
  get_active_connections_for_room st room_id = [(user_id, websocket)] →
  let st' := disconnect room_id user_id st in
  active_connections st' !! room_id = None
  ∧ pending_messages st' !! room_id = None
  ∧ message_processor_tasks st' !! room_id = None
  ∧ (room_id ∉ room_connection_locks st')
  ∧ consumers st' room_id = ∅
  ∧ queue_of st' room_id = []
  ∧ enqueued st' = enqueued st ∧ delivered st' = delivered st.
Proof.
  intros st Hc st'.
  assert (wf st') as Hwf by apply disconnect_wf, run_wf.
  assert (active_connections st' !! room_id = None
          ∧ pending_messages st' !! room_id = None
          ∧ message_processor_tasks st' !! room_id = None
          ∧ (room_id ∉ room_connection_locks st')
          ∧ enqueued st' = enqueued st ∧ delivered st' = delivered st)
    as (H1 & H2 & H3 & H4 & H5 & H6).
  { subst st'. unfold get_active_connections_for_room in Hc. unfold disconnect. simpl.
    destruct (active_connections st !! room_id) as [c|]; [|done]. simpl in Hc. subst c.
    simpl. rewrite !decide_True by done. simpl.
    destruct (message_processor_tasks st !! room_id) as [task|] eqn:Et; simpl;
      [destruct (task_done _ task); simpl;
         [|unfold cancel; simpl; destruct (tasks st !! task); simpl]|];
      rewrite ?lookup_delete_eq, ?Et; repeat split;
      rewrite elem_of_difference, elem_of_singleton; by intros [_ []]. }
  repeat split; try done.
  - by apply consumers_unregistered.
  - unfold queue_of. by rewrite H2.
Qed.

Lemma last_disconnect_releases_room_witness :
  let st' := disconnect 1 "7" (run init [Connect 10 1 "7"; Broadcast 1 (example_msg 1) None]) in
  active_connections st' !! 1%Z = None ∧ pending_messages st' !! 1%Z = None
  ∧ consumers st' 1 = ∅.
Proof.
  destruct (last_disconnect_releases_room
              [Connect 10 1 "7"; Broadcast 1 (example_msg 1) None] 1 "7" 10)
    as (H1 & H2 & _ & _ & H5 & _).
  - vm_compute. reflexivity.
  - split; [exact H1|]. split; [exact H2|exact H5].
Defined.

(** ** One iteration of [process_messages] *)

Lemma dispatch_spec r item st :
  dispatch r item st =
    match sockets_to_send (target_user_id item) (get_active_connections_for_room st r) with
    | [] => AtLoopTop
    | socks => Sending item socks
    end.
Proof.
  unfold dispatch, get_active_connections_for_room.
  destruct (active_connections st !! r) as [[|p c]|]; simpl; try done.
  - by destruct (target_user_id item) as [[|??]|].
  - by destruct (target_user_id item) as [[|??]|].
Qed.

Lemma send_all (ok : string → bool) tid r item (order : list (string * nat)) :
  ∀ st rem,
    NoDup (dict_keys rem) → rem ≡ₚ order → rem ≠ [] →
    tasks st !! tid = Some (mkTask r (Sending item rem)) →
    let st' := run st ((λ p, SendDone tid p.1 (ok p.1)) <$> order) in
    delivered st' = delivered st ++
      ((λ p, (r, p.1, p.2, message_data item)) <$> filter (λ p, ok p.1 = true) order)
    ∧ tasks st' = <[tid := mkTask r AtLoopTop]> (tasks st)
    ∧ queues st' = queues st
    ∧ active_connections st' = active_connections st
    ∧ pending_messages st' = pending_messages st
    ∧ message_processor_tasks st' = message_processor_tasks st
    ∧ enqueued st' = enqueued st.
Proof.
  induction order as [|[u ws] order IH]; intros st rem Hnd Hp Hne Ht.
  - by apply Permutation_nil_r in Hp.
  - assert (dict_get u rem = Some ws) as Hget.
    { apply dict_get_NoDup_elem; [done|]. rewrite Hp. left. }
    pose proof (dict_del_Permutation u ws rem order Hnd Hp) as Hp'.
    set (st1 := if ok u
                then set_delivered (delivered st ++ [(r, u, ws, message_data item)]) st
                else st).
    assert (send_done tid u (ok u) st =
              set_tasks (<[tid := mkTask r match dict_del u rem with
                                           | [] => AtLoopTop
                                           | _ => Sending item (dict_del u rem)
                                           end]> (tasks st1)) st1) as Hsd.
    { unfold send_done. rewrite Ht, Hget. subst st1. by destruct (ok u). }
    assert (tasks st1 = tasks st ∧ queues st1 = queues st
            ∧ active_connections st1 = active_connections st
            ∧ pending_messages st1 = pending_messages st
            ∧ message_processor_tasks st1 = message_processor_tasks st
            ∧ enqueued st1 = enqueued st
            ∧ delivered st1 = delivered st ++
                (if ok u then [(r, u, ws, message_data item)] else []))
      as (T1 & T2 & T3 & T4 & T5 & T6 & T7).
    { subst st1. destruct (ok u); simpl; by rewrite ?app_nil_r. }
    assert ((λ p : string * nat, (r, p.1, p.2, message_data item)) <$>
              filter (λ p, ok p.1 = true) ((u, ws) :: order)
            = (if ok u then [(r, u, ws, message_data item)] else []) ++
              ((λ p : string * nat, (r, p.1, p.2, message_data item)) <$>
                 filter (λ p, ok p.1 = true) order)) as ->.
    { destruct (ok u) eqn:Eo.
      - by rewrite filter_cons_True.
      - rewrite filter_cons_False; [done|]. simpl. by rewrite Eo. }
    unfold run in *. rewrite fmap_cons. cbn [foldl step fst]. rewrite Hsd. clear Hsd.
    destruct (dict_del u rem) as [|p rem'] eqn:Ed.
    + apply Permutation_nil_l in Hp'. subst order. simpl.
      rewrite T1, T2, T3, T4, T5, T6, T7, app_nil_r. done.
    + specialize (IH (set_tasks (<[tid := mkTask r (Sending item (p :: rem'))]> (tasks st1)) st1)
                     (p :: rem')).
      destruct IH as (I1 & I2 & I3 & I4 & I5 & I6 & I7).
      * rewrite <- Ed. by apply dict_del_NoDup.
      * done.
      * done.
      * simpl. by rewrite lookup_insert_eq.
      * rewrite I1, I2, I3, I4, I5, I6, I7. simpl.
        rewrite insert_insert_eq, T1, T2, T3, T4, T5, T6, T7.
        by rewrite (assoc_L (++)).
Qed.

(** One iteration of the consumer loop.  In a reachable state the consumer
    of room [r] is about to read the queue [q] (at the top of the loop with
    [q] registered, or waiting in [get] on [q]) and [item] is the first
    element of [q].  When the task is resumed and the sends of the [gather]
    complete in any order [order], each with its own outcome [ok], the
    websockets written are exactly those of [sockets_to_send] whose send
    succeeded, the item is gone from the queue, the rest of the queue is
    untouched, and the task is back at the top of the loop: a failed send
    to one user neither stops the sends to the others nor ends the task. *)
Theorem consumer_delivers_head (evs : list Event) (tid : nat) (r : Z) (s : TaskState)
    (q : nat) (qr : Z) (item : QItem) (rest : list QItem)
    (order : list (string * nat)) (ok : string → bool) :
  let st := run init evs in
  tasks st !! tid = Some (mkTask r s) →
  (s = AtLoopTop ∧ pending_messages st !! r = Some q) ∨ s = WaitingGet q →
  queues st !! q = Some (mkQueue qr (item :: rest)) →
  order ≡ₚ sockets_to_send (target_user_id item) (get_active_connections_for_room st r) →
  let st' := run st (Resume tid :: ((λ p, SendDone tid p.1 (ok p.1)) <$> order)) in
  delivered st' = delivered st ++
    ((λ p, (r, p.1, p.2, message_data item)) <$> filter (λ p, ok p.1 = true) order)
  ∧ queues st' = <[q := mkQueue qr rest]> (queues st)
  ∧ tasks st' = <[tid := mkTask r AtLoopTop]> (tasks st)
  ∧ active_connections st' = active_connections st
  ∧ pending_messages st' = pending_messages st
  ∧ message_processor_tasks st' = message_processor_tasks st
  ∧ enqueued st' = enqueued st.
Proof.
  intros st Ht Hs Hq Hp st'.
  assert (NoDup (dict_keys (sockets_to_send (target_user_id item)
                              (get_active_connections_for_room st r)))) as Hnd.
  { apply sockets_to_send_NoDup. unfold get_active_connections_for_room.
    destruct (active_connections st !! r) as [c|] eqn:E; simpl; [|constructor].
    eapply wf_conns; [apply run_wf|done]. }
  set (st0 := set_queues (<[q := mkQueue qr rest]> (queues st)) st).
  set (st1 := set_tasks (<[tid := mkTask r (dispatch r item st0)]> (tasks st0)) st0).
  assert (resume tid st = st1) as Hr.
  { unfold resume. rewrite Ht. destruct Hs as [[-> Hpq]| ->].
    - rewrite Hpq. unfold take. by rewrite Hq.
    - unfold take. by rewrite Hq. }
  subst st'. simpl. rewrite Hr.
  assert (dispatch r item st0 = dispatch r item st) as Hd by done.
  rewrite dispatch_spec in Hd.
  destruct (sockets_to_send _ _) as [|p socks] eqn:Es.
  - apply Permutation_nil_r in Hp. subst order. simpl.
    subst st1. rewrite Hd. simpl. by rewrite app_nil_r.
  - destruct (send_all ok tid r item order st1 (p :: socks))
      as (I1 & I2 & I3 & I4 & I5 & I6 & I7); try done.
    { subst st1. rewrite Hd. simpl. by rewrite lookup_insert_eq. }
    simpl in *. rewrite I1, I2, I3, I4, I5, I6, I7.
    subst st1. simpl. by rewrite insert_insert_eq.
Qed.

Lemma consumer_delivers_head_witness :
  let st := run init [Connect 10 1 "7"; Connect 11 1 "8"; Broadcast 1 (example_msg 1) None] in
  let st' := run st [Resume 0; SendDone 0 "8" false; SendDone 0 "7" true] in
  delivered st' = [(1%Z, "7", 10, example_msg 1)]
  ∧ queues st' = <[0 := mkQueue 1 []]> (queues st).
Proof.
  intros st st'.
  destruct (consumer_delivers_head
              [Connect 10 1 "7"; Connect 11 1 "8"; Broadcast 1 (example_msg 1) None]
              0 1 AtLoopTop 0 1 (mkQItem (example_msg 1) None) []
              [("8", 11); ("7", 10)] (λ u, if decide (u = "7") then true else false))
    as (H1 & H2 & _).
  - vm_compute. reflexivity.
  - left. split; [reflexivity|]. vm_compute. reflexivity.
  - vm_compute. reflexivity.
  - vm_compute. apply perm_swap.
  - split; [exact H1|exact H2].
Defined.

(** ** Deliveries traced back to puts *)

Lemma traced_mono st st' :
  traced st →
  (∀ q qo, queues st' !! q = Some qo → queues st !! q = Some qo ∨ queue_items qo = []) →
  (∀ tid r x rem, tasks st' !! tid = Some (mkTask r (Sending x rem)) →
     tasks st !! tid = Some (mkTask r (Sending x rem))) →
  enqueued st' = enqueued st → delivered st' = delivered st →
  traced st'.
Proof.
  intros [Hq Hs Hd] Hqs Hts He Hdl. split.
  - intros q qo x Hl Hx. rewrite He. destruct (Hqs _ _ Hl) as [Ho|Hn]; [eauto|].
    rewrite Hn in Hx. by apply elem_of_nil in Hx.
  - intros tid r x rem Ht. rewrite He. eauto.
  - intros r u ws m. rewrite He, Hdl. eauto.
Qed.

Lemma new_queue_traced r st : traced st → traced (new_queue r st).
Proof.
  intros H. apply (traced_mono st); try done.
  intros q qo. simpl. rewrite lookup_insert. case_decide; [|by left].
  intros [= <-]. by right.
Qed.

Lemma start_processor_traced r st : traced st → traced (start_processor r st).
Proof.
  intros H. apply (traced_mono st); try done; [by left|].
  intros tid r' x rem. simpl. rewrite lookup_insert. by case_decide.
Qed.

Lemma cancel_traced tid st : traced st → traced (cancel tid st).
Proof.
  intros H. unfold cancel. destruct (tasks st !! tid) as [tk|] eqn:E; [|done].
  apply (traced_mono st); try done; [by left|].
  intros tid' r' x rem. simpl. rewrite lookup_insert. by case_decide.
Qed.

Lemma set_conns_traced v st : traced st → traced (set_active_connections v st).
Proof. intros H. apply (traced_mono st); try done. by left. Qed.

Lemma set_pending_traced v st : traced st → traced (set_pending_messages v st).
Proof. intros H. apply (traced_mono st); try done. by left. Qed.

Lemma set_registry_traced v st : traced st → traced (set_message_processor_tasks v st).
Proof. intros H. apply (traced_mono st); try done. by left. Qed.

Lemma set_locks_traced v st : traced st → traced (set_room_connection_locks v st).
Proof. intros H. apply (traced_mono st); try done. by left. Qed.

Lemma connect_traced ws r u st : traced st → traced (connect ws r u st).
Proof.
  intros H. unfold connect.
  set (st0 := get_room_lock r st).
  assert (traced st0) as H0 by by apply set_locks_traced.
  set (st1 := match active_connections st0 !! r with Some _ => _ | None => _ end).
  assert (traced st1) as H1.
  { subst st1. destruct (active_connections st0 !! r); [done|].
    by apply new_queue_traced, set_conns_traced. }
  set (st2 := set_active_connections _ st1).
  assert (traced st2) as H2 by by apply set_conns_traced.
  destruct (message_processor_tasks st2 !! r) as [tid|].
  - destruct (task_done st2 tid); [|done]. by apply start_processor_traced.
  - by apply start_processor_traced.
Qed.

Lemma disconnect_traced r u st : traced st → traced (disconnect r u st).
Proof.
  intros H. unfold disconnect.
  set (st0 := get_room_lock r st).
  assert (traced st0) as H0 by by apply set_locks_traced.
  destruct (active_connections st0 !! r) as [c|]; [|done].
  destruct (dict_get u c); [|done].
  destruct (dict_del u c); [|by apply set_conns_traced].
  apply set_locks_traced, set_pending_traced.
  set (st1 := set_active_connections _ st0).
  assert (traced st1) as H1 by by apply set_conns_traced.
  destruct (message_processor_tasks st1 !! r) as [task|]; [|done].
  set (st2 := set_message_processor_tasks _ st1).
  assert (traced st2) as H2 by by apply set_registry_traced.
  destruct (task_done st2 task); [done|]. by apply cancel_traced.
Qed.

Lemma callback_traced tid st : traced st → traced (handle_processor_task_completion tid st).
Proof.
  intros H. unfold handle_processor_task_completion.
  destruct (tasks st !! tid) as [[r []]|]; try done.
  case_decide; [|done]. by apply set_registry_traced.
Qed.

Lemma broadcast_traced r m tg st : wf st → traced st → traced (broadcast_to_room r m tg st).1.
Proof.
  intros Hwf H. unfold broadcast_to_room.
  set (st1 := match pending_messages st !! r with Some _ => _ | None => _ end).
  assert (wf st1 ∧ traced st1) as [Hwf1 H1].
  { subst st1. destruct (pending_messages st !! r) eqn:Hp; [done|].
    assert (wf (new_queue r st)) as Hn by (apply new_queue_wf; auto).
    assert (traced (new_queue r st)) as Hn' by by apply new_queue_traced.
    destruct (message_processor_tasks (new_queue r st) !! r) as [tk|] eqn:Hr.
    - destruct (task_done _ tk) eqn:Hd; [|done].
      split; [|by apply start_processor_traced].
      apply start_processor_wf; [done|]. intros tid. rewrite Hr. by intros [= <-].
    - split; [|by apply start_processor_traced].
      apply start_processor_wf; [done|]. intros tid. by rewrite Hr. }
  destruct (pending_messages st1 !! r) as [q|] eqn:Hpq; [|done].
  destruct (queues st1 !! q) as [qo|] eqn:Hq; [|done].
  destruct (put _ qo) as [qo'|] eqn:Hp; [|done].
  unfold put in Hp. case_decide; [|done]. injection Hp as <-.
  destruct (wf_pending _ Hwf1 _ _ Hpq) as (qo0 & Hq0 & Hroom).
  rewrite Hq in Hq0. injection Hq0 as <-.
  destruct H1 as [Tq Ts Td]. simpl. split; simpl.
  - intros q' qo' x. rewrite lookup_insert. case_decide as Hd.
    + intros [= <-]. simpl. rewrite Hroom.
      intros [Hx|Hx]%elem_of_app; apply elem_of_app.
      * left. rewrite <- Hroom. eauto.
      * right. apply list_elem_of_singleton in Hx as ->. by apply list_elem_of_singleton.
    + intros Hl Hx. apply elem_of_app. left. eauto.
  - intros tid r' x rem Ht. destruct (Ts _ _ _ _ Ht) as [He Ha].
    split; [|done]. apply elem_of_app. by left.
  - intros r' u ws m' Hd. destruct (Td _ _ _ _ Hd) as (x & He & Hm & Ha).
    exists x. split; [|done]. apply elem_of_app. by left.
Qed.

Lemma sockets_to_send_addressed item c u ws :
  (u, ws) ∈ sockets_to_send (target_user_id item) c → addressed item u.
Proof.
  unfold addressed, sockets_to_send.
  destruct (target_user_id item) as [[|a s]|]; try done.
  destruct (dict_get (String a s) c); [|by intros ?%elem_of_nil].
  intros Hx%list_elem_of_singleton. by injection Hx.
Qed.

Lemma take_traced tid r s q st st' :
  wf st → traced st → tasks st !! tid = Some (mkTask r s) →
  (s = AtLoopTop ∧ pending_messages st !! r = Some q) ∨ s = WaitingGet q →
  take tid r q st = Some st' → traced st'.
Proof.
  intros Hwf [Tq Ts Td] Ht Hs. unfold take.
  destruct (queues st !! q) as [[r' [|item rest]]|] eqn:Hq; try done.
  intros [= <-].
  assert (r' = r) as ->.
  { destruct Hs as [[-> Hp]| ->].
    - destruct (wf_pending _ Hwf _ _ Hp) as (qo & Hqo & Hr). rewrite Hq in Hqo.
      by injection Hqo as <-.
    - destruct (wf_waiting _ Hwf _ _ _ Ht) as (qo & Hqo & Hr). rewrite Hq in Hqo.
      by injection Hqo as <-. }
  split; simpl.
  - intros q' qo' x. rewrite lookup_insert. case_decide as Hd.
    + intros [= <-]. simpl. intros Hx. apply (Tq q (mkQueue r (item :: rest))); [done|].
      simpl. by right.
    + eauto.
  - intros tid' r0 x rem. rewrite lookup_insert. case_decide as Hd; [|eauto].
    intros [= <- Hdisp].
    destruct (dispatch_cases r item
                (set_queues (<[q := mkQueue r rest]> (queues st)) st))
      as [E|(c & Hc & E)]; rewrite E in Hdisp; [done|].
    injection Hdisp as <- <-. split.
    + apply (Tq q (mkQueue r (item :: rest))); [done|]. simpl. by left.
    + intros u ws. apply sockets_to_send_addressed.
  - done.
Qed.

Lemma set_task_traced tid r s st :
  traced st → (∀ x rem, s ≠ Sending x rem) →
  traced (set_tasks (<[tid := mkTask r s]> (tasks st)) st).
Proof.
  intros H Hs. apply (traced_mono st); try done; [by left|].
  intros tid' r' x rem. simpl. rewrite lookup_insert. case_decide; [|done].
  intros [= <- Hx]. by destruct (Hs x rem).
Qed.

Lemma resume_traced tid st : wf st → traced st → traced (resume tid st).
Proof.
  intros Hwf H. unfold resume.
  destruct (tasks st !! tid) as [[r s]|] eqn:Ht; [|done].
  destruct s; try done.
  - destruct (pending_messages st !! r) as [q|] eqn:Hp.
    + destruct (take tid r q st) eqn:Hk.
      * eapply take_traced; [done..| |exact Hk]. by left.
      * by apply set_task_traced.
    + by apply set_task_traced.
  - destruct (take tid r q st) eqn:Hk; [|done].
    eapply take_traced; [done..| |exact Hk]. by right.
Qed.

Lemma send_done_traced tid u ok st : wf st → traced st → traced (send_done tid u ok st).
Proof.
  intros Hwf [Tq Ts Td]. unfold send_done.
  destruct (tasks st !! tid) as [[r s]|] eqn:Ht; [|done].
  destruct s; try done.
  destruct (dict_get u rem) as [ws|] eqn:Hu; [|done].
  destruct (Ts _ _ _ _ Ht) as [He Ha].
  pose proof (wf_sending _ Hwf _ _ _ _ Ht) as Hnd.
  set (st1 := if ok then set_delivered _ st else st).
  assert (traced st1) as [Tq1 Ts1 Td1].
  { subst st1. destruct ok; [|done]. split; simpl; try done.
    intros r' u' ws' m [Hd|Hd]%elem_of_app; [eauto|].
    apply list_elem_of_singleton in Hd. injection Hd as -> -> -> ->.
    exists item. split; [done|]. split; [done|].
    eapply Ha. by apply dict_get_elem. }
  assert (tasks st1 = tasks st ∧ enqueued st1 = enqueued st) as [Et Ee].
  { subst st1. by destruct ok. }
  split; simpl.
  - done.
  - intros tid' r' x rem'. rewrite lookup_insert. case_decide as Hd.
    + destruct (dict_del u rem) as [|p l] eqn:Ed; [done|].
      intros [= <- <- <-]. rewrite Ee. split; [done|].
      intros u' ws' Hin. rewrite <- Ed in Hin.
      apply dict_del_elem in Hin as [Hin _]; [|done]. eauto.
    + rewrite Et, Ee. eauto.
  - done.
Qed.

Lemma step_traced st e : wf st → traced st → traced (step st e).
Proof.
  intros Hwf H. destruct e; simpl.
  - by apply connect_traced.
  - by apply disconnect_traced.
  - by apply broadcast_traced.
  - by apply resume_traced.
  - by apply send_done_traced.
  - by apply callback_traced.
Qed.

Lemma run_traced evs : traced (run init evs).
Proof.
  induction evs as [|e evs IH] using rev_ind.
  - split; simpl.
    + intros ???. by rewrite lookup_empty.
    + intros ????. by rewrite lookup_empty.
    + by intros ???? ?%elem_of_nil.
  - unfold run. rewrite foldl_app. simpl. apply step_traced; [apply run_wf|done].
Qed.

(** Every message a websocket has been sent was put for that very room by
    [broadcast_to_room], and the put was either untargeted or targeted at
    the user the websocket is stored under: a targeted message never
    reaches another user, and no room sees the messages of another room. *)
Theorem delivery_respects_target (evs : list Event) (room_id : Z) (user_id : string)
    (websocket : nat) (message : Msg) :
  let st := run init evs in
  (room_id, user_id, websocket, message) ∈ delivered st →
  ∃ item, (room_id, item) ∈ enqueued st ∧ message_data item = message
        ∧ addressed item user_id.
Proof. intros st. apply (traced_delivered _ (run_traced evs)). Qed.

Lemma delivery_respects_target_witness :
  ∃ item, (1%Z, item) ∈ enqueued (run init example_run)
        ∧ message_data item = example_msg 2 ∧ addressed item "8".
Proof.
  apply (delivery_respects_target example_run 1 "8" 11 (example_msg 2)).
  vm_compute. do 2 apply list_elem_of_further. apply list_elem_of_here.
Defined.

(** ** Rooms do not interfere *)

Lemma same_room_refl r st : same_room r st st.
Proof. by split. Qed.

Lemma same_room_trans r st1 st2 st3 :
  same_room r st1 st2 → same_room r st2 st3 → same_room r st1 st3.
Proof.
  intros [A1 A2 A3 A4 A5 A6 A7 A8] [B1 B2 B3 B4 B5 B6 B7 B8]. split.
  - by rewrite B1. - by rewrite B2. - by rewrite B3. - by rewrite B4.
  - by rewrite B5. - by rewrite B6. - intros u ws. by rewrite B7. - by rewrite B8.
Qed.

Lemma omap_other_room (r : Z) (l : list (Z * QItem)) :
  Forall (λ p, p.1 ≠ r) l →
  omap (λ p, if decide (p.1 = r) then Some p.2 else None) l = [].
Proof.
  induction 1 as [|[r' x] l Hx _ IH]; [done|]. simpl in *.
  rewrite decide_False by done. exact IH.
Qed.

Lemma omap_other_delivery (r : Z) (u : string) (ws : nat) (l : list (Z * string * nat * Msg)) :
  Forall (λ d, d.1.1.1 ≠ r) l →
  omap (λ d, match d with
             | (r', u', ws', m) =>
                 if decide (r' = r ∧ u' = u ∧ ws' = ws) then Some m else None
             end) l = [].
Proof.
  induction 1 as [|[[[r' u'] ws'] m] l Hx _ IH]; [done|]. simpl in *.
  rewrite decide_False by (by intros [? _]). exact IH.
Qed.

Lemma same_room_intro r st st' :
  active_connections st' !! r = active_connections st !! r →
  pending_messages st' !! r = pending_messages st !! r →
  message_processor_tasks st' !! r = message_processor_tasks st !! r →
  (r ∈ room_connection_locks st' ↔ r ∈ room_connection_locks st) →
  (∀ q, pending_messages st !! r = Some q → queues st' !! q = queues st !! q) →
  (∃ l, enqueued st' = enqueued st ++ l ∧ Forall (λ p, p.1 ≠ r) l) →
  (∃ l, delivered st' = delivered st ++ l ∧ Forall (λ d, d.1.1.1 ≠ r) l) →
  (∀ tid, tasks st' !! tid = tasks st !! tid ∨
          ((∀ tk, tasks st !! tid = Some tk → task_room tk ≠ r) ∧
           (∀ tk, tasks st' !! tid = Some tk → task_room tk ≠ r))) →
  same_room r st st'.
Proof.
  intros H1 H2 H3 H4 H5 (le & He & Hle) (ld & Hd & Hld) H8. split; try done.
  - unfold queue_of. rewrite H2. destruct (pending_messages st !! r) as [q|] eqn:E; [|done].
    by rewrite H5.
  - unfold enqueued_in. rewrite He, omap_app.
    rewrite (omap_other_room r le) by done. by rewrite app_nil_r.
  - intros u ws. unfold received. rewrite Hd, omap_app.
    rewrite (omap_other_delivery r u ws ld) by done. by rewrite app_nil_r.
  - apply map_eq. intros tid. apply option_eq. intros tk.
    unfold consumers. rewrite !map_lookup_filter_Some. simpl.
    destruct (H8 tid) as [->|[Ho Hn]]; [done|].
    split; intros [Ht [Hr _]]; exfalso; [by eapply Hn|by eapply Ho].
Qed.

Lemma same_room_conns r r0 c st :
  r0 ≠ r → same_room r st (set_active_connections (<[r0 := c]> (active_connections st)) st).
Proof.
  intros Hne. apply same_room_intro; simpl; try done.
  - by rewrite lookup_insert_ne.
  - exists []. by rewrite app_nil_r.
  - exists []. by rewrite app_nil_r.
  - by left.
Qed.

Lemma same_room_del_conns r r0 st :
  r0 ≠ r → same_room r st (set_active_connections (delete r0 (active_connections st)) st).
Proof.
  intros Hne. apply same_room_intro; simpl; try done.
  - by rewrite lookup_delete_ne.
  - exists []. by rewrite app_nil_r.
  - exists []. by rewrite app_nil_r.
  - by left.
Qed.

Lemma same_room_del_pending r r0 st :
  r0 ≠ r → same_room r st (set_pending_messages (delete r0 (pending_messages st)) st).
Proof.
  intros Hne. apply same_room_intro; simpl; try done.
  - by rewrite lookup_delete_ne.
  - exists []. by rewrite app_nil_r.
  - exists []. by rewrite app_nil_r.
  - by left.
Qed.

Lemma same_room_del_registry r r0 st :
  r0 ≠ r →
  same_room r st (set_message_processor_tasks (delete r0 (message_processor_tasks st)) st).
Proof.
  intros Hne. apply same_room_intro; simpl; try done.
  - by rewrite lookup_delete_ne.
  - exists []. by rewrite app_nil_r.
  - exists []. by rewrite app_nil_r.
  - by left.
Qed.

Lemma same_room_lock r r0 st : r0 ≠ r → same_room r st (get_room_lock r0 st).
Proof.
  intros Hne. apply same_room_intro; simpl; try done.
  - rewrite elem_of_union, elem_of_singleton. split; [by intros [->|?]|by right].
  - exists []. by rewrite app_nil_r.
  - exists []. by rewrite app_nil_r.
  - by left.
Qed.

Lemma same_room_unlock r r0 st :
  r0 ≠ r →
  same_room r st (set_room_connection_locks (room_connection_locks st ∖ {[r0]}) st).
Proof.
  intros Hne. apply same_room_intro; simpl; try done.
  - rewrite elem_of_difference, elem_of_singleton.
    split; [by intros [? _]|]. intros Hin. split; [done|]. by intros ->.
  - exists []. by rewrite app_nil_r.
  - exists []. by rewrite app_nil_r.
  - by left.
Qed.

Lemma same_room_new_queue r r0 st :
  r0 ≠ r → (∀ q, pending_messages st !! r = Some q → is_Some (queues st !! q)) →
  same_room r st (new_queue r0 st).
Proof.
  intros Hne Hq. apply same_room_intro; simpl; try done.
  - by rewrite lookup_insert_ne.
  - intros q Hp. rewrite lookup_insert_ne; [done|].
    intros <-. destruct (Hq _ Hp) as [qo Hqo].
    pose proof (fresh_queue_None st). congruence.
  - exists []. by rewrite app_nil_r.
  - exists []. by rewrite app_nil_r.
  - by left.
Qed.

Lemma same_room_start_processor r r0 st : r0 ≠ r → same_room r st (start_processor r0 st).
Proof.
  intros Hne. apply same_room_intro; simpl; try done.
  - by rewrite lookup_insert_ne.
  - exists []. by rewrite app_nil_r.
  - exists []. by rewrite app_nil_r.
  - intros tid. rewrite lookup_insert. case_decide as Hd; [|by left].
    right. subst tid. rewrite fresh_task_None. split; [done|].
    by intros tk [= <-].
Qed.

Lemma same_room_set_task r r0 tid s s' st :
  r0 ≠ r → tasks st !! tid = Some (mkTask r0 s) →
  same_room r st (set_tasks (<[tid := mkTask r0 s']> (tasks st)) st).
Proof.
  intros Hne Ht. apply same_room_intro; simpl; try done.
  - exists []. by rewrite app_nil_r.
  - exists []. by rewrite app_nil_r.
  - intros tid'. rewrite lookup_insert. case_decide as Hd; [|by left].
    right. subst tid'. rewrite Ht. split; by intros tk [= <-].
Qed.

Lemma same_room_cancel r r0 tid s st :
  r0 ≠ r → tasks st !! tid = Some (mkTask r0 s) → same_room r st (cancel tid st).
Proof.
  intros Hne Ht. unfold cancel. rewrite Ht. simpl. by eapply same_room_set_task.
Qed.

Lemma same_room_set_queue r q qo st :
  pending_messages st !! r ≠ Some q →
  same_room r st (set_queues (<[q := qo]> (queues st)) st).
Proof.
  intros Hne. apply same_room_intro; simpl; try done.
  - intros q' Hp. rewrite lookup_insert_ne; [done|]. congruence.
  - exists []. by rewrite app_nil_r.
  - exists []. by rewrite app_nil_r.
  - by left.
Qed.

Lemma same_room_enqueue r r0 x st :
  r0 ≠ r → same_room r st (set_enqueued (enqueued st ++ [(r0, x)]) st).
Proof.
  intros Hne. apply same_room_intro; simpl; try done.
  - exists [(r0, x)]. split; [done|]. by repeat constructor.
  - exists []. by rewrite app_nil_r.
  - by left.
Qed.

Lemma same_room_deliver r r0 u ws m st :
  r0 ≠ r → same_room r st (set_delivered (delivered st ++ [(r0, u, ws, m)]) st).
Proof.
  intros Hne. apply same_room_intro; simpl; try done.
  - exists []. by rewrite app_nil_r.
  - exists [(r0, u, ws, m)]. split; [done|]. by repeat constructor.
  - by left.
Qed.

Lemma wf_queue_apart st r r0 q :
  wf st → r0 ≠ r →
  (∃ qo, queues st !! q = Some qo ∧ queue_room qo = r0) →
  pending_messages st !! r ≠ Some q.
Proof.
  intros Hwf Hne (qo & Hq & Hr) Hp.
  destruct (wf_pending _ Hwf _ _ Hp) as (qo' & Hq' & Hr').
  rewrite Hq in Hq'. injection Hq' as <-. congruence.
Qed.

Lemma connect_same_room r ws r0 u st :
  wf st → r0 ≠ r → same_room r st (connect ws r0 u st).
Proof.
  intros Hwf Hne. unfold connect.
  set (st0 := get_room_lock r0 st).
  assert (same_room r st st0) as H0 by by apply same_room_lock.
  set (st1 := match active_connections st0 !! r0 with Some _ => _ | None => _ end).
  assert (same_room r st st1) as H1.
  { subst st1. destruct (active_connections st0 !! r0); [done|].
    eapply same_room_trans; [exact H0|].
    eapply same_room_trans; [by apply same_room_conns|].
    apply same_room_new_queue; [done|]. simpl. intros q Hp.
    destruct (wf_pending _ Hwf _ _ Hp) as (qo & Hq & _). by exists qo. }
  set (st2 := set_active_connections _ st1).
  assert (same_room r st st2) as H2.
  { eapply same_room_trans; [exact H1|]. by apply same_room_conns. }
  destruct (message_processor_tasks st2 !! r0) as [tid|].
  - destruct (task_done st2 tid); [|done].
    eapply same_room_trans; [exact H2|]. by apply same_room_start_processor.
  - eapply same_room_trans; [exact H2|]. by apply same_room_start_processor.
Qed.

Lemma disconnect_same_room r r0 u st :
  wf st → r0 ≠ r → same_room r st (disconnect r0 u st).
Proof.
  intros Hwf Hne. unfold disconnect.
  set (st0 := get_room_lock r0 st).
  assert (same_room r st st0) as H0 by by apply same_room_lock.
  destruct (active_connections st0 !! r0) as [c|]; [|done].
  destruct (dict_get u c); [|done].
  destruct (dict_del u c).
  - set (st1 := set_active_connections _ st0).
    assert (same_room r st st1) as H1.
    { eapply same_room_trans; [exact H0|]. by apply same_room_del_conns. }
    set (st3 := match message_processor_tasks st1 !! r0 with Some _ => _ | None => _ end).
    assert (same_room r st st3) as H3.
    { subst st3. destruct (message_processor_tasks st1 !! r0) as [task|] eqn:Et; [|done].
      set (st2 := set_message_processor_tasks _ st1).
      assert (same_room r st st2) as H2.
      { eapply same_room_trans; [exact H1|]. by apply same_room_del_registry. }
      destruct (task_done st2 task); [done|].
      eapply same_room_trans; [exact H2|].
      destruct (wf_registry _ Hwf r0 task Et) as ([r' s] & Htk & Hr). simpl in Hr. subst r'.
      by eapply same_room_cancel. }
    eapply same_room_trans; [exact H3|].
    eapply same_room_trans; [by apply same_room_del_pending|].
    by apply same_room_unlock.
  - eapply same_room_trans; [exact H0|]. by apply same_room_conns.
Qed.

Lemma broadcast_same_room r r0 m tg st :
  wf st → r0 ≠ r → same_room r st (broadcast_to_room r0 m tg st).1.
Proof.
  intros Hwf Hne. unfold broadcast_to_room.
  set (st1 := match pending_messages st !! r0 with Some _ => _ | None => _ end).
  assert (wf st1 ∧ same_room r st st1) as [Hwf1 H1].
  { subst st1. destruct (pending_messages st !! r0) eqn:Hp; [done|].
    assert (wf (new_queue r0 st)) as Hn by (apply new_queue_wf; auto).
    assert (same_room r st (new_queue r0 st)) as Hn'.
    { apply same_room_new_queue; [done|]. intros q Hq.
      destruct (wf_pending _ Hwf _ _ Hq) as (qo & Hqo & _). by exists qo. }
    destruct (message_processor_tasks (new_queue r0 st) !! r0) as [tk|] eqn:Hr.
    - destruct (task_done _ tk) eqn:Hd; [|done]. split.
      + apply start_processor_wf; [done|]. intros tid. rewrite Hr. by intros [= <-].
      + eapply same_room_trans; [exact Hn'|]. by apply same_room_start_processor.
    - split.
      + apply start_processor_wf; [done|]. intros tid. by rewrite Hr.
      + eapply same_room_trans; [exact Hn'|]. by apply same_room_start_processor. }
  destruct (pending_messages st1 !! r0) as [q|] eqn:Hpq; [|done].
  destruct (queues st1 !! q) as [qo|] eqn:Hq; [|done].
  destruct (put _ qo) as [qo'|] eqn:Hp; [|done].
  simpl. eapply same_room_trans; [exact H1|].
  eapply same_room_trans;
    [|by apply (same_room_enqueue r r0 _ (set_queues (<[q := qo']> (queues st1)) st1))].
  apply same_room_set_queue. apply (wf_queue_apart _ _ r0); [done..|].
  by apply (wf_pending _ Hwf1).
Qed.

Lemma take_same_room r tid r0 s q st st' :
  wf st → r0 ≠ r → tasks st !! tid = Some (mkTask r0 s) →
  (s = AtLoopTop ∧ pending_messages st !! r0 = Some q) ∨ s = WaitingGet q →
  take tid r0 q st = Some st' → same_room r st st'.
Proof.
  intros Hwf Hne Ht Hs. unfold take.
  destruct (queues st !! q) as [[r' [|item rest]]|] eqn:Hq; try done.
  intros [= <-].
  eapply same_room_trans;
    [|by eapply (same_room_set_task r r0 tid s _
                   (set_queues (<[q := mkQueue r' rest]> (queues st)) st))].
  apply same_room_set_queue. apply (wf_queue_apart _ _ r0); [done..|].
  destruct Hs as [[-> Hp]| ->].
  - by apply (wf_pending _ Hwf).
  - by apply (wf_waiting _ Hwf tid).
Qed.

Lemma resume_same_room r tid st :
  wf st → task_room <$> tasks st !! tid ≠ Some r → same_room r st (resume tid st).
Proof.
  intros Hwf Hne. unfold resume.
  destruct (tasks st !! tid) as [[r0 s]|] eqn:Ht; [|apply same_room_refl].
  assert (r0 ≠ r) as Hr by (intros ->; by apply Hne).
  destruct s; try apply same_room_refl.
  - destruct (pending_messages st !! r0) as [q|] eqn:Hp.
    + destruct (take tid r0 q st) eqn:Hk.
      * eapply take_same_room; [done..| |exact Hk]. by left.
      * by eapply same_room_set_task.
    + by eapply same_room_set_task.
  - destruct (take tid r0 q st) eqn:Hk; [|apply same_room_refl].
    eapply take_same_room; [done..| |exact Hk]. by right.
Qed.

Lemma send_done_same_room r tid u ok st :
  task_room <$> tasks st !! tid ≠ Some r → same_room r st (send_done tid u ok st).
Proof.
  intros Hne. unfold send_done.
  destruct (tasks st !! tid) as [[r0 s]|] eqn:Ht; [|apply same_room_refl].
  assert (r0 ≠ r) as Hr by (intros ->; by apply Hne).
  destruct s; try apply same_room_refl.
  destruct (dict_get u rem) as [ws|]; [|apply same_room_refl].
  destruct ok.
  - eapply same_room_trans; [by apply same_room_deliver|].
    by eapply same_room_set_task.
  - by eapply same_room_set_task.
Qed.

Lemma callback_same_room r tid st :
  task_room <$> tasks st !! tid ≠ Some r →
  same_room r st (handle_processor_task_completion tid st).
Proof.
  intros Hne. unfold handle_processor_task_completion.
  destruct (tasks st !! tid) as [[r0 s]|] eqn:Ht; [|apply same_room_refl].
  assert (r0 ≠ r) as Hr by (intros ->; by apply Hne).
  destruct s; try apply same_room_refl.
  case_decide; [|apply same_room_refl]. by apply same_room_del_registry.
Qed.

(** Rooms are isolated from each other.  In a reachable state, a call for
    one room ([connect], [disconnect], [broadcast_to_room]) and a step of a
    consumer task or a done-callback of one room leave everything the
    manager holds for any other room as it was: its connections, queue and
    queue contents, registered task, lock, consumer tasks and what its
    connections have been sent. *)
Theorem rooms_do_not_interfere (evs : list Event) (e : Event) (room_id : Z) :
  let st := run init evs in
  event_room st e ≠ Some room_id →
  same_room room_id st (step st e).
Proof.
  intros st Hne. assert (wf st) as Hwf by apply run_wf.
  destruct e; simpl in *.
  - apply connect_same_room; [done|]. by intros ->.
  - apply disconnect_same_room; [done|]. by intros ->.
  - apply broadcast_same_room; [done|]. by intros ->.
  - by apply resume_same_room.
  - by apply send_done_same_room.
  - by apply callback_same_room.
Qed.

Lemma rooms_do_not_interfere_witness :
  same_room 1 (run init example_run) (step (run init example_run) (Disconnect 2 "7")).
Proof.
  apply (rooms_do_not_interfere example_run (Disconnect 2 "7") 1).
  simpl. discriminate.
Defined.

End ConnectionManagerProofs.

(** ** The session manager *)

Module SessionManagerProofs.
Import SessionManager.

#[local] Arguments cancel : simpl never.
#[local] Arguments replace_timer : simpl never.
#[local] Arguments clear_room_session_data : simpl never.

Ltac unfold_m :=
  unfold mbind, M_bind, mret, M_ret, get, modify, try_except, raise in *.

(** *** Invariance rules *)

Section rules.
Context (I : World → Prop).

Lemma preserves_ret {A} (a : A) : preserves I (mret a).
Proof. by intros w. Qed.

Lemma preserves_raise {A} e : preserves I (@raise A e).
Proof. by intros w. Qed.

Lemma preserves_get : preserves I get.
Proof. by intros w. Qed.

Lemma preserves_modify f : (∀ w, I w → I (f w)) → preserves I (modify f).
Proof. intros H w. apply H. Qed.

Lemma preserves_bind {A B} (m : M A) (f : A → M B) :
  preserves I m → (∀ a, preserves I (f a)) → preserves I (m ≫= f).
Proof.
  intros Hm Hf w Hw. unfold_m. specialize (Hm w Hw).
  destruct (m w) as [[a|e] w']; simpl in *; [by apply Hf|done].
Qed.

Lemma preserves_try {A} (m : M A) h :
  preserves I m → (∀ e, preserves I (h e)) → preserves I (try_except m h).
Proof.
  intros Hm Hh w Hw. unfold_m. specialize (Hm w Hw).
  destruct (m w) as [[a|e] w']; simpl in *; [done|by apply Hh].
Qed.
End rules.

Ltac pres_step :=
  match goal with
  | |- preserves _ (mbind _ _) => apply preserves_bind; [|intros ?]
  | |- preserves _ (mret _) => apply preserves_ret
  | |- preserves _ (raise _) => apply preserves_raise
  | |- preserves _ get => apply preserves_get
  | |- preserves _ (try_except _ _) => apply preserves_try; [|intros ?]
  | |- preserves _ (match ?x with _ => _ end) => destruct x
  | |- preserves _ (let _ := _ in _) => cbv zeta
  end.

(** *** Timer tasks *)

Create HintDb timers.

Lemma cancel_lookup tid tid' w :
  timers (cancel tid w) !! tid' =
  if decide (tid = tid')
  then (λ tk, mkTimer (timer_room tk) (target_session_id tk) false) <$> timers w !! tid'
  else timers w !! tid'.
Proof.
  unfold cancel. destruct (timers w !! tid) as [tk|] eqn:E; simpl.
  - rewrite lookup_insert. case_decide; subst; [by rewrite E|done].
  - case_decide; subst; [by rewrite E|done].
Qed.

Lemma cancel_session_tasks tid w : session_tasks (cancel tid w) = session_tasks w.
Proof. unfold cancel. by destruct (timers w !! tid). Qed.

Lemma fresh_timer_None w : timers w !! fresh (dom (timers w)) = None.
Proof. apply not_elem_of_dom, is_fresh. Qed.

Lemma timers_ok_ext w w' :
  timers w' = timers w → session_tasks w' = session_tasks w → timers_ok w → timers_ok w'.
Proof. intros Et Es [H1 H2]. split; rewrite Et, Es; done. Qed.

Lemma cancel_timers_ok tid w : timers_ok w → timers_ok (cancel tid w).
Proof.
  intros [H1 H2]. split.
  - intros tid' tk'. rewrite cancel_lookup, cancel_session_tasks. case_decide; [|eauto].
    destruct (timers w !! tid'); simpl; [by intros [= <-]|done].
  - intros r tid' Hr. rewrite cancel_session_tasks in Hr. rewrite cancel_lookup.
    destruct (H2 _ _ Hr) as (tk & -> & Hroom). case_decide; simpl; eauto.
Qed.

Lemma replace_timer_spec room target w :
  timers_ok w →
  let w' := replace_timer room target w in
  let tid := fresh (dom (timers w)) in
  session_tasks w' = <[room := tid]> (session_tasks w)
  ∧ timers w !! tid = None
  ∧ timers w' !! tid = Some (mkTimer room target true)
  ∧ (∀ tid' tk, timers w' !! tid' = Some tk → tid' ≠ tid →
       ∃ tk0, timers w !! tid' = Some tk0 ∧ timer_room tk0 = timer_room tk ∧
              target_session_id tk0 = target_session_id tk ∧
              (if decide (timer_room tk = room) then timer_live tk = false
               else timer_live tk = timer_live tk0))
  ∧ (∀ tid' tk0, timers w !! tid' = Some tk0 → is_Some (timers w' !! tid')).
Proof.
  intros [H1 H2]. unfold replace_timer. simpl.
  set (w1 := match session_tasks w !! room with Some old => cancel old w | None => w end).
  assert (dom (timers w1) = dom (timers w)) as Hdom.
  { subst w1. destruct (session_tasks w !! room) as [old|]; [|done].
    apply set_eq. intros x. rewrite !elem_of_dom, cancel_lookup.
    case_decide; [|done]. by rewrite fmap_is_Some. }
  assert (session_tasks w1 = session_tasks w) as Hst.
  { subst w1. destruct (session_tasks w !! room); [apply cancel_session_tasks|done]. }
  rewrite Hdom, Hst. pose proof (fresh_timer_None w) as Hf.
  split; [done|]. split; [done|]. split; [by rewrite lookup_insert_eq|]. split.
  - intros tid' tk Ht Hne. rewrite lookup_insert_ne in Ht by done.
    subst w1. destruct (session_tasks w !! room) as [old|] eqn:Eo.
    + rewrite cancel_lookup in Ht. case_decide; subst.
      * destruct (timers w !! tid') as [tk0|] eqn:E0; simplify_eq/=.
        exists tk0. repeat split; try done.
        destruct (H2 _ _ Eo) as (tk1 & Ht1 & Hr1). rewrite E0 in Ht1.
        injection Ht1 as <-. by rewrite decide_True.
      * exists tk. repeat split; try done. case_decide as Hr; [|done].
        destruct (timer_live tk) eqn:Hl; [|done].
        pose proof (H1 _ _ Ht Hl) as Hreg. congruence.
    + exists tk. repeat split; try done. case_decide as Hr; [|done].
      destruct (timer_live tk) eqn:Hl; [|done].
      pose proof (H1 _ _ Ht Hl) as Hreg. congruence.
  - intros tid' tk0 Ht. rewrite lookup_insert_ne by congruence.
    apply elem_of_dom. rewrite Hdom. apply elem_of_dom. eauto.
Qed.

Lemma replace_timer_ok room target w : timers_ok w → timers_ok (replace_timer room target w).
Proof.
  intros Hok. destruct (replace_timer_spec room target w Hok) as (Hs & Hf & Hn & Ho & _).
  destruct Hok as [H1 H2]. split.
  - intros tid tk Ht Hl. rewrite Hs.
    destruct (decide (tid = fresh (dom (timers w)))) as [->|Hne].
    + rewrite Hn in Ht. injection Ht as <-. simpl. by rewrite lookup_insert_eq.
    + destruct (Ho _ _ Ht Hne) as (tk0 & Ht0 & Hr & _ & Hlive).
      case_decide as Hd; [congruence|].
      rewrite lookup_insert_ne by done. rewrite <- Hr. apply H1; [done|congruence].
  - intros r tid. rewrite Hs, lookup_insert. case_decide; subst.
    + intros [= <-]. rewrite Hn. eauto.
    + intros Hr. destruct (H2 _ _ Hr) as (tk0 & Ht0 & Hr0).
      assert (tid ≠ fresh (dom (timers w))) as Hne by congruence.
      destruct (replace_timer_spec room target w (mk_timers_ok _ H1 H2))
        as (_ & _ & _ & Ho' & Hex).
      destruct (Hex _ _ Ht0) as [tk Htk]. exists tk. split; [done|].
      destruct (Ho' _ _ Htk Hne) as (tk1 & Ht1 & Hr1 & _). congruence.
Qed.

Lemma clear_timers_ok room w : timers_ok w → timers_ok (clear_room_session_data room w).
Proof.
  intros [H1 H2]. unfold clear_room_session_data. simpl.
  destruct (session_tasks w !! room) as [task|] eqn:Et.
  - split; simpl.
    + intros tid tk. rewrite cancel_lookup. simpl. case_decide; subst.
      * destruct (timers w !! tid); simpl; [by intros [= <-]|done].
      * intros Ht Hl. pose proof (H1 _ _ Ht Hl) as Hreg.
        rewrite lookup_delete_ne; [done|]. congruence.
    + intros r tid. rewrite lookup_delete. case_decide; [done|].
      intros Hr. rewrite cancel_lookup. simpl.
      destruct (H2 _ _ Hr) as (tk & Htk & Hroom). rewrite Htk.
      case_decide; simpl; eauto.
  - split; simpl; [|done]. intros tid tk Ht Hl. eauto.
Qed.

Section timers.
Variable py_int : string → option Z.
Variable minutes : Z.

Lemma modify_timers_ok f :
  (∀ w, timers (f w) = timers w) → (∀ w, session_tasks (f w) = session_tasks w) →
  preserves timers_ok (modify f).
Proof. intros Ht Hs. apply preserves_modify. intros w. by apply timers_ok_ext. Qed.

Lemma db_await_timers_ok : preserves timers_ok db_await.
Proof.
  intros w Hw. unfold db_await. destruct (db_faults w) as [|[] ?]; simpl; try done;
    by apply (timers_ok_ext w).
Qed.

Ltac pres :=
  repeat (first [ pres_step
                | by auto with timers
                | by (apply preserves_modify; auto using replace_timer_ok, clear_timers_ok,
                                                     cancel_timers_ok)
                | by (apply modify_timers_ok; intros; simpl) ]).

Hint Resolve db_await_timers_ok : timers.

Lemma db_get_timers_ok sid : preserves timers_ok (db_get sid).
Proof. unfold db_get. pres. Qed.
Lemma db_commit_insert_timers_ok s : preserves timers_ok (db_commit_insert s).
Proof. unfold db_commit_insert. pres. Qed.
Lemma db_commit_update_timers_ok s : preserves timers_ok (db_commit_update s).
Proof. unfold db_commit_update. pres. Qed.
Lemma db_refresh_timers_ok s : preserves timers_ok (db_refresh s).
Proof. unfold db_refresh. pres. Qed.
Lemma broadcaster_timers_ok r m tg : preserves timers_ok (broadcaster r m tg).
Proof. unfold broadcaster. pres. Qed.
Lemma provider_timers_ok r : preserves timers_ok (active_connections_provider r).
Proof. unfold active_connections_provider. pres. Qed.
Lemma int_timers_ok s : preserves timers_ok (int py_int s).
Proof. unfold int. pres. Qed.
Hint Resolve db_get_timers_ok db_commit_insert_timers_ok db_commit_update_timers_ok
  db_refresh_timers_ok broadcaster_timers_ok provider_timers_ok int_timers_ok : timers.

Lemma start_timers_ok room a b now :
  preserves timers_ok (start_new_initial_session minutes room a b now).
Proof. unfold start_new_initial_session, db_rollback. pres. Qed.

Lemma transition_timers_ok room s now :
  preserves timers_ok (_transition_to_emotion_topic py_int room s now).
Proof. unfold _transition_to_emotion_topic. pres. Qed.

Lemma end_chat_timers_ok room s now :
  preserves timers_ok (_end_chat_after_emotion_extension room s now).
Proof. unfold _end_chat_after_emotion_extension. pres. Qed.
Hint Resolve start_timers_ok transition_timers_ok end_chat_timers_ok : timers.

Lemma check_timers_ok room target now :
  preserves timers_ok (_check_session_timeout py_int minutes room target now).
Proof. unfold _check_session_timeout. pres. Qed.
Hint Resolve check_timers_ok : timers.

Lemma timer_step_timers_ok tid now : preserves timers_ok (timer_step py_int minutes tid now).
Proof. unfold timer_step. pres. Qed.

Lemma add_response_timers_ok room u r now :
  preserves timers_ok (add_session_response py_int minutes room u r now).
Proof. unfold add_session_response, db_rollback. pres. Qed.

Lemma end_session_timers_ok room now : preserves timers_ok (end_session_for_room room now).
Proof. unfold end_session_for_room, db_rollback. pres. Qed.
Hint Resolve timer_step_timers_ok add_response_timers_ok end_session_timers_ok : timers.

Lemma cleanup_timers_ok room u now : preserves timers_ok (endpoint_cleanup room u now).
Proof. unfold endpoint_cleanup, disconnect, get_current_session. pres. Qed.
Hint Resolve cleanup_timers_ok : timers.

Lemma open_timers_ok ws room u found now :
  preserves timers_ok (endpoint_open py_int minutes ws room u found now).
Proof. unfold endpoint_open, connect, disconnect, get_current_session. pres. Qed.

Lemma response_timers_ok room u yes now :
  preserves timers_ok (endpoint_response py_int minutes room u yes now).
Proof. unfold endpoint_response, get_current_session. pres. Qed.
Hint Resolve open_timers_ok response_timers_ok : timers.

Lemma handler_timers_ok e : preserves timers_ok (handler py_int minutes e).
Proof. destruct e; simpl; unfold connect, disconnect; pres. Qed.

Lemma run_timers_ok evs w : timers_ok w → timers_ok (run py_int minutes w evs).
Proof.
  revert w. induction evs as [|e evs IH]; intros w Hw; simpl; [done|].
  apply IH. by apply handler_timers_ok.
Qed.

Lemma init_timers_ok faults : timers_ok (init faults).
Proof. split; simpl; intros *; by rewrite lookup_empty. Qed.

Lemma live_timers_registered w r :
  timers_ok w →
  dom (live_timers w r) ⊆ match session_tasks w !! r with Some tid => {[tid]} | None => ∅ end.
Proof.
  intros [H1 _] tid [tk Htk]%elem_of_dom.
  apply map_lookup_filter_Some in Htk as [Htk [Hr Hl]]. simpl in *.
  pose proof (H1 _ _ Htk Hl) as Hreg. rewrite Hr in Hreg.
  rewrite Hreg. by apply elem_of_singleton.
Qed.

Lemma live_timers_size w r : timers_ok w → size (live_timers w r) ≤ 1.
Proof.
  intros Hok. rewrite <- size_dom.
  etrans; [apply subseteq_size, live_timers_registered, Hok|].
  destruct (session_tasks w !! r).
  - rewrite size_singleton. lia.
  - rewrite size_empty. lia.
Qed.

(** C5. One live timer per room.  In every run, for any outcome of the
    database calls, a room has at most one timer task that is neither
    finished nor cancelled.  The two statements that arm a timer (in
    session start, extension and topic advance) cancel the task registered
    for the room before they create the new one: afterwards the task that
    was registered is not live, the new task is a different object, it is
    live, it is the registered one and it is the only live task of the
    room. *)
Theorem one_live_timer_per_room (faults : list bool) (evs : list Event)
    (room target : Z) :
  let w := run py_int minutes (init faults) evs in
  let w' := replace_timer room target w in
  size (live_timers w room) ≤ 1
  ∧ match session_tasks w !! room with
    | Some old => session_tasks w' !! room ≠ Some old ∧
                  timer_live <$> timers w' !! old = Some false
    | None => True
    end
  ∧ (∃ tid, session_tasks w' !! room = Some tid ∧ timers w !! tid = None ∧
            timers w' !! tid = Some (mkTimer room target true) ∧
            dom (live_timers w' room) = {[tid]}).
Proof.
  intros w w'.
  assert (timers_ok w) as Hok by apply run_timers_ok, init_timers_ok.
  assert (timers_ok w') as Hok' by by apply replace_timer_ok.
  destruct (replace_timer_spec room target w Hok) as (Hs & Hf & Hn & Ho & Hex).
  fold w' in Hs, Hn, Ho, Hex.
  split; [by apply live_timers_size|]. split.
  - destruct (session_tasks w !! room) as [old|] eqn:Eo; [|done].
    destruct (registered_exists _ Hok _ _ Eo) as (tk0 & Ht0 & Hroom0).
    assert (old ≠ fresh (dom (timers w))) as Hne by congruence.
    split; [rewrite Hs, lookup_insert_eq; congruence|].
    destruct (Hex _ _ Ht0) as [tk Htk]. rewrite Htk. simpl. f_equal.
    destruct (Ho _ _ Htk Hne) as (tk1 & Ht1 & Hr & _ & Hl).
    rewrite Ht0 in Ht1. injection Ht1 as <-.
    pose proof (live_registered _ Hok' _ _ Htk) as Hreg.
    destruct (timer_live tk); [|done].
    rewrite Hs in Hreg. specialize (Hreg eq_refl).
    case_decide as Hd; [done|].
    rewrite lookup_insert_ne in Hreg by done. rewrite <- Hr in Hreg.
    exfalso. apply Hd. rewrite <- Hr.
    pose proof (live_registered _ Hok _ _ Ht0) as Hreg0.
    destruct (timer_live tk0) eqn:Hl0; [|done].
    specialize (Hreg0 eq_refl). congruence.
  - exists (fresh (dom (timers w))). rewrite Hs, lookup_insert_eq.
    repeat split; try done.
    apply set_eq. intros x. rewrite elem_of_singleton. split.
    + intros Hx. pose proof (live_timers_registered w' room Hok' x Hx) as Hin.
      rewrite Hs, lookup_insert_eq in Hin. by apply elem_of_singleton in Hin.
    + intros ->. apply elem_of_dom. exists (mkTimer room target true).
      by apply map_lookup_filter_Some.
Qed.
End timers.

(** *** Starting a session, stale timers *)

Section start_and_timers.
Variable py_int : string → option Z.
Variable minutes : Z.

Lemma start_existing w room a b now s :
  room_sessions w !! room = Some s →
  start_new_initial_session minutes room a b now w = (Ret (Some s), w).
Proof.
  intros H. unfold start_new_initial_session. unfold_m. by rewrite H.
Qed.

(** C10. Idempotent session start.  When the room already has a session in
    memory, [start_new_initial_session] returns that session and the whole
    state (memory, table, timer tasks, broadcaster calls) is unchanged. *)
Theorem start_session_idempotent (w : World) (room user_a user_b now : Z) (s : Session) :
  room_sessions w !! room = Some s →
  start_new_initial_session minutes room user_a user_b now w = (Ret (Some s), w).
Proof. apply start_existing. Qed.

Lemma stale_check w room target now :
  match room_sessions w !! room with
  | Some s => session_id s ≠ target
  | None => True
  end →
  _check_session_timeout py_int minutes room target now w = (Ret Break, w).
Proof.
  intros H. unfold _check_session_timeout. unfold_m.
  destruct (room_sessions w !! room) as [s|]; [|done].
  by rewrite decide_True.
Qed.

(** C4. Stale-timer safety.  A live timer task that wakes up while the room
    has no current session, or a current session whose id differs from the
    id the task was armed for, leaves the loop at once: the pass through the
    loop body returns [Break] with the state as it was, and the only change
    made by the task is that the task itself is no longer live. *)
Theorem stale_timer_no_effect (w : World) (tid : nat) (room target now : Z) :
  timers w !! tid = Some (mkTimer room target true) →
  match room_sessions w !! room with
  | Some s => session_id s ≠ target
  | None => True
  end →
  _check_session_timeout py_int minutes room target now w = (Ret Break, w)
  ∧ timer_step py_int minutes tid now w =
      (Ret tt, set_timers (<[tid := mkTimer room target false]> (timers w)) w).
Proof.
  intros Ht Hs. pose proof (stale_check w room target now Hs) as Hc.
  split; [done|].
  unfold timer_step. unfold_m. rewrite Ht, Hc. unfold cancel. by rewrite Ht.
Qed.
End start_and_timers.

(** *** Votes *)





(** *** Fields left alone by the timer operations *)

Lemma cancel_fields tid w :
  cm (cancel tid w) = cm w ∧ room_sessions (cancel tid w) = room_sessions w ∧
  session_responses (cancel tid w) = session_responses w ∧
  db_sessions (cancel tid w) = db_sessions w ∧ db_next_id (cancel tid w) = db_next_id w ∧
  db_faults (cancel tid w) = db_faults w ∧ outbox (cancel tid w) = outbox w.
Proof. unfold cancel. by destruct (timers w !! tid). Qed.

Lemma replace_timer_fields room target w :
  let w' := replace_timer room target w in
  cm w' = cm w ∧ room_sessions w' = room_sessions w ∧
  session_responses w' = session_responses w ∧
  db_sessions w' = db_sessions w ∧ db_next_id w' = db_next_id w ∧
  db_faults w' = db_faults w ∧ outbox w' = outbox w.
Proof.
  unfold replace_timer. simpl.
  destruct (session_tasks w !! room); [apply cancel_fields|done].
Qed.

Lemma clear_fields room w :
  let w' := clear_room_session_data room w in
  cm w' = cm w ∧ room_sessions w' = delete room (room_sessions w) ∧
  session_responses w' = delete room (session_responses w) ∧
  session_tasks w' = delete room (session_tasks w) ∧
  db_sessions w' = db_sessions w ∧ db_next_id w' = db_next_id w ∧
  db_faults w' = db_faults w ∧ outbox w' = outbox w.
Proof.
  unfold clear_room_session_data. simpl.
  destruct (session_tasks w !! room) as [task|] eqn:E; simpl.
  - destruct (cancel_fields task (set_room_sessions (delete room (room_sessions w)) w))
      as (-> & -> & -> & -> & -> & -> & ->). done.
  - repeat split; try done. symmetry. by apply delete_id.
Qed.

Lemma replace_timer_new room target w :
  let w' := replace_timer room target w in
  let tid := fresh (dom (timers w)) in
  timers w !! tid = None
  ∧ session_tasks w' = <[room := tid]> (session_tasks w)
  ∧ timers w' !! tid = Some (mkTimer room target true)
  ∧ (∀ old tk, session_tasks w !! room = Some old → timers w !! old = Some tk →
       timer_live <$> timers w' !! old = Some false).
Proof.
  unfold replace_timer. simpl.
  set (w1 := match session_tasks w !! room with Some old => cancel old w | None => w end).
  assert (dom (timers w1) = dom (timers w)) as Hdom.
  { subst w1. destruct (session_tasks w !! room) as [old|]; [|done].
    apply set_eq. intros x. rewrite !elem_of_dom, cancel_lookup.
    case_decide; [|done]. by rewrite fmap_is_Some. }
  assert (session_tasks w1 = session_tasks w) as Hst.
  { subst w1. destruct (session_tasks w !! room); [apply cancel_session_tasks|done]. }
  rewrite Hdom, Hst. pose proof (fresh_timer_None w) as Hf.
  split; [done|]. split; [done|]. split; [by rewrite lookup_insert_eq|].
  intros old tk Ho Ht. rewrite lookup_insert_ne by congruence.
  subst w1. rewrite Ho, cancel_lookup, decide_True by done. by rewrite Ht.
Qed.

Lemma clear_timer room w old tk :
  session_tasks w !! room = Some old → timers w !! old = Some tk →
  timer_live <$> timers (clear_room_session_data room w) !! old = Some false.
Proof.
  intros Ho Ht. unfold clear_room_session_data. simpl. rewrite Ho. simpl.
  rewrite cancel_lookup, decide_True by done. simpl. by rewrite Ht.
Qed.

#[local] Opaque cancel replace_timer clear_room_session_data.

(** Rewriting with the three lemmas above. *)
Ltac fields :=
  repeat match goal with
  | |- context [?f (replace_timer ?r ?t ?w)] =>
      lazymatch f with
      | cm => rewrite (proj1 (replace_timer_fields r t w))
      | room_sessions => rewrite (proj1 (proj2 (replace_timer_fields r t w)))
      | session_responses => rewrite (proj1 (proj2 (proj2 (replace_timer_fields r t w))))
      | db_sessions => rewrite (proj1 (proj2 (proj2 (proj2 (replace_timer_fields r t w)))))
      | db_next_id => rewrite (proj1 (proj2 (proj2 (proj2 (proj2 (replace_timer_fields r t w))))))
      | db_faults =>
          rewrite (proj1 (proj2 (proj2 (proj2 (proj2 (proj2 (replace_timer_fields r t w)))))))
      | outbox =>
          rewrite (proj2 (proj2 (proj2 (proj2 (proj2 (proj2 (replace_timer_fields r t w)))))))
      end
  | |- context [?f (clear_room_session_data ?r ?w)] =>
      lazymatch f with
      | cm => rewrite (proj1 (clear_fields r w))
      | room_sessions => rewrite (proj1 (proj2 (clear_fields r w)))
      | session_responses => rewrite (proj1 (proj2 (proj2 (clear_fields r w))))
      | session_tasks => rewrite (proj1 (proj2 (proj2 (proj2 (clear_fields r w)))))
      | db_sessions => rewrite (proj1 (proj2 (proj2 (proj2 (proj2 (clear_fields r w))))))
      | db_next_id => rewrite (proj1 (proj2 (proj2 (proj2 (proj2 (proj2 (clear_fields r w)))))))
      | db_faults =>
          rewrite (proj1 (proj2 (proj2 (proj2 (proj2 (proj2 (proj2 (clear_fields r w))))))))
      | outbox =>
          rewrite (proj2 (proj2 (proj2 (proj2 (proj2 (proj2 (proj2 (clear_fields r w))))))))
      end
  end; simpl.

Section exec.
Variable py_int : string → option Z.
Variable minutes : Z.

Lemma db_await_ok w : db_faults w = [] → db_await w = (Ret tt, w).
Proof. intros H. unfold db_await. by rewrite H. Qed.

Lemma db_get_ok sid w : db_faults w = [] → db_get sid w = (Ret (db_sessions w !! sid), w).
Proof. intros H. unfold db_get. unfold_m. by rewrite db_await_ok. Qed.

Lemma db_commit_update_ok s w :
  db_faults w = [] →
  db_commit_update s w = (Ret tt, set_db_sessions (<[session_id s := s]> (db_sessions w)) w).
Proof. intros H. unfold db_commit_update. unfold_m. by rewrite db_await_ok. Qed.

Lemma db_commit_insert_ok s w :
  db_faults w = [] →
  db_commit_insert s w =
    (Ret (set_session_id (db_next_id w) s),
     set_db_next_id (db_next_id w + 1)
       (set_db_sessions (<[db_next_id w := set_session_id (db_next_id w) s]> (db_sessions w)) w)).
Proof. intros H. unfold db_commit_insert. unfold_m. by rewrite db_await_ok. Qed.

Lemma db_refresh_ok s s' w :
  db_faults w = [] → db_sessions w !! session_id s = Some s' →
  db_refresh s w = (Ret s', w).
Proof. intros H Hs. unfold db_refresh. unfold_m. rewrite db_await_ok by done. by rewrite Hs. Qed.



Lemma transition_exec w room row now a b rest a' b' :
  db_faults w = [] →
  dict_keys (ConnectionManager.get_active_connections_for_room (cm w) room) = a :: b :: rest →
  py_int a = Some a' → py_int b = Some b' →
  let new := emotion_session w room a' b' now in
  _transition_to_emotion_topic py_int room row now w =
    (Ret tt,
     set_outbox (outbox w ++ [(room, mkMsg "session" EmotionStart (Some (db_next_id w))
                                       (Some topic_2_emotion) now, None)])
       (replace_timer room (db_next_id w)
          (set_room_sessions (<[room := new]> (room_sessions w))
             (set_db_next_id (db_next_id w + 1)
                (set_db_sessions
                   (<[db_next_id w := new]>
                      (<[session_id row := set_end_time (Some now) row]> (db_sessions w)))
                   w))))).
Proof.
  intros Hf Hk Ha Hb. unfold _transition_to_emotion_topic. unfold_m.
  rewrite db_commit_update_ok by done.
  erewrite db_refresh_ok; [|done|simpl; by rewrite lookup_insert_eq].
  unfold active_connections_provider. unfold_m. simpl. rewrite Hk.
  unfold int. rewrite Ha, Hb. unfold_m.
  rewrite db_commit_insert_ok by done.
  erewrite db_refresh_ok; [|done|simpl; by rewrite lookup_insert_eq].
  unfold broadcaster. unfold_m. simpl. fields. done.
Qed.

Lemma end_chat_exec w room row now :
  db_faults w = [] →
  _end_chat_after_emotion_extension room row now w =
    (Ret tt,
     clear_room_session_data room
       (set_outbox (outbox w ++ [(room, mkMsg "system" ChatClosed None None now, None)])
          (set_db_sessions (<[session_id row := set_end_time (Some now) row]> (db_sessions w))
             w))).
Proof.
  intros Hf. unfold _end_chat_after_emotion_extension. unfold_m.
  rewrite db_commit_update_ok by done.
  erewrite db_refresh_ok; [|done|simpl; by rewrite lookup_insert_eq].
  unfold broadcaster. unfold_m. done.
Qed.


Lemma timer_replaced_intro w w0 w' room target :
  timers w0 = timers w → session_tasks w0 = session_tasks w →
  timers w' = timers (replace_timer room target w0) →
  session_tasks w' = session_tasks (replace_timer room target w0) →
  timer_replaced w w' room target.
Proof.
  intros Et Es Et' Es'.
  destruct (replace_timer_new room target w0) as (Hn & Hs & Ht & Ho).
  exists (fresh (dom (timers w0))). rewrite Et', Es', Hs, lookup_insert_eq.
  split; [by rewrite <- Et|]. split; [done|]. split; [done|].
  intros old tk. rewrite <- Es, <- Et. apply Ho.
Qed.

(** A pass through the timer loop before and after the segment has run out. *)
Lemma check_before w room s t :
  room_sessions w !! room = Some s →
  (t - start_time s < session_timeout_duration minutes)%Z →
  _check_session_timeout py_int minutes room (session_id s) t w = (Ret Continue, w).
Proof.
  intros Hs Ht. unfold _check_session_timeout. unfold_m. rewrite Hs.
  rewrite decide_False by (intros H; by apply H).
  rewrite decide_False by lia. done.
Qed.



End exec.

(** *** The table and the sessions in memory *)

Lemma db_ok_view w w' :
  room_sessions w' = room_sessions w → db_sessions w' = db_sessions w →
  db_next_id w' = db_next_id w → db_faults w' = db_faults w →
  db_ok w → db_ok w'.
Proof. intros E1 E2 E3 E4 [H1 H2 H3 H4]. split; rewrite ?E1, ?E2, ?E3, ?E4; done. Qed.

Lemma db_ok_no_current w room :
  db_ok w → room_sessions w !! room = None → no_open_rows w room.
Proof.
  intros [_ _ _ Ho] Hc sid row Hr Hroom He.
  destruct (Ho _ _ Hr He) as (cur & Hcur & _). congruence.
Qed.

Lemma db_ok_close w room cur row now :
  db_ok w → room_sessions w !! room = Some cur →
  db_sessions w !! session_id cur = Some row →
  let w' := set_db_sessions (<[session_id row := set_end_time (Some now) row]> (db_sessions w)) w in
  db_ok w' ∧ no_open_rows w' room.
Proof.
  intros [Hf Hk Hc Ho] Hcur Hrow. simpl.
  destruct (Hk _ _ Hrow) as [Hsid Hlt]. rewrite Hsid.
  split; [split; simpl|].
  - done.
  - intros sid r. rewrite lookup_insert. case_decide; subst; [|eauto].
    intros [= <-]. simpl. split; [done|lia].
  - intros r c Hrc. destruct (Hc _ _ Hrc) as (r0 & Hr0 & Hroom & He).
    destruct (decide (session_id cur = session_id c)) as [Hd|Hd].
    + rewrite <- Hd, Hrow in Hr0. injection Hr0 as <-.
      exists (set_end_time (Some now) row). rewrite <- Hd, lookup_insert_eq. done.
    + exists r0. by rewrite lookup_insert_ne.
  - intros sid r. rewrite lookup_insert. case_decide; subst; [by intros [= <-]|eauto].
  - unfold no_open_rows. simpl. intros sid r. rewrite lookup_insert. case_decide; subst.
    + intros [= <-]. done.
    + intros Hr Hroom He. destruct (Ho _ _ Hr He) as (c & Hrc & Hcs).
      rewrite Hroom, Hcur in Hrc. injection Hrc as <-. congruence.
Qed.

Lemma db_ok_extend w room cur row now :
  db_ok w → room_sessions w !! room = Some cur →
  db_sessions w !! session_id cur = Some row →
  db_ok (set_room_sessions (<[room := extend now row]> (room_sessions w))
           (set_db_sessions (<[session_id row := extend now row]> (db_sessions w)) w)).
Proof.
  intros [Hf Hk Hc Ho] Hcur Hrow.
  destruct (Hk _ _ Hrow) as [Hsid Hlt]. rewrite Hsid.
  destruct (Hc _ _ Hcur) as (r0 & Hr0 & Hroom0 & He0).
  rewrite Hrow in Hr0. injection Hr0 as <-.
  split; simpl.
  - done.
  - intros sid r. rewrite lookup_insert. case_decide; subst; [|eauto].
    intros [= <-]. simpl. split; [done|lia].
  - intros r c. rewrite lookup_insert. case_decide; subst.
    + intros [= <-]. simpl. rewrite Hsid, lookup_insert_eq. eauto.
    + intros Hrc. destruct (Hc _ _ Hrc) as (r0 & Hr0 & Hroom & He).
      destruct (decide (session_id cur = session_id c)) as [Hd|Hd].
      * rewrite <- Hd, Hrow in Hr0. injection Hr0 as <-. congruence.
      * exists r0. by rewrite lookup_insert_ne.
  - intros sid r. rewrite lookup_insert. case_decide; subst.
    + intros [= <-]. simpl. intros _. rewrite lookup_insert_eq. eauto.
    + intros Hr He. destruct (Ho _ _ Hr He) as (c & Hrc & Hcs).
      destruct (decide (room_id row = room_id r)) as [Hd|Hd].
      * rewrite <- Hd, Hcur in Hrc. injection Hrc as <-. congruence.
      * exists c. by rewrite lookup_insert_ne.
Qed.

Lemma db_ok_insert w room new :
  db_ok w → no_open_rows w room →
  session_id new = db_next_id w → room_id new = room →
  db_ok (set_room_sessions (<[room := new]> (room_sessions w))
           (set_db_next_id (db_next_id w + 1)
              (set_db_sessions (<[db_next_id w := new]> (db_sessions w)) w))).
Proof.
  intros [Hf Hk Hc Ho] Hno Hsid Hroom.
  assert (db_sessions w !! db_next_id w = None) as Hfresh.
  { destruct (db_sessions w !! db_next_id w) eqn:E; [|done].
    apply Hk in E as [_ ?]. lia. }
  split; simpl.
  - done.
  - intros sid r. rewrite lookup_insert. case_decide; subst.
    + intros [= <-]. split; [done|lia].
    + intros Hr. destruct (Hk _ _ Hr). split; [done|lia].
  - intros r c. rewrite lookup_insert. case_decide; subst.
    + intros [= <-]. rewrite Hsid, lookup_insert_eq. eauto.
    + intros Hrc. destruct (Hc _ _ Hrc) as (r0 & Hr0 & Hroom0 & He).
      exists r0. rewrite lookup_insert_ne by congruence. eauto.
  - intros sid r. rewrite lookup_insert. case_decide; subst.
    + intros [= <-] _. rewrite lookup_insert_eq. eauto.
    + intros Hr He. destruct (Ho _ _ Hr He) as (c & Hrc & Hcs).
      exists c. rewrite lookup_insert_ne; [eauto|]. intros E. by eapply Hno.
Qed.

Lemma db_ok_forget w room :
  db_ok w → no_open_rows w room →
  db_ok (set_room_sessions (delete room (room_sessions w)) w).
Proof.
  intros [Hf Hk Hc Ho] Hno. split; simpl; try done.
  - intros r c. rewrite lookup_delete. case_decide; [done|eauto].
  - intros sid r Hr He. destruct (Ho _ _ Hr He) as (c & Hrc & Hcs).
    exists c. rewrite lookup_delete_ne; [eauto|]. intros E. by eapply Hno.
Qed.

Lemma db_ok_reload w room cur row :
  db_ok w → room_sessions w !! room = Some cur →
  db_sessions w !! session_id cur = Some row →
  db_ok (set_room_sessions (<[room := row]> (room_sessions w)) w).
Proof.
  intros [Hf Hk Hc Ho] Hcur Hrow.
  destruct (Hk _ _ Hrow) as [Hsid Hlt].
  destruct (Hc _ _ Hcur) as (r0 & Hr0 & Hroom0 & He0).
  rewrite Hrow in Hr0. injection Hr0 as <-.
  split; simpl; try done.
  - intros r c. rewrite lookup_insert. case_decide; subst.
    + intros [= <-]. rewrite Hsid. eauto.
    + eauto.
  - intros sid r Hr He. destruct (Ho _ _ Hr He) as (c & Hrc & Hcs).
    destruct (decide (room = room_id r)) as [Hd|Hd].
    + rewrite <- Hd, Hcur in Hrc. injection Hrc as <-.
      exists row. rewrite <- Hd, lookup_insert_eq. split; [done|]. congruence.
    + exists c. by rewrite lookup_insert_ne.
Qed.

Section db.
Variable py_int : string → option Z.
Variable minutes : Z.

Lemma bind_ret_snd {A B} (m : M A) (b : B) w : ((m;; mret b) w).2 = (m w).2.
Proof. unfold_m. by destruct (m w) as [[a|e] w']. Qed.

(** [db_ok] only reads four fields. *)
Ltac same_view w0 := apply (db_ok_view w0); [simpl; fields; try done..|].

Lemma start_db_ok room a b now :
  preserves db_ok (start_new_initial_session minutes room a b now).
Proof.
  intros w Hok. pose proof (ok_faults _ Hok) as Hf.
  destruct (room_sessions w !! room) as [s|] eqn:Hs.
  { by erewrite start_existing. }
  unfold start_new_initial_session. unfold_m. rewrite Hs.
  rewrite db_commit_insert_ok by done.
  erewrite db_refresh_ok; [|done|simpl; by rewrite lookup_insert_eq].
  unfold broadcaster. unfold_m. simpl.
  set (new := set_session_id _ _).
  same_view (set_room_sessions (<[room := new]> (room_sessions w))
               (set_db_next_id (db_next_id w + 1)
                  (set_db_sessions (<[db_next_id w := new]> (db_sessions w)) w))).
  apply db_ok_insert; try done. by apply db_ok_no_current.
Qed.

Lemma transition_db_ok w room cur row now :
  db_ok w → room_sessions w !! room = Some cur →
  db_sessions w !! session_id cur = Some row →
  db_ok (_transition_to_emotion_topic py_int room row now w).2.
Proof.
  intros Hok Hcur Hrow. pose proof (ok_faults _ Hok) as Hf.
  destruct (db_ok_close w room cur row now Hok Hcur Hrow) as [Hok1 Hno].
  set (w1 := set_db_sessions _ w) in *.
  unfold _transition_to_emotion_topic. unfold_m.
  rewrite db_commit_update_ok by done.
  erewrite db_refresh_ok; [|done|simpl; by rewrite lookup_insert_eq].
  unfold active_connections_provider. unfold_m. simpl.
  destruct (dict_keys _) as [|a [|b rest]]; try done.
  unfold int. destruct (py_int a) as [a'|]; [|done].
  destruct (py_int b) as [b'|]; [|done].
  unfold_m. rewrite db_commit_insert_ok by done.
  erewrite db_refresh_ok; [|done|simpl; by rewrite lookup_insert_eq].
  unfold broadcaster. unfold_m. simpl.
  set (new := set_session_id _ _).
  same_view (set_room_sessions (<[room := new]> (room_sessions w1))
               (set_db_next_id (db_next_id w1 + 1)
                  (set_db_sessions (<[db_next_id w1 := new]> (db_sessions w1)) w1))).
  by apply db_ok_insert.
Qed.

Lemma end_chat_db_ok w room cur row now :
  db_ok w → room_sessions w !! room = Some cur →
  db_sessions w !! session_id cur = Some row →
  db_ok (_end_chat_after_emotion_extension room row now w).2.
Proof.
  intros Hok Hcur Hrow. pose proof (ok_faults _ Hok) as Hf.
  destruct (db_ok_close w room cur row now Hok Hcur Hrow) as [Hok1 Hno].
  set (w1 := set_db_sessions _ w) in *.
  rewrite end_chat_exec by done. simpl.
  same_view (set_room_sessions (delete room (room_sessions w1)) w1).
  by apply db_ok_forget.
Qed.

Lemma check_db_ok room target now :
  preserves db_ok (_check_session_timeout py_int minutes room target now).
Proof.
  intros w Hok. pose proof (ok_faults _ Hok) as Hf.
  unfold _check_session_timeout. unfold_m.
  destruct (room_sessions w !! room) as [s|] eqn:Hs; [|done].
  case_decide; [done|]. case_decide; [|done].
  rewrite db_get_ok by done.
  destruct (db_sessions w !! session_id s) as [sdb|] eqn:Hdb; [|done].
  destruct (extension_used sdb).
  - fold (@mret M _ LoopCtl). 
    change (db_ok (((if decide (topic sdb = topic_1_situation)
                    then _transition_to_emotion_topic py_int room sdb now
                    else if decide (topic sdb = topic_2_emotion)
                         then _end_chat_after_emotion_extension room sdb now
                         else mret ());; mret Break) w).2).
    rewrite bind_ret_snd. repeat case_decide.
    + by eapply transition_db_ok.
    + by eapply end_chat_db_ok.
    + done.
  - unfold broadcaster. unfold_m. simpl. by same_view w.
Qed.

Lemma add_response_db_ok room user response now :
  preserves db_ok (add_session_response py_int minutes room user response now).
Proof.
  intros w Hok. pose proof (ok_faults _ Hok) as Hf.
  unfold add_session_response. unfold_m. simpl.
  set (votes := <[user := response]> _).
  set (w0 := set_session_responses _ w).
  assert (db_ok w0) as Hok0 by by same_view w.
  destruct (room_sessions w !! room) as [cur|] eqn:Hcur; [|by same_view w].
  unfold active_connections_provider. unfold_m. simpl.
  case_decide; [done|].
  rewrite lookup_insert_eq. simpl.
  case_decide; [unfold broadcaster; unfold_m; simpl; by same_view w|].
  case_decide; [|done].
  rewrite db_get_ok by done. simpl.
  destruct (db_sessions w !! session_id cur) as [row|] eqn:Hrow; [|by same_view w].
  destruct (all_yes votes || any_yes votes).
  - rewrite db_commit_update_ok by done.
    erewrite db_refresh_ok; [|done|simpl; by rewrite lookup_insert_eq].
    unfold broadcaster. unfold_m. simpl.
    same_view (set_room_sessions (<[room := extend now row]> (room_sessions w))
                 (set_db_sessions (<[session_id row := extend now row]> (db_sessions w)) w)).
    by eapply db_ok_extend.
  - set (next := if decide (topic row = topic_1_situation) then _ else _).
    assert (db_ok (next w0).2) as Hnext.
    { subst next. repeat case_decide.
      - by eapply transition_db_ok.
      - by eapply end_chat_db_ok.
      - done. }
    unfold db_rollback. unfold_m.
    destruct (next w0) as [[[]|e] w1]; simpl in *; [by same_view w1|done].
Qed.

Lemma end_session_db_ok room now : preserves db_ok (end_session_for_room room now).
Proof.
  intros w Hok. pose proof (ok_faults _ Hok) as Hf.
  unfold end_session_for_room. unfold_m.
  destruct (room_sessions w !! room) as [cur|] eqn:Hcur.
  2:{ simpl. same_view (set_room_sessions (delete room (room_sessions w)) w).
      apply db_ok_forget; [done|]. by apply db_ok_no_current. }
  destruct (ok_current _ Hok _ _ Hcur) as (row & Hrow & Hroom & Hend).
  destruct (ok_keys _ Hok _ _ Hrow) as [Hsid _].
  assert (end_time row ≠ None → no_open_rows w room) as Hclosed.
  { intros Hne sid r Hr Hrr He.
    destruct (ok_open _ Hok _ _ Hr He) as (c & Hc & Hcs).
    rewrite Hrr, Hcur in Hc. injection Hc as <-. subst sid.
    rewrite Hrow in Hr. injection Hr as <-. done. }
  destruct (end_time cur) as [t|] eqn:Hcend.
  { simpl. same_view (set_room_sessions (delete room (room_sessions w)) w).
    apply db_ok_forget; [done|]. apply Hclosed. intros E. by apply Hend in E. }
  rewrite db_get_ok by done. rewrite Hrow.
  destruct (end_time row) as [t|] eqn:Hrend.
  { unfold db_rollback. unfold_m. simpl.
    same_view (set_room_sessions (delete room (room_sessions w)) w).
    apply db_ok_forget; [done|]. by apply Hclosed. }
  rewrite db_commit_update_ok by done.
  erewrite db_refresh_ok; [|done|simpl; by rewrite lookup_insert_eq].
  simpl.
  destruct (db_ok_close w room cur row now Hok Hcur Hrow) as [Hok1 Hno].
  set (w1 := set_db_sessions _ w) in *.
  same_view (set_room_sessions (delete room (room_sessions w1)) w1).
  { by rewrite delete_insert_eq. }
  by apply db_ok_forget.
Qed.

Lemma modify_db_ok f :
  (∀ w, room_sessions (f w) = room_sessions w) → (∀ w, db_sessions (f w) = db_sessions w) →
  (∀ w, db_next_id (f w) = db_next_id w) → (∀ w, db_faults (f w) = db_faults w) →
  preserves db_ok (modify f).
Proof. intros H1 H2 H3 H4. apply preserves_modify. intros w. by apply db_ok_view. Qed.

Lemma db_await_db_ok : preserves db_ok db_await.
Proof. intros w Hok. rewrite db_await_ok; [done|]. by destruct Hok. Qed.

Create HintDb dbok.
Hint Resolve db_await_db_ok start_db_ok check_db_ok add_response_db_ok end_session_db_ok
  : dbok.

Ltac pres :=
  repeat (first [ pres_step
                | by auto with dbok
                | by (apply modify_db_ok; intros; simpl; fields) ]).

Lemma timer_step_db_ok tid now : preserves db_ok (timer_step py_int minutes tid now).
Proof.
  unfold timer_step. pres.
  apply modify_db_ok; intros w; by destruct (cancel_fields tid w) as (?&?&?&?&?&?&?).
Qed.

Lemma provider_db_ok r : preserves db_ok (active_connections_provider r).
Proof. unfold active_connections_provider. pres. Qed.
Lemma int_db_ok s : preserves db_ok (int py_int s).
Proof. unfold int. pres. Qed.
Hint Resolve timer_step_db_ok provider_db_ok int_db_ok : dbok.

Lemma cleanup_db_ok room u now : preserves db_ok (endpoint_cleanup room u now).
Proof. unfold endpoint_cleanup, disconnect, get_current_session. pres. Qed.
Hint Resolve cleanup_db_ok : dbok.

Lemma open_db_ok ws room u found now :
  preserves db_ok (endpoint_open py_int minutes ws room u found now).
Proof. unfold endpoint_open, connect, disconnect, get_current_session. pres. Qed.

Lemma response_db_ok room u yes now :
  preserves db_ok (endpoint_response py_int minutes room u yes now).
Proof. unfold endpoint_response, get_current_session. pres. Qed.
Hint Resolve open_db_ok response_db_ok : dbok.

Lemma handler_db_ok e : preserves db_ok (handler py_int minutes e).
Proof. destruct e; simpl; unfold connect, disconnect; pres. Qed.

Lemma run_db_ok evs w : db_ok w → db_ok (run py_int minutes w evs).
Proof.
  revert w. induction evs as [|e evs IH]; intros w Hw; simpl; [done|].
  apply IH. by apply handler_db_ok.
Qed.

Lemma init_db_ok : db_ok (init []).
Proof. split; simpl; try done; intros *; by rewrite lookup_empty. Qed.


End db.

(** *** One open row per room *)

Section one_session.
Variable py_int : string → option Z.
Variable minutes : Z.


(** The two halves of [start_new_initial_session], run one after the other
    without another coroutine in between, are the whole call. *)
Lemma start_new_initial_session_halves w room a b now :
  start_new_initial_session minutes room a b now w =
    match start_new_initial_session_enter room a b now w with
    | (Ret (inl existing), w) => (Ret (Some existing), w)
    | (Ret (inr new_session), w) =>
        start_new_initial_session_resume minutes room new_session now w
    | (Raise e, w) => (Raise e, w)
    end.
Proof.
  unfold start_new_initial_session, start_new_initial_session_enter. unfold_m.
  by destruct (room_sessions w !! room).
Qed.

End one_session.


(** *** The room empties *)

Lemma disconnect_last st room user ws :
  ConnectionManager.get_active_connections_for_room st room = [(user, ws)] →
  ConnectionManager.get_active_connections_for_room
    (ConnectionManager.disconnect room user st) room = [].
Proof.
  unfold ConnectionManager.get_active_connections_for_room, ConnectionManager.disconnect.
  simpl. destruct (ConnectionManager.active_connections st !! room) as [c|] eqn:E; [|done].
  simpl. intros ->. simpl. rewrite !decide_True by done. simpl.
  destruct (ConnectionManager.message_processor_tasks st !! room) as [task|]; simpl.
  - destruct (ConnectionManager.task_done _ task); simpl.
    + by rewrite lookup_delete_eq.
    + unfold ConnectionManager.cancel. simpl.
      destruct (ConnectionManager.tasks st !! task); simpl; by rewrite lookup_delete_eq.
  - by rewrite lookup_delete_eq.
Qed.

Section room_empty.
Variable py_int : string → option Z.
Variable minutes : Z.

Lemma end_session_unfold room now :
  end_session_for_room room now = (close_current room now;; modify (clear_room_session_data room)).
Proof. reflexivity. Qed.

(** Closing the row touches neither the connections, the timer tasks, the
    responses nor the broadcaster. *)
Lemma memory_kept_modify w0 f :
  (∀ w, cm (f w) = cm w) → (∀ w, session_tasks (f w) = session_tasks w) →
  (∀ w, timers (f w) = timers w) → (∀ w, session_responses (f w) = session_responses w) →
  (∀ w, outbox (f w) = outbox w) →
  preserves (memory_kept w0) (modify f).
Proof.
  intros H1 H2 H3 H4 H5. apply preserves_modify. intros w (?&?&?&?&?).
  unfold memory_kept. rewrite H1, H2, H3, H4, H5. done.
Qed.

Lemma memory_kept_db_await w0 : preserves (memory_kept w0) db_await.
Proof.
  intros w Hw. unfold db_await. by destruct (db_faults w) as [|[] ?].
Qed.

Lemma close_current_memory w0 room now : preserves (memory_kept w0) (close_current room now).
Proof.
  unfold close_current, db_get, db_commit_update, db_refresh, db_rollback.
  repeat (first [ pres_step | apply memory_kept_db_await
                | by (apply memory_kept_modify; intros; simpl) ]).
Qed.

Lemma close_current_returns room now w : (close_current room now w).1 = Ret tt.
Proof.
  unfold close_current, db_rollback. unfold_m.
  destruct (room_sessions w !! room) as [c|]; [|done].
  destruct (end_time c); [done|].
  match goal with |- context [match ?x with _ => _ end] => destruct x as [[[]|e] w1] end; done.
Qed.

Lemma close_current_ok room now w cur row :
  room_sessions w !! room = Some cur → db_faults w = [] →
  db_sessions w !! session_id cur = Some row → session_id row = session_id cur →
  db_sessions (close_current room now w).2 =
    match end_time cur, end_time row with
    | None, None => <[session_id cur := set_end_time (Some now) row]> (db_sessions w)
    | _, _ => db_sessions w
    end.
Proof.
  intros Hcur Hf Hrow Hsid. unfold close_current, db_rollback. unfold_m. rewrite Hcur.
  destruct (end_time cur); [done|].
  rewrite db_get_ok by done. rewrite Hrow.
  destruct (end_time row); [done|].
  rewrite db_commit_update_ok by done.
  erewrite db_refresh_ok; [|done|simpl; by rewrite lookup_insert_eq].
  simpl. by rewrite Hsid.
Qed.

(** C7. Room-empty force close.  [user] is the only connected user of the
    room and leaves while the room holds a session, and no database call
    fails.  Then the cleanup of the endpoint returns normally and, whatever
    vote round or timer is pending, the room has no connection, no session
    in memory, no registered timer task and no pending responses, and the
    timer task that was registered is cancelled.  The row of the session
    gets [end_time = now] if neither the session in memory nor the row had
    an end time, and the table is unchanged otherwise. *)
Theorem room_empty_force_close (w : World) (room : Z) (user : string) (ws : nat) (now : Z)
    (cur : Session) :
  db_faults w = [] →
  ConnectionManager.get_active_connections_for_room (cm w) room = [(user, ws)] →
  room_sessions w !! room = Some cur →
  let res := endpoint_cleanup room user now w in
  let w' := res.2 in
  res.1 = Ret tt
  ∧ ConnectionManager.get_active_connections_for_room (cm w') room = []
  ∧ room_sessions w' !! room = None
  ∧ session_tasks w' !! room = None
  ∧ session_responses w' !! room = None
  ∧ (∀ old tk, session_tasks w !! room = Some old → timers w !! old = Some tk →
       timer_live <$> timers w' !! old = Some false)
  ∧ (∀ row, db_sessions w !! session_id cur = Some row → session_id row = session_id cur →
       db_sessions w' =
         match end_time cur, end_time row with
         | None, None => <[session_id cur := set_end_time (Some now) row]> (db_sessions w)
         | _, _ => db_sessions w
         end).
Proof.
  intros Hf Hconn Hcur res w'.
  pose proof (disconnect_last _ _ _ _ Hconn) as Hd.
  set (w1 := set_cm (ConnectionManager.disconnect room user (cm w)) w).
  assert (endpoint_cleanup room user now w =
          (Ret tt, clear_room_session_data room (close_current room now w1).2)) as Hx.
  { unfold endpoint_cleanup, disconnect, active_connections_provider, get_current_session.
    unfold_m. simpl. fold w1. rewrite Hd. simpl. rewrite Hcur.
    rewrite end_session_unfold. unfold_m.
    pose proof (close_current_returns room now w1) as Hr.
    destruct (close_current room now w1) as [[[]|e] w2]; simpl in *; done. }
  subst res w'. rewrite Hx. simpl.
  destruct (close_current_memory w1 room now w1) as (Hcm & Hst & Htm & Hsr & Hob).
  { done. }
  fields. rewrite Hcm, Hst, Hsr.
  split; [done|]. split; [exact Hd|].
  split; [by rewrite lookup_delete_eq|]. split; [by rewrite lookup_delete_eq|].
  split; [by rewrite lookup_delete_eq|]. split.
  - intros old tk Ho Ht. apply (clear_timer room _ old tk); [by rewrite Hst|by rewrite Htm].
  - intros row Hrow Hsid. by apply (close_current_ok room now w1).
Qed.
End room_empty.

(** *** Votes after a round has resolved *)

Lemma world_eta w :
  mkWorld (cm w) (room_sessions w) (session_tasks w) (session_responses w) (timers w)
          (db_sessions w) (db_next_id w) (db_faults w) (outbox w) = w.
Proof. by destruct w. Qed.

Section late_votes.
Variable py_int : string → option Z.
Variable minutes : Z.

(** C6, as amended.  A resolution removes the room's responses.  A vote
    submitted after that makes no extension, topic advance or end: the call
    returns normally and connections, sessions in memory, timer tasks and
    the table are as they were.  It is not rejected, though.  While the room
    holds a session the vote is recorded as the only vote of a new round
    and, with two users connected, the sender is sent the wait notice; when
    the room holds no session the state is exactly as before. *)
Theorem late_vote_opens_new_round (w : World) (room : Z) (user : string)
    (response : bool) (now : Z) :
  session_responses w !! room = None →
  let res := add_session_response py_int minutes room user response now w in
  let w' := res.2 in
  res.1 = Ret tt
  ∧ cm w' = cm w ∧ room_sessions w' = room_sessions w ∧ session_tasks w' = session_tasks w
  ∧ timers w' = timers w ∧ db_sessions w' = db_sessions w ∧ db_next_id w' = db_next_id w
  ∧ db_faults w' = db_faults w
  ∧ match room_sessions w !! room with
    | None => w' = w
    | Some _ =>
        session_responses w' = <[room := {[user := response]}]> (session_responses w)
        ∧ outbox w' = outbox w ++
            (if decide (length (ConnectionManager.get_active_connections_for_room (cm w) room) < 2)
             then []
             else [(room, mkMsg "system" WaitForOther None None now, Some user)])
    end.
Proof.
  intros Hnone res w'. subst res w'.
  unfold add_session_response. unfold_m. simpl. rewrite Hnone. simpl.
  destruct (room_sessions w !! room) as [cur|] eqn:Hcur; simpl.
  - unfold active_connections_provider. unfold_m. simpl.
    case_decide; simpl; [by rewrite app_nil_r|].
    rewrite lookup_insert_eq. simpl.
    rewrite decide_True by (by rewrite insert_empty, map_size_singleton).
    unfold broadcaster. unfold_m. simpl. by rewrite insert_empty.
  - repeat split; try done.
    unfold set_session_responses. simpl.
    rewrite delete_insert_eq, delete_id by done. apply world_eta.
Qed.
End late_votes.

Lemma late_vote_opens_new_round_witness :
  let res := add_session_response example_int 1 1 "7" false 80 extended in
  res.1 = Ret tt ∧ room_sessions res.2 = room_sessions extended
  ∧ session_responses res.2 !! 1%Z = Some {["7" := false]}.
Proof.
  destruct (late_vote_opens_new_round example_int 1 extended 1 "7" false 80)
    as (H1 & _ & H2 & _ & _ & _ & _ & _ & H3).
  { vm_compute. reflexivity. }
  split; [exact H1|]. split; [exact H2|].
  change (room_sessions extended !! 1%Z) with
    (Some (mkSession 1 1 7 8 topic_1_situation 75 None true)) in H3.
  destruct H3 as [H3 _]. rewrite H3. apply lookup_insert_eq.
Defined.

(** C6 fails as stated.  After the round of [prompted] has resolved with an
    extension ([extended]: responses removed), a vote by user 7 changes the
    state (it is recorded and a notice is sent), and a vote by user 8 then
    resolves a second round: both declined, so the situation row is closed
    and the room moves on to the emotion topic. *)
Lemma late_votes_counterexample :
  let late1 := step example_int 1 extended (Vote 1 "7" false 80) in
  let late2 := step example_int 1 late1 (Vote 1 "8" false 85) in
  session_responses prompted !! 1%Z = Some ∅
  ∧ room_sessions extended !! 1%Z = Some (mkSession 1 1 7 8 topic_1_situation 75 None true)
  ∧ session_responses extended !! 1%Z = None
  ∧ session_responses late1 !! 1%Z = Some {["7" := false]}
  ∧ length (outbox late1) = S (length (outbox extended))
  ∧ room_sessions late2 !! 1%Z = Some (mkSession 2 1 7 8 topic_2_emotion 85 None false)
  ∧ db_sessions late2 !! 1%Z = Some (mkSession 1 1 7 8 topic_1_situation 75 (Some 85%Z) true).
Proof. vm_compute. repeat split; reflexivity. Qed.

(** *** Database calls that fail *)



Section persist.
Variable py_int : string → option Z.
Variable minutes : Z.




End persist.



(** *** The theorems at the example states *)


Lemma stale_timer_no_effect_witness :
  timer_step example_int 1 1 500 stale =
    (Ret tt, set_timers (<[1 := mkTimer 1 1 false]> (timers stale)) stale).
Proof.
  apply (stale_timer_no_effect example_int 1 stale 1 1 1 500).
  - vm_compute. reflexivity.
  - vm_compute. exact I.
Defined.

Lemma room_empty_force_close_witness :
  let res := endpoint_cleanup 1 "8" 95 last_user in
  res.1 = Ret tt ∧ room_sessions res.2 !! 1%Z = None ∧ session_tasks res.2 !! 1%Z = None
  ∧ db_sessions res.2 !! 1%Z = Some (mkSession 1 1 7 8 topic_1_situation 75 (Some 95%Z) true).
Proof.
  destruct (room_empty_force_close last_user 1 "8" 11 95
              (mkSession 1 1 7 8 topic_1_situation 75 None true))
    as (H1 & _ & H2 & H3 & _ & _ & H4).
  - vm_compute. reflexivity.
  - vm_compute. reflexivity.
  - vm_compute. reflexivity.
  - split; [exact H1|]. split; [exact H2|]. split; [exact H3|].
    rewrite (H4 (mkSession 1 1 7 8 topic_1_situation 75 None true)).
    + apply lookup_insert_eq.
    + vm_compute. reflexivity.
    + reflexivity.
Defined.

Lemma start_session_idempotent_witness :
  start_new_initial_session 1 1 7 8 100 extended =
    (Ret (Some (mkSession 1 1 7 8 topic_1_situation 75 None true)), extended).
Proof.
  apply (start_session_idempotent 1 extended 1 7 8 100).
  vm_compute. reflexivity.
Defined.

(** *** When the timer runs out *)

Lemma cancel_live w tid room target :
  timers w !! tid = Some (mkTimer room target true) →
  timers (cancel tid w) = <[tid := mkTimer room target false]> (timers w).
Proof.
  intros Ht. apply map_eq. intros tid'. rewrite cancel_lookup, lookup_insert.
  case_decide; [subst; by rewrite Ht|done].
Qed.

(** Rewriting the fields of a state on which [cancel] was called. *)
Ltac cancelled :=
  repeat match goal with
  | |- context [?f (cancel ?t ?w)] =>
      lazymatch f with
      | cm => rewrite (proj1 (cancel_fields t w))
      | room_sessions => rewrite (proj1 (proj2 (cancel_fields t w)))
      | session_responses => rewrite (proj1 (proj2 (proj2 (cancel_fields t w))))
      | db_sessions => rewrite (proj1 (proj2 (proj2 (proj2 (cancel_fields t w)))))
      | db_next_id => rewrite (proj1 (proj2 (proj2 (proj2 (proj2 (cancel_fields t w))))))
      | db_faults =>
          rewrite (proj1 (proj2 (proj2 (proj2 (proj2 (proj2 (cancel_fields t w)))))))
      | outbox =>
          rewrite (proj2 (proj2 (proj2 (proj2 (proj2 (proj2 (cancel_fields t w)))))))
      | session_tasks => rewrite (cancel_session_tasks t w)
      end
  end; simpl.

Lemma cancel_keeps w tid tid' :
  is_Some (timers w !! tid') → is_Some (timers (cancel tid w) !! tid').
Proof. rewrite cancel_lookup. case_decide; [|done]. by rewrite fmap_is_Some. Qed.

Lemma cancel_dead w tid :
  is_Some (timers w !! tid) → timer_live <$> timers (cancel tid w) !! tid = Some false.
Proof. intros [tk Ht]. by rewrite cancel_lookup, decide_True, Ht. Qed.

#[local] Transparent replace_timer clear_room_session_data.

Lemma replace_timer_keeps room target w tid :
  is_Some (timers w !! tid) → is_Some (timers (replace_timer room target w) !! tid).
Proof.
  intros Ht. unfold replace_timer. simpl.
  set (w1 := match session_tasks w !! room with Some old => cancel old w | None => w end).
  assert (is_Some (timers w1 !! tid)) as H1.
  { subst w1. destruct (session_tasks w !! room); [by apply cancel_keeps|done]. }
  rewrite lookup_insert_ne; [done|].
  intros <-. pose proof (fresh_timer_None w1) as Hn. rewrite Hn in H1. by destruct H1.
Qed.

Lemma clear_keeps room w tid :
  is_Some (timers w !! tid) → is_Some (timers (clear_room_session_data room w) !! tid).
Proof.
  intros Ht. unfold clear_room_session_data. simpl.
  destruct (session_tasks w !! room); simpl; [by apply cancel_keeps|done].
Qed.

#[local] Opaque replace_timer clear_room_session_data.

Section expiry.
Variable py_int : string → option Z.
Variable minutes : Z.

Lemma timer_step_exec w tid room target now :
  timers w !! tid = Some (mkTimer room target true) →
  timer_step py_int minutes tid now w =
    match _check_session_timeout py_int minutes room target now w with
    | (Ret Continue, w1) => (Ret tt, w1)
    | (_, w1) => (Ret tt, cancel tid w1)
    end.
Proof.
  intros Ht. unfold timer_step. unfold_m. rewrite Ht.
  by destruct (_check_session_timeout _ _ _ _ _ _) as [[[]|e] w1].
Qed.

Lemma check_expired_exec w room cur row now :
  room_sessions w !! room = Some cur →
  db_sessions w !! session_id cur = Some row →
  db_faults w = [] →
  (session_timeout_duration minutes ≤ now - start_time cur)%Z →
  _check_session_timeout py_int minutes room (session_id cur) now w =
    if extension_used row then
      match (if decide (topic row = topic_1_situation)
             then _transition_to_emotion_topic py_int room row now
             else if decide (topic row = topic_2_emotion)
             then _end_chat_after_emotion_extension room row now
             else mret tt) w with
      | (Ret _, w1) => (Ret Break, w1)
      | (Raise e, w1) => (Raise e, w1)
      end
    else
      (Ret Break,
       set_session_responses (<[room := ∅]> (session_responses w))
         (set_outbox (outbox w ++
            [(room, mkMsg "system" (ExtensionPrompt (topic_display row))
                      (Some (session_id row)) None now, None)]) w)).
Proof.
  intros Hcur Hrow Hf Ht. unfold _check_session_timeout. unfold_m. rewrite Hcur.
  rewrite decide_False by (intros H; by apply H).
  rewrite decide_True by lia.
  rewrite db_get_ok by done. simpl. rewrite Hrow.
  destruct (extension_used row); [|done].
  set (next := if decide (topic row = topic_1_situation) then _ else _).
  by destruct (next w) as [[[]|e] w1].
Qed.

(** What the timer task of the room's current session does when it wakes
    up, no database call failing.  Before the configured duration has passed
    since [start_time] nothing changes and the task sleeps again.  After
    that the task ends, and: if the row's extension is unused, the room is
    asked once whether to continue and a new, empty round of responses is
    opened; if the extension is used the room is not asked again: a
    situation session is closed and replaced by an emotion session with a
    timer of its own, an emotion session is closed and the room's session,
    timer registration and responses are removed. *)
Theorem timer_expiry_rule (w : World) (tid : nat) (room now : Z) (cur row : Session) :
  timers w !! tid = Some (mkTimer room (session_id cur) true) →
  room_sessions w !! room = Some cur →
  db_sessions w !! session_id cur = Some row →
  session_id row = session_id cur →
  db_faults w = [] →
  let res := timer_step py_int minutes tid now w in
  let w' := res.2 in
  let sid := session_id cur in
  let ended := <[tid := mkTimer room sid false]> (timers w) in
  res.1 = Ret tt
  ∧ ((now - start_time cur < session_timeout_duration minutes)%Z → w' = w)
  ∧ ((session_timeout_duration minutes ≤ now - start_time cur)%Z →
     extension_used row = false →
       outbox w' = outbox w ++
         [(room, mkMsg "system" (ExtensionPrompt (topic_display row)) (Some sid) None now,
           None)]
       ∧ session_responses w' = <[room := ∅]> (session_responses w)
       ∧ timers w' = ended ∧ session_tasks w' = session_tasks w
       ∧ room_sessions w' = room_sessions w ∧ db_sessions w' = db_sessions w
       ∧ db_next_id w' = db_next_id w ∧ cm w' = cm w)
  ∧ ((session_timeout_duration minutes ≤ now - start_time cur)%Z →
     extension_used row = true → topic row = topic_1_situation →
     ∀ a b rest a' b',
       dict_keys (ConnectionManager.get_active_connections_for_room (cm w) room)
         = a :: b :: rest →
       py_int a = Some a' → py_int b = Some b' →
       let new := mkSession (db_next_id w) room a' b' topic_2_emotion now None false in
       db_sessions w' = <[db_next_id w := new]>
                          (<[sid := set_end_time (Some now) row]> (db_sessions w))
       ∧ room_sessions w' = <[room := new]> (room_sessions w)
       ∧ db_next_id w' = (db_next_id w + 1)%Z
       ∧ outbox w' = outbox w ++
           [(room, mkMsg "session" EmotionStart (Some (db_next_id w))
                     (Some topic_2_emotion) now, None)]
       ∧ session_responses w' = session_responses w
       ∧ timer_live <$> timers w' !! tid = Some false
       ∧ (∃ tid', tid' ≠ tid ∧ session_tasks w' !! room = Some tid' ∧
                  timers w' !! tid' = Some (mkTimer room (db_next_id w) true)))
  ∧ ((session_timeout_duration minutes ≤ now - start_time cur)%Z →
     extension_used row = true → topic row = topic_2_emotion →
       db_sessions w' = <[sid := set_end_time (Some now) row]> (db_sessions w)
       ∧ db_next_id w' = db_next_id w
       ∧ outbox w' = outbox w ++ [(room, mkMsg "system" ChatClosed None None now, None)]
       ∧ room_sessions w' = delete room (room_sessions w)
       ∧ session_tasks w' = delete room (session_tasks w)
       ∧ session_responses w' = delete room (session_responses w)
       ∧ timer_live <$> timers w' !! tid = Some false).
Proof.
  intros Ht Hcur Hrow Hsid Hf res w' sid ended. subst res w'.
  rewrite (timer_step_exec w tid room (session_id cur) now Ht).
  split; [by destruct (_check_session_timeout _ _ _ _ _ _) as [[[]|e] w1]|].
  split; [|split; [|split]].
  - intros Hlt. by rewrite check_before.
  - intros Hge Hext. rewrite (check_expired_exec w room cur row now) by done.
    rewrite Hext. simpl. cancelled. rewrite Hsid.
    repeat split; try done. by erewrite cancel_live; [|exact Ht].
  - intros Hge Hext Htopic a b rest a' b' Hk Ha Hb new.
    rewrite (check_expired_exec w room cur row now) by done.
    rewrite Hext, decide_True by done.
    rewrite (transition_exec py_int w room row now a b rest a' b') by done.
    simpl. cancelled. fields. rewrite Hsid.
    set (w1 := set_room_sessions _ _).
    destruct (replace_timer_new room (db_next_id w) w1) as (Hn & Hs & Hnew & _).
    repeat split; try done.
    + apply cancel_dead. simpl. apply replace_timer_keeps. subst w1. simpl. by rewrite Ht.
    + exists (fresh (dom (timers w1))).
      assert (fresh (dom (timers w1)) ≠ tid) as Hne.
      { intros Heq. rewrite Heq in Hn. subst w1. simpl in Hn. congruence. }
      split; [done|]. rewrite Hs, lookup_insert_eq. split; [done|].
      rewrite cancel_lookup, decide_False by done. simpl. exact Hnew.
  - intros Hge Hext Htopic.
    rewrite (check_expired_exec w room cur row now) by done.
    rewrite Hext, decide_False by (by rewrite Htopic).
    rewrite decide_True by done.
    rewrite (end_chat_exec w room row now) by done.
    simpl. cancelled. fields. rewrite Hsid.
    repeat split; try done.
    apply cancel_dead. apply clear_keeps. simpl. by rewrite Ht.
Qed.
End expiry.

(** *** Joining a room *)

Section joining.
Variable py_int : string → option Z.
Variable minutes : Z.

Lemma start_state w room a b now :
  room_sessions w !! room = None → db_faults w = [] →
  let new := mkSession (db_next_id w) room a b topic_1_situation now None false in
  start_new_initial_session minutes room a b now w =
    (Ret (Some new),
     set_outbox (outbox w ++
         [(room, mkMsg "system" (IntroNotice minutes) None None now, None);
          (room, mkMsg "session" SituationStart (Some (db_next_id w))
                   (Some topic_1_situation) now, None)])
       (replace_timer room (db_next_id w)
          (set_room_sessions (<[room := new]> (room_sessions w))
             (set_db_next_id (db_next_id w + 1)
                (set_db_sessions (<[db_next_id w := new]> (db_sessions w)) w))))).
Proof.
  intros Hs Hf. unfold start_new_initial_session. unfold_m. rewrite Hs.
  rewrite db_commit_insert_ok by done.
  erewrite db_refresh_ok; [|done|simpl; by rewrite lookup_insert_eq].
  unfold broadcaster. unfold_m. simpl. fields. by rewrite <- (assoc_L (++)).
Qed.

Lemma open_exec w ws room user now :
  db_faults w = [] →
  let w1 := set_cm (ConnectionManager.connect ws room user (cm w)) w in
  endpoint_open py_int minutes ws room user true now w =
    match room_sessions w !! room,
          dict_keys (ConnectionManager.get_active_connections_for_room (cm w1) room) with
    | None, [a; b] =>
        match py_int a, py_int b with
        | Some a', Some b' =>
            (Ret tt, (start_new_initial_session minutes room a' b' now w1).2)
        | _, _ => (Ret tt, w1)
        end
    | _, _ => (Ret tt, w1)
    end.
Proof.
  intros Hf w1. unfold endpoint_open, connect. unfold_m. fold w1.
  assert (db_faults w1 = []) as Hf1 by done.
  rewrite (db_await_ok w1 Hf1). cbv beta iota.
  rewrite (db_await_ok w1 Hf1). cbv beta iota.
  destruct (decide (map_Exists (λ _ s, room_id s = room) (db_sessions w1))) as [He|He];
    [rewrite (db_await_ok w1 Hf1)|]; cbv beta iota;
    unfold active_connections_provider, get_current_session; unfold_m;
    change (room_sessions w1) with (room_sessions w);
    (destruct (room_sessions w !! room) as [cur|] eqn:Hcur; [done|]);
    (destruct (dict_keys _) as [|a [|b [|c l]]]; try done);
    unfold int; (destruct (py_int a) as [a'|]; unfold_m; [|done]);
    (destruct (py_int b) as [b'|]; unfold_m; [|done]);
    by destruct (start_new_initial_session minutes room a' b' now w1) as [[r|e] w2].
Qed.

(** The join that makes two.  One user is connected to the room, the room
    has no session, both user ids read as integers and no database call
    fails.  When a second user opens the websocket the initial session
    starts: a row with topic situation, the user who connected first as
    [user_a] and the newcomer as [user_b], [start_time = now], no end time
    and the extension unused is inserted under the next id and becomes the
    room's session; a timer task for it is registered; the counsellor's
    notice and then the session announcement are sent to the whole room,
    in this order. *)
Theorem second_join_starts_session (w : World) (ws ws1 : nat) (room : Z)
    (user first : string) (a b now : Z) :
  db_faults w = [] →
  room_sessions w !! room = None →
  ConnectionManager.get_active_connections_for_room (cm w) room = [(first, ws1)] →
  user ≠ first →
  py_int first = Some a → py_int user = Some b →
  let res := endpoint_open py_int minutes ws room user true now w in
  let w' := res.2 in
  let new := mkSession (db_next_id w) room a b topic_1_situation now None false in
  res.1 = Ret tt
  ∧ ConnectionManager.get_active_connections_for_room (cm w') room = [(first, ws1); (user, ws)]
  ∧ room_sessions w' = <[room := new]> (room_sessions w)
  ∧ db_sessions w' = <[db_next_id w := new]> (db_sessions w)
  ∧ db_next_id w' = (db_next_id w + 1)%Z
  ∧ outbox w' = outbox w ++
      [(room, mkMsg "system" (IntroNotice minutes) None None now, None);
       (room, mkMsg "session" SituationStart (Some (db_next_id w))
                (Some topic_1_situation) now, None)]
  ∧ session_responses w' = session_responses w
  ∧ timer_replaced w w' room (db_next_id w).
Proof.
  intros Hf Hs Hc Hne Ha Hb res w' new. subst res w'.
  rewrite open_exec by done. rewrite Hs.
  assert (ConnectionManager.get_active_connections_for_room
            (ConnectionManager.connect ws room user (cm w)) room
          = [(first, ws1); (user, ws)]) as Hc'.
  { unfold ConnectionManager.get_active_connections_for_room at 1.
    rewrite ConnectionManagerProofs.connect_conns, lookup_insert_eq. simpl.
    rewrite Hc. simpl. by rewrite decide_False. }
  simpl. rewrite Hc'. simpl. rewrite Ha, Hb.
  rewrite start_state by done. simpl. fields. rewrite Hc'.
  repeat split; try done.
  eapply timer_replaced_intro; [| |reflexivity|reflexivity]; done.
Qed.

(** A join that starts nothing.  The user id is not the empty string (with
    an empty id the endpoint closes the websocket before it connects,
    websockets.py:69-72) and no database call fails.  Then opening a
    websocket only registers the connection, and the session manager's
    state is exactly as before, in each of these cases: the room already
    has a session; after the join the room does not have exactly two
    connected users; one of the two user ids does not read as an integer
    (the [ValueError] is caught and the connection stays). *)
Theorem join_without_start (w : World) (ws : nat) (room : Z) (user : string) (now : Z) :
  user ≠ "" →
  db_faults w = [] →
  let cm' := ConnectionManager.connect ws room user (cm w) in
  let conns := ConnectionManager.get_active_connections_for_room cm' room in
  is_Some (room_sessions w !! room) ∨ length conns ≠ 2
    ∨ (∃ k, k ∈ dict_keys conns ∧ py_int k = None) →
  endpoint_open py_int minutes ws room user true now w = (Ret tt, set_cm cm' w).
Proof.
  intros _ Hf cm' conns Hcase. rewrite open_exec by done. simpl. fold cm'. fold conns.
  destruct (room_sessions w !! room) as [cur|] eqn:Hs; [done|].
  destruct Hcase as [[? ?]|[Hlen|(k & Hk & Hint)]]; [done| |].
  - unfold dict_keys. destruct conns as [|p1 [|p2 [|p3 l]]]; simpl in *; try done.
  - unfold dict_keys in *. destruct conns as [|p1 [|p2 [|p3 l]]]; simpl in *; try done.
    apply elem_of_cons in Hk as [->|Hk]; [by rewrite Hint|].
    apply list_elem_of_singleton in Hk as ->. rewrite Hint. by destruct (py_int p1.1).
Qed.
End joining.

(** *** Votes before the round is complete *)

Section voting.
Variable py_int : string → option Z.
Variable minutes : Z.

(** The first vote of a round, and any further vote by the same user while
    the other has not voted.  The room has a session, two users are
    connected, and nobody but [user] has a choice on record.  Then
    [add_session_response] stores the choice, replacing an earlier choice
    of the same user, sends the wait notice to that user only, and does
    nothing else: no database call, no change of session, timer or table.
    Two votes of one user never resolve a round. *)
Theorem vote_waits_for_other (w : World) (room : Z) (user : string) (response : bool)
    (now : Z) (cur : Session) :
  room_sessions w !! room = Some cur →
  2 ≤ length (ConnectionManager.get_active_connections_for_room (cm w) room) →
  dom (default ∅ (session_responses w !! room)) ⊆ {[user]} →
  add_session_response py_int minutes room user response now w =
    (Ret tt,
     set_outbox (outbox w ++ [(room, mkMsg "system" WaitForOther None None now, Some user)])
       (set_session_responses (<[room := {[user := response]}]> (session_responses w)) w)).
Proof.
  intros Hcur Hconn Hdom.
  assert (<[user := response]> (default ∅ (session_responses w !! room))
          = {[user := response]}) as Hv.
  { apply map_eq. intros k. destruct (decide (k = user)) as [->|Hk].
    - by rewrite lookup_insert_eq, lookup_singleton_eq.
    - rewrite lookup_insert_ne, lookup_singleton_ne by done.
      apply not_elem_of_dom. set_solver. }
  unfold add_session_response. unfold_m. simpl. rewrite Hcur.
  unfold active_connections_provider. unfold_m. simpl.
  rewrite decide_False by lia.
  rewrite lookup_insert_eq. simpl. rewrite Hv.
  rewrite decide_True by apply map_size_singleton.
  unfold broadcaster. unfold_m. done.
Qed.
End voting.

(** *** What the session manager sends *)

#[local] Transparent cancel replace_timer clear_room_session_data.

Section frames.
Variable py_int : string → option Z.
Variable minutes : Z.

(** An invariant [I] that reads one field of the state and is kept by the
    broadcaster for the messages that satisfy [sendable]. *)
Context {F : Type} (field : World → F) (I : World → Prop).
Context (sendable : Z * Msg * option string → Prop).
Hypothesis I_field : ∀ w w', field w' = field w → I w → I w'.
Hypothesis I_broadcaster : ∀ r m tg, sendable (r, m, tg) → preserves I (broadcaster r m tg).
Hypothesis field_faults : ∀ v w, field (set_db_faults v w) = field w.
Hypothesis field_sessions : ∀ v w, field (set_room_sessions v w) = field w.
Hypothesis field_tasks : ∀ v w, field (set_session_tasks v w) = field w.
Hypothesis field_responses : ∀ v w, field (set_session_responses v w) = field w.
Hypothesis field_timers : ∀ v w, field (set_timers v w) = field w.
Hypothesis field_db : ∀ v w, field (set_db_sessions v w) = field w.
Hypothesis field_next : ∀ v w, field (set_db_next_id v w) = field w.
Hypothesis send_intro : ∀ r mins now,
  sendable (r, mkMsg "system" (IntroNotice mins) None None now, None).
Hypothesis send_situation : ∀ r sid tp now,
  sendable (r, mkMsg "session" SituationStart (Some sid) (Some tp) now, None).
Hypothesis send_prompt : ∀ r d sid now,
  sendable (r, mkMsg "system" (ExtensionPrompt d) (Some sid) None now, None).
Hypothesis send_wait : ∀ r now u,
  sendable (r, mkMsg "system" WaitForOther None None now, Some u).
Hypothesis send_all_yes : ∀ r d mins sid tp now,
  sendable (r, mkMsg "session" (ExtendedAllYes d mins) (Some sid) (Some tp) now, None).
Hypothesis send_one_yes : ∀ r d mins sid tp now,
  sendable (r, mkMsg "session" (ExtendedOneYes d mins) (Some sid) (Some tp) now, None).
Hypothesis send_emotion : ∀ r sid tp now,
  sendable (r, mkMsg "session" EmotionStart (Some sid) (Some tp) now, None).
Hypothesis send_closed : ∀ r now,
  sendable (r, mkMsg "system" ChatClosed None None now, None).

Lemma field_cancel tid w : field (cancel tid w) = field w.
Proof. unfold cancel. destruct (timers w !! tid); [apply field_timers|done]. Qed.

Lemma field_replace_timer room target w : field (replace_timer room target w) = field w.
Proof.
  unfold replace_timer. rewrite field_tasks, field_timers.
  destruct (session_tasks w !! room); [apply field_cancel|done].
Qed.

Lemma field_clear room w : field (clear_room_session_data room w) = field w.
Proof.
  unfold clear_room_session_data. rewrite field_responses.
  destruct (session_tasks _ !! room); [|apply field_sessions].
  by rewrite field_tasks, field_cancel, field_sessions.
Qed.

Lemma modify_field f : (∀ w, field (f w) = field w) → preserves I (modify f).
Proof. intros H. apply preserves_modify. intros w. by apply I_field. Qed.

Lemma db_await_field : preserves I db_await.
Proof.
  intros w Hw. unfold db_await. destruct (db_faults w) as [|[] ?]; simpl; try done;
    by apply (I_field w).
Qed.

Ltac sendable :=
  try match goal with |- context [all_yes ?m] => destruct (all_yes m) end;
  auto using send_intro, send_situation, send_prompt, send_wait, send_all_yes,
    send_one_yes, send_emotion, send_closed.

Ltac fpres :=
  repeat (first [ pres_step
                | apply db_await_field
                | by (apply modify_field; intros;
                      rewrite ?field_cancel, ?field_replace_timer, ?field_clear,
                        ?field_faults, ?field_sessions, ?field_tasks, ?field_responses,
                        ?field_timers, ?field_db, ?field_next)
                | by (apply I_broadcaster; sendable) ]).

Lemma db_get_field sid : preserves I (db_get sid).
Proof. unfold db_get. fpres. Qed.
Lemma db_commit_insert_field s : preserves I (db_commit_insert s).
Proof. unfold db_commit_insert. fpres. Qed.
Lemma db_commit_update_field s : preserves I (db_commit_update s).
Proof. unfold db_commit_update. fpres. Qed.
Lemma db_refresh_field s : preserves I (db_refresh s).
Proof. unfold db_refresh. fpres. Qed.
Lemma provider_field r : preserves I (active_connections_provider r).
Proof. unfold active_connections_provider. fpres. Qed.
Lemma int_field s : preserves I (int py_int s).
Proof. unfold int. fpres. Qed.

Ltac fpres' :=
  repeat (first [ apply db_get_field | apply db_commit_insert_field
                | apply db_commit_update_field | apply db_refresh_field
                | apply provider_field | apply int_field | progress fpres ]).

Lemma start_field room a b now :
  preserves I (start_new_initial_session minutes room a b now).
Proof. unfold start_new_initial_session, db_rollback. fpres'. Qed.

Lemma transition_field room s now :
  preserves I (_transition_to_emotion_topic py_int room s now).
Proof. unfold _transition_to_emotion_topic. fpres'. Qed.

Lemma end_chat_field room s now :
  preserves I (_end_chat_after_emotion_extension room s now).
Proof. unfold _end_chat_after_emotion_extension. fpres'. Qed.

Lemma check_field room target now :
  preserves I (_check_session_timeout py_int minutes room target now).
Proof.
  unfold _check_session_timeout.
  repeat (first [ apply transition_field | apply end_chat_field | progress fpres' ]).
Qed.

Lemma timer_step_field tid now : preserves I (timer_step py_int minutes tid now).
Proof. unfold timer_step. repeat (first [ apply check_field | progress fpres' ]). Qed.

Lemma add_response_field room u r now :
  preserves I (add_session_response py_int minutes room u r now).
Proof.
  unfold add_session_response, db_rollback.
  repeat (first [ apply transition_field | apply end_chat_field | progress fpres' ]).
Qed.

Lemma end_session_field room now : preserves I (end_session_for_room room now).
Proof. unfold end_session_for_room, db_rollback. fpres'. Qed.

(** The endpoint, for a field the registry calls leave alone. *)
Hypothesis field_cm : ∀ v w, field (set_cm v w) = field w.

Lemma registry_field f : preserves I (modify (λ w, set_cm (f (cm w)) w)).
Proof. apply modify_field. intros w. apply field_cm. Qed.

Lemma cleanup_field room u now : preserves I (endpoint_cleanup room u now).
Proof.
  unfold endpoint_cleanup, disconnect, get_current_session.
  repeat (first [ apply registry_field | apply end_session_field | progress fpres' ]).
Qed.

Lemma open_field ws room u found now :
  preserves I (endpoint_open py_int minutes ws room u found now).
Proof.
  unfold endpoint_open, connect, disconnect, get_current_session.
  repeat (first [ apply registry_field | apply cleanup_field | apply start_field
                | progress fpres' ]).
Qed.

Lemma response_field room u yes now :
  preserves I (endpoint_response py_int minutes room u yes now).
Proof.
  unfold endpoint_response, get_current_session.
  repeat (first [ apply add_response_field | progress fpres' ]).
Qed.

Lemma handler_field e : preserves I (handler py_int minutes e).
Proof.
  destruct e; simpl; unfold connect, disconnect;
    repeat (first [ apply open_field | apply response_field | apply cleanup_field
                  | apply timer_step_field | apply start_field | apply add_response_field
                  | apply end_session_field | apply registry_field | progress fpres' ]).
Qed.
End frames.

#[local] Opaque cancel replace_timer clear_room_session_data.

Section sent.
Variable py_int : string → option Z.
Variable minutes : Z.

Lemma broadcaster_shaped r m tg :
  shaped (r, m, tg) → preserves outbox_shaped (broadcaster r m tg).
Proof.
  intros Hs w Hw. unfold broadcaster, modify, outbox_shaped. simpl.
  apply Forall_app. split; [done|]. by constructor.
Qed.

Lemma handler_shaped e : preserves outbox_shaped (handler py_int minutes e).
Proof.
  apply (handler_field py_int minutes outbox outbox_shaped shaped);
    try done; try (intros; by apply broadcaster_shaped);
    try (intros; simpl; by eauto 10).
  intros w w' Ho. unfold outbox_shaped. by rewrite Ho.
Qed.

(** Everything the session manager hands to the broadcaster, in every run
    and whatever the database does, has one of the shapes built in
    session.py: only the wait notice names a target user and every other
    message goes to the whole room; a ["session"] message always carries a
    session id and a topic; no chat line is ever sent by the manager. *)
Theorem manager_messages_shaped (faults : list bool) (evs : list Event) :
  Forall shaped (outbox (run py_int minutes (init faults) evs)).
Proof.
  change (outbox_shaped (run py_int minutes (init faults) evs)).
  assert (outbox_shaped (init faults)) as H0 by constructor.
  revert H0. generalize (init faults).
  induction evs as [|e evs IH]; intros w Hw; simpl; [done|].
  apply IH. by apply handler_shaped.
Qed.

End sent.

(** *** The table only grows *)

Lemma row_kept_refl row : row_kept row row.
Proof. by split. Qed.

Lemma row_kept_trans r1 r2 r3 : row_kept r1 r2 → row_kept r2 r3 → row_kept r1 r3.
Proof.
  intros [A1 A2 A3 A4 A5 A6 A7] [B1 B2 B3 B4 B5 B6 B7].
  split; try congruence; auto.
Qed.

Lemma table_grows_refl w : table_grows w w.
Proof. split; [lia|]. intros sid row H. exists row. split; [done|apply row_kept_refl]. Qed.

Lemma table_grows_trans w1 w2 w3 : table_grows w1 w2 → table_grows w2 w3 → table_grows w1 w3.
Proof.
  intros [A1 A2] [B1 B2]. split; [lia|]. intros sid row H.
  destruct (A2 _ _ H) as (row' & H' & K'). destruct (B2 _ _ H') as (row'' & H'' & K'').
  exists row''. split; [done|]. by eapply row_kept_trans.
Qed.

Section table.
Variable py_int : string → option Z.
Variable minutes : Z.
Variable w0 : World.

Let J (w : World) : Prop := keys_ok w ∧ table_grows w0 w.

Lemma J_ext w w' :
  db_sessions w' = db_sessions w → db_next_id w' = db_next_id w → J w → J w'.
Proof.
  intros Ed En [Hk [Hn Hg]]. split; [|split].
  - intros sid row. rewrite Ed, En. apply Hk.
  - by rewrite En.
  - intros sid row. rewrite Ed. apply Hg.
Qed.

Lemma J_insert w s :
  J w → session_id s = db_next_id w →
  J (set_db_next_id (db_next_id w + 1) (set_db_sessions (<[db_next_id w := s]> (db_sessions w)) w)).
Proof.
  intros [Hk [Hn Hg]] Hs. split; [|split]; simpl.
  - intros sid row. simpl. rewrite lookup_insert. case_decide as Hd.
    + intros [= <-]. subst sid. split; [done|lia].
    + intros H. destruct (Hk _ _ H). split; [done|lia].
  - lia.
  - intros sid row H. destruct (Hg _ _ H) as (row' & H' & K).
    exists row'. split; [|done]. rewrite lookup_insert_ne; [done|].
    intros <-. destruct (Hk _ _ H'). lia.
Qed.

Lemma J_update w sid row s :
  J w → db_sessions w !! sid = Some row → row_kept row s →
  J (set_db_sessions (<[session_id s := s]> (db_sessions w)) w).
Proof.
  intros [Hk [Hn Hg]] Hrow Hkept.
  destruct (Hk _ _ Hrow) as [Hid Hlt].
  assert (session_id s = sid) as Hs by (rewrite (kept_id _ _ Hkept); done).
  rewrite Hs. split; [|split]; simpl.
  - intros sid' row'. simpl. rewrite lookup_insert. case_decide as Hd.
    + intros [= <-]. by subst sid'.
    + apply Hk.
  - done.
  - intros sid' row0 H. destruct (Hg _ _ H) as (row' & H' & K).
    rewrite lookup_insert. case_decide as Hd.
    + subst sid'. exists s. split; [done|]. rewrite Hrow in H'. injection H' as <-.
      by eapply row_kept_trans.
    + by exists row'.
Qed.

Lemma modify_J f :
  (∀ w, db_sessions (f w) = db_sessions w) → (∀ w, db_next_id (f w) = db_next_id w) →
  preserves J (modify f).
Proof. intros Hd Hn. apply preserves_modify. intros w. by apply J_ext. Qed.

Lemma db_await_J : preserves J db_await.
Proof.
  intros w Hw. unfold db_await. destruct (db_faults w) as [|[] ?]; simpl; try done;
    by apply (J_ext w).
Qed.

Lemma db_commit_insert_J s : preserves J (db_commit_insert s).
Proof.
  unfold db_commit_insert. apply preserves_bind; [apply db_await_J|intros _].
  intros w Hw. unfold_m. simpl. by apply J_insert.
Qed.

Ltac jpres :=
  repeat (first [ pres_step
                | apply db_await_J
                | apply db_commit_insert_J
                | by (apply modify_J; intros; fields; cancelled) ]).

Lemma db_get_J sid : preserves J (db_get sid).
Proof. unfold db_get. jpres. Qed.
Lemma db_refresh_J s : preserves J (db_refresh s).
Proof. unfold db_refresh. jpres. Qed.
Lemma broadcaster_J r m tg : preserves J (broadcaster r m tg).
Proof. unfold broadcaster. jpres. Qed.
Lemma provider_J r : preserves J (active_connections_provider r).
Proof. unfold active_connections_provider. jpres. Qed.
Lemma int_J s : preserves J (int py_int s).
Proof. unfold int. jpres. Qed.

Ltac jpres' :=
  repeat (first [ apply db_get_J | apply db_refresh_J | apply broadcaster_J
                | apply provider_J | apply int_J | progress jpres ]).

(** Reading a row and writing it back. *)
Lemma db_get_bind {B} sid (K : option Session → M B) :
  (∀ r, preserves_from (λ w, J w ∧ db_sessions w !! sid = r) J (K r)) →
  preserves J (db_get sid ≫= K).
Proof.
  intros HK w Hw. unfold db_get, db_await. unfold_m.
  destruct (db_faults w) as [|[] fs] eqn:Ef; simpl.
  - by apply (HK (db_sessions w !! sid)).
  - by apply (J_ext w).
  - apply (HK (db_sessions w !! sid)). split; [by apply (J_ext w)|done].
Qed.

Lemma update_bind {B} sid row s (rest : M B) :
  row_kept row s → preserves J rest →
  preserves_from (λ w, J w ∧ db_sessions w !! sid = Some row) J (db_commit_update s;; rest).
Proof.
  intros Hkept Hrest w [Hw Hrow]. unfold db_commit_update, db_await. unfold_m.
  destruct (db_faults w) as [|[] fs] eqn:Ef; simpl.
  - apply Hrest. by eapply J_update.
  - by apply (J_ext w).
  - apply Hrest. eapply (J_update (set_db_faults fs w)); [by apply (J_ext w)|exact Hrow|done].
Qed.

Lemma from_preserves {A} (P : World → Prop) (m : M A) :
  preserves J m → preserves_from (λ w, J w ∧ P w) J m.
Proof. intros Hm w [Hw _]. by apply Hm. Qed.

Lemma from_bind {A B} (P : World → Prop) (m : M A) (f : A → M B) :
  preserves_from P J m → (∀ a, preserves J (f a)) → preserves_from P J (m ≫= f).
Proof.
  intros Hm Hf w Hw. unfold_m. specialize (Hm w Hw).
  destruct (m w) as [[a|e] w']; simpl in *; [by apply Hf|done].
Qed.

Lemma from_try {A} (P : World → Prop) (m : M A) h :
  preserves_from P J m → (∀ e, preserves J (h e)) → preserves_from P J (try_except m h).
Proof.
  intros Hm Hh w Hw. unfold_m. specialize (Hm w Hw).
  destruct (m w) as [[a|e] w']; simpl in *; [done|by apply Hh].
Qed.

Lemma closed_kept now row : row_kept row (set_end_time (Some now) row).
Proof. split; simpl; try done; by eauto. Qed.

Lemma extended_kept now row : row_kept row (extend now row).
Proof. by split. Qed.

Lemma transition_J room row now :
  preserves_from (λ w, J w ∧ db_sessions w !! session_id row = Some row) J
    (_transition_to_emotion_topic py_int room row now).
Proof.
  unfold _transition_to_emotion_topic. cbv zeta.
  apply update_bind; [apply closed_kept|]. jpres'.
Qed.

Lemma end_chat_J room row now :
  preserves_from (λ w, J w ∧ db_sessions w !! session_id row = Some row) J
    (_end_chat_after_emotion_extension room row now).
Proof.
  unfold _end_chat_after_emotion_extension. cbv zeta.
  apply update_bind; [apply closed_kept|]. jpres'.
Qed.

Lemma from_own_id {A} sid row (m : M A) :
  preserves_from (λ w, J w ∧ db_sessions w !! session_id row = Some row) J m →
  preserves_from (λ w, J w ∧ db_sessions w !! sid = Some row) J m.
Proof.
  intros Hm w [Hw Hrow]. apply Hm. split; [done|].
  destruct Hw as [Hk _]. destruct (Hk _ _ Hrow) as [-> _]. done.
Qed.

Ltac jstep :=
  first [ apply db_get_bind; intros [?|]
        | apply db_get_J | apply db_refresh_J | apply broadcaster_J
        | apply provider_J | apply int_J
        | pres_step | apply db_await_J | apply db_commit_insert_J
        | by (apply modify_J; intros; fields; cancelled) ].

Lemma check_J room target now :
  preserves J (_check_session_timeout py_int minutes room target now).
Proof.
  unfold _check_session_timeout. repeat jstep.
  - destruct (extension_used s0).
    + apply from_bind; [|intros; apply preserves_ret].
      apply from_own_id. case_decide; [apply transition_J|].
      case_decide; [apply end_chat_J|]. apply from_preserves, preserves_ret.
    + apply from_preserves. repeat jstep.
  - apply from_preserves, preserves_ret.
Qed.

Lemma timer_step_J tid now : preserves J (timer_step py_int minutes tid now).
Proof. unfold timer_step. repeat (first [apply check_J | jstep]). Qed.

Lemma start_J room a b now : preserves J (start_new_initial_session minutes room a b now).
Proof. unfold start_new_initial_session, db_rollback. repeat jstep. Qed.

Lemma add_response_J room u r now :
  preserves J (add_session_response py_int minutes room u r now).
Proof.
  unfold add_session_response, db_rollback. repeat jstep.
  - apply from_try; [|intros; apply preserves_ret].
    apply from_bind; [|intros; repeat jstep].
    destruct (all_yes _ || any_yes _).
    + cbv zeta. apply update_bind; [apply extended_kept|]. repeat jstep.
    + apply from_own_id. case_decide; [apply transition_J|].
      case_decide; [apply end_chat_J|]. apply from_preserves, preserves_ret.
  - apply from_preserves. repeat jstep.
Qed.

Lemma end_session_J room now : preserves J (end_session_for_room room now).
Proof.
  unfold end_session_for_room, db_rollback. repeat jstep.
  - destruct (end_time s0) eqn:Ee; [apply from_preserves, preserves_ret|].
    cbv zeta. apply update_bind; [apply closed_kept|]. repeat jstep.
  - apply from_preserves, preserves_ret.
Qed.

Lemma cleanup_J room u now : preserves J (endpoint_cleanup room u now).
Proof.
  unfold endpoint_cleanup, disconnect, get_current_session.
  repeat (first [apply end_session_J | jstep]).
Qed.

Lemma connect_J ws room u : preserves J (connect ws room u).
Proof. unfold connect. by apply modify_J. Qed.

Lemma disconnect_J room u : preserves J (disconnect room u).
Proof. unfold disconnect. by apply modify_J. Qed.

Lemma get_current_session_J room : preserves J (get_current_session room).
Proof.
  unfold get_current_session.
  apply preserves_bind; [apply preserves_get|intros; apply preserves_ret].
Qed.

Lemma open_J ws room u found now :
  preserves J (endpoint_open py_int minutes ws room u found now).
Proof.
  unfold endpoint_open.
  apply preserves_try; [|intros ?; apply cleanup_J].
  apply preserves_bind; [apply connect_J|intros _].
  apply preserves_bind; [apply db_await_J|intros _].
  destruct found.
  - apply preserves_bind; [apply db_await_J|intros _].
    apply preserves_bind; [apply preserves_get|intros w].
    apply preserves_bind;
      [case_decide; [apply db_await_J|apply preserves_ret]|intros _].
    apply preserves_bind; [apply provider_J|intros conns].
    apply preserves_bind; [apply get_current_session_J|intros cur].
    destruct cur as [cur|]; [apply preserves_ret|].
    destruct (dict_keys conns) as [|a [|b [|c l]]]; try apply preserves_ret.
    apply preserves_try; [|intros; apply preserves_ret].
    apply preserves_bind; [apply int_J|intros user_a].
    apply preserves_bind; [apply int_J|intros user_b].
    apply preserves_bind; [apply start_J|intros; apply preserves_ret].
  - apply preserves_bind; [apply disconnect_J|intros _]. apply cleanup_J.
Qed.

Lemma response_J room u yes now :
  preserves J (endpoint_response py_int minutes room u yes now).
Proof.
  unfold endpoint_response, get_current_session.
  repeat (first [apply add_response_J | jstep]).
Qed.

Lemma handler_J e : preserves J (handler py_int minutes e).
Proof.
  destruct e; simpl; unfold connect, disconnect;
    repeat (first [ apply open_J | apply response_J | apply cleanup_J | apply timer_step_J
                  | apply start_J | apply add_response_J | apply end_session_J | jstep ]).
Qed.

Lemma run_J evs w : J w → J (run py_int minutes w evs).
Proof.
  revert w. induction evs as [|e evs IH]; intros w Hw; simpl; [done|].
  apply IH. by apply handler_J.
Qed.
End table.

Lemma init_keys_ok faults : keys_ok (init faults).
Proof. intros sid row. simpl. by rewrite lookup_empty. Qed.

Section grows.
Variable py_int : string → option Z.
Variable minutes : Z.

(** The manager never deletes a row, never reopens one and never reuses an
    id, in any run and whatever the database does.  Between any two points
    of a run: the next id does not decrease; every row that was in the
    table is still there under the same id, which lies below the next id
    of the earlier point; its room, users and topic are unchanged; if it
    had an end time it still has one; if its extension was used it still
    is. *)
Theorem table_only_grows (faults : list bool) (evs evs' : list Event) :
  let w := run py_int minutes (init faults) evs in
  let w' := run py_int minutes w evs' in
  (db_next_id w ≤ db_next_id w')%Z
  ∧ ∀ sid row, db_sessions w !! sid = Some row →
      session_id row = sid ∧ (sid < db_next_id w)%Z
      ∧ ∃ row', db_sessions w' !! sid = Some row' ∧ row_kept row row'.
Proof.
  intros w w'.
  assert (keys_ok w) as Hk.
  { apply (run_J py_int minutes (init faults)).
    split; [apply init_keys_ok|apply table_grows_refl]. }
  destruct (run_J py_int minutes w evs' w) as [_ [Hn Hg]];
    [split; [done|apply table_grows_refl]|].
  split; [done|]. intros sid row Hrow. destruct (Hk _ _ Hrow) as [Hid Hlt].
  split; [done|]. split; [done|]. by apply Hg.
Qed.
End grows.

(** *** Ending twice, and the room after the prompt *)

#[local] Transparent clear_room_session_data.

Lemma clear_nothing room w :
  room_sessions w !! room = None → session_tasks w !! room = None →
  session_responses w !! room = None →
  clear_room_session_data room w = w.
Proof.
  intros H1 H2 H3. unfold clear_room_session_data. simpl. rewrite H2.
  unfold set_session_responses, set_room_sessions. simpl.
  rewrite !delete_id by done. apply world_eta.
Qed.

Lemma clear_lookups room w :
  let w' := clear_room_session_data room w in
  room_sessions w' !! room = None ∧ session_tasks w' !! room = None
  ∧ session_responses w' !! room = None.
Proof.
  cbv zeta. destruct (clear_fields room w) as (_ & -> & -> & -> & _).
  by rewrite !lookup_delete_eq.
Qed.

#[local] Opaque clear_room_session_data.

Section ending.
Variable py_int : string → option Z.
Variable minutes : Z.

(** [end_session_for_room] is idempotent when no database call fails:
    after one call the room has no session, timer registration or
    responses, and a second call returns without touching the database or
    anything else. *)
Theorem end_session_twice (w : World) (room now now' : Z) :
  db_faults w = [] →
  let w1 := (end_session_for_room room now w).2 in
  room_sessions w1 !! room = None ∧ session_tasks w1 !! room = None
  ∧ session_responses w1 !! room = None
  ∧ end_session_for_room room now' w1 = (Ret tt, w1).
Proof.
  intros _ w1.
  assert (room_sessions w1 !! room = None ∧ session_tasks w1 !! room = None
          ∧ session_responses w1 !! room = None) as (H1 & H2 & H3).
  { subst w1. rewrite end_session_unfold. unfold_m.
    destruct (close_current room now w) as [[[]|e] w2] eqn:E; simpl.
    - apply clear_lookups.
    - pose proof (close_current_returns room now w) as Hr. rewrite E in Hr. done. }
  repeat split; try done.
  unfold end_session_for_room. unfold_m. rewrite H1. by rewrite clear_nothing.
Qed.

(** After the prompt the room has no timer.  In a reachable state the live
    timer task of the room's current session wakes up after the segment
    has run out, the extension being unused and no database call failing.
    Once it has sent the prompt, no timer task of the room is live: the
    room waits for the two answers and nothing else ends the round. *)
Theorem prompt_leaves_no_timer (evs : list Event) (tid : nat) (room now : Z)
    (cur row : Session) :
  let w := run py_int minutes (init []) evs in
  timers w !! tid = Some (mkTimer room (session_id cur) true) →
  room_sessions w !! room = Some cur →
  db_sessions w !! session_id cur = Some row →
  extension_used row = false →
  (session_timeout_duration minutes ≤ now - start_time cur)%Z →
  let w' := step py_int minutes w (Tick tid now) in
  live_timers w' room = ∅ ∧ session_responses w' !! room = Some ∅.
Proof.
  intros w Ht Hcur Hrow Hext Hge w'.
  assert (timers_ok w) as Hok by apply run_timers_ok, init_timers_ok.
  assert (db_faults w = []) as Hf by apply (ok_faults _ (run_db_ok py_int minutes evs _ (init_db_ok))).
  assert (session_tasks w !! room = Some tid) as Hreg
    by apply (live_registered _ Hok tid _ Ht eq_refl).
  subst w'. unfold step. simpl.
  rewrite (timer_step_exec py_int minutes w tid room (session_id cur) now Ht).
  rewrite (check_expired_exec py_int minutes w room cur row now) by done.
  rewrite Hext. simpl. split.
  - apply map_empty. intros tid'. apply map_lookup_filter_None. right.
    intros tk Htk [Hroom Hlive]. simpl in *.
    rewrite cancel_lookup in Htk. simpl in Htk.
    case_decide as Hd.
    + subst tid'. rewrite Ht in Htk. simpl in Htk. injection Htk as <-. done.
    + pose proof (live_registered _ Hok tid' tk Htk Hlive) as Hr.
      rewrite Hroom, Hreg in Hr. congruence.
  - cancelled. by rewrite lookup_insert_eq.
Qed.
End ending.

(** *** The theorems above at the example states *)

Lemma timer_expiry_rule_witness :
  let w' := (timer_step example_int 1 0 60 joined).2 in
  session_responses w' = <[1%Z := ∅]> (session_responses joined)
  ∧ timers w' = <[0 := mkTimer 1 1 false]> (timers joined).
Proof.
  destruct (timer_expiry_rule example_int 1 joined 0 1 60
              (mkSession 1 1 7 8 topic_1_situation 0 None false)
              (mkSession 1 1 7 8 topic_1_situation 0 None false))
    as (_ & _ & H & _).
  - vm_compute. reflexivity.
  - vm_compute. reflexivity.
  - vm_compute. reflexivity.
  - reflexivity.
  - vm_compute. reflexivity.
  - destruct H as (_ & H2 & H3 & _).
    + vm_compute. discriminate.
    + reflexivity.
    + split; [exact H2|exact H3].
Defined.

Lemma second_join_starts_session_witness :
  room_sessions (endpoint_open example_int 1 11 1 "8" true 5 alone).2 !! 1%Z
    = Some (mkSession 1 1 7 8 topic_1_situation 5 None false).
Proof.
  destruct (second_join_starts_session example_int 1 alone 11 10 1 "8" "7" 7 8 5)
    as (_ & _ & H & _).
  - vm_compute. reflexivity.
  - vm_compute. reflexivity.
  - vm_compute. reflexivity.
  - discriminate.
  - reflexivity.
  - reflexivity.
  - rewrite H. apply lookup_insert_eq.
Defined.

Lemma join_without_start_witness :
  endpoint_open example_int 1 12 1 "9" true 5 joined
    = (Ret tt, set_cm (ConnectionManager.connect 12 1 "9" (cm joined)) joined).
Proof.
  apply (join_without_start example_int 1 joined 12 1 "9" 5).
  - discriminate.
  - vm_compute. reflexivity.
  - left. vm_compute. eauto.
Defined.

Lemma vote_waits_for_other_witness :
  add_session_response example_int 1 1 "7" true 70 prompted =
    (Ret tt,
     set_outbox (outbox prompted ++ [(1%Z, mkMsg "system" WaitForOther None None 70, Some "7")])
       (set_session_responses (<[1%Z := {["7" := true]}]> (session_responses prompted))
          prompted)).
Proof.
  apply (vote_waits_for_other example_int 1 prompted 1 "7" true 70
           (mkSession 1 1 7 8 topic_1_situation 0 None false)).
  - vm_compute. reflexivity.
  - vm_compute. lia.
  - assert (session_responses prompted !! 1%Z = Some ∅) as -> by (vm_compute; reflexivity).
    simpl. rewrite dom_empty. apply empty_subseteq.
Defined.

Lemma end_session_twice_witness :
  let w1 := (end_session_for_room 1 95 extended).2 in
  room_sessions w1 !! 1%Z = None ∧ session_tasks w1 !! 1%Z = None
  ∧ session_responses w1 !! 1%Z = None
  ∧ db_sessions w1 !! 1%Z = Some (mkSession 1 1 7 8 topic_1_situation 75 (Some 95%Z) true)
  ∧ end_session_for_room 1 99 w1 = (Ret tt, w1).
Proof.
  destruct (end_session_twice extended 1 95 99) as (H1 & H2 & H3 & H4).
  - vm_compute. reflexivity.
  - split; [exact H1|]. split; [exact H2|]. split; [exact H3|].
    split; [vm_compute; reflexivity|exact H4].
Defined.

Lemma prompt_leaves_no_timer_witness :
  live_timers (step example_int 1 joined (Tick 0 60)) 1 = ∅
  ∧ session_responses (step example_int 1 joined (Tick 0 60)) !! 1%Z = Some ∅.
Proof.
  apply (prompt_leaves_no_timer example_int 1 joined_events 0 1 60
           (mkSession 1 1 7 8 topic_1_situation 0 None false)
           (mkSession 1 1 7 8 topic_1_situation 0 None false)).
  - vm_compute. reflexivity.
  - vm_compute. reflexivity.
  - vm_compute. reflexivity.
  - reflexivity.
  - vm_compute. discriminate.
Defined.

End SessionManagerProofs.
